(** * Wox: the web-search plugin, the AI-chat plugin and the UI router

    A shallow embedding of
      - [wox.core/plugin/system] [WebSearchPlugin]   (web search),
      - [wox.core/plugin/system/chat] [AIChatPlugin] (AI chat),
      - [wox.core/ui/router.go]                      (HTTP handlers),
      - [wox/setting] plugin settings                (JSON round trip),
    and the properties of these operations.

    Go strings are byte strings; they are modelled by [string] (a list of
    8-bit [ascii]).  [int64] values are modelled by [Z] with the
    two's-complement wrap-around written out. *)

From Stdlib Require Import ZArith Ascii String List Bool Lia Sorting.Sorted.
From stdpp Require Import base option list strings sorting gmap pretty.

Local Open Scope string_scope.
Local Open Scope list_scope.

(** ** Go's [strings] package *)

Module strings.

(** [strings.HasPrefix s prefix]. *)
Definition HasPrefix (s prefix : string) : bool := String.prefix prefix s.

(** The scan of [strings.Split]: the token under construction and the
    tokens after it.  [skip] counts the bytes of a separator that has just
    been matched and is still to be stepped over. *)
Fixpoint splitScan (sep : string) (skip : nat) (s : string)
  : string * list string :=
  match s with
  | EmptyString => (EmptyString, [])
  | String c s' =>
      match skip with
      | S k => splitScan sep k s'
      | O =>
          if HasPrefix s sep
          then let '(t, ts) := splitScan sep (String.length sep - 1) s' in
               (EmptyString, t :: ts)
          else let '(t, ts) := splitScan sep 0 s' in
               (String c t, ts)
      end
  end.

(** [explode]: what [strings.Split] does for an empty separator (one
    string per byte here; Go cuts after each UTF-8 sequence). *)
Fixpoint explode (s : string) : list string :=
  match s with
  | EmptyString => []
  | String c s' => String c EmptyString :: explode s'
  end.

(** [strings.Split s sep]: the substrings between the non-overlapping
    occurrences of [sep], taken from the left. *)
Definition Split (s sep : string) : list string :=
  match sep with
  | EmptyString => explode s
  | _ => let '(t, ts) := splitScan sep 0 s in t :: ts
  end.

(** [strings.Join elems sep]. *)
Definition Join (elems : list string) (sep : string) : string :=
  String.concat sep elems.

(** The scan of [strings.ReplaceAll] for a non-empty [old]. *)
Fixpoint replaceScan (old new : string) (skip : nat) (s : string) : string :=
  match s with
  | EmptyString => EmptyString
  | String c s' =>
      match skip with
      | S k => replaceScan old new k s'
      | O =>
          if HasPrefix s old
          then new +:+ replaceScan old new (String.length old - 1) s'
          else String c (replaceScan old new 0 s')
      end
  end.

(** For an empty [old], [new] is inserted before every byte and at the
    end (Go: before every UTF-8 sequence). *)
Fixpoint intersperse (new s : string) : string :=
  match s with
  | EmptyString => new
  | String c s' => new +:+ String c (intersperse new s')
  end.

(** [strings.ReplaceAll s old new]: every non-overlapping occurrence of
    [old] in [s], taken from the left, replaced by [new]. *)
Definition ReplaceAll (s old new : string) : string :=
  match old with
  | EmptyString => intersperse new s
  | _ => replaceScan old new 0 s
  end.

(** [strings.ToLower] and [strings.ToUpper] on ASCII text: the letters
    [A-Z] and [a-z] are mapped to each other and every other byte is kept.
    (On text outside ASCII Go applies the Unicode case tables; the
    plugin below is therefore stated over an arbitrary pair of case
    mappings, and this pair is the one used on ASCII inputs.) *)
Definition lowerByte (c : ascii) : ascii :=
  let n := nat_of_ascii c in
  if (65 <=? n)%nat && (n <=? 90)%nat then ascii_of_nat (n + 32) else c.

Definition upperByte (c : ascii) : ascii :=
  let n := nat_of_ascii c in
  if (97 <=? n)%nat && (n <=? 122)%nat then ascii_of_nat (n - 32) else c.

Fixpoint mapBytes (f : ascii -> ascii) (s : string) : string :=
  match s with
  | EmptyString => EmptyString
  | String c s' => String (f c) (mapBytes f s')
  end.

Definition ToLower : string -> string := mapBytes lowerByte.
Definition ToUpper : string -> string := mapBytes upperByte.

(** [strings.IndexByte(s, c) >= 0]: the byte [c] occurs in [s]. *)
Fixpoint hasByte (c : ascii) (s : string) : bool :=
  match s with
  | EmptyString => false
  | String b s' => if Ascii.eqb b c then true else hasByte c s'
  end.

End strings.


(** * Package [encoding/json], as far as the router needs it *)

Module json.

(** Bytes by their code: 34 is the double quote, 92 the backslash. *)
Definition code (c : ascii) : nat := nat_of_ascii c.

(** [isSpace]: the white space of JSON. *)
Definition isSpace (c : ascii) : bool :=
  (code c =? 32)%nat || (code c =? 9)%nat || (code c =? 13)%nat || (code c =? 10)%nat.

Fixpoint skipSpace (s : string) : string :=
  match s with
  | String c rest => if isSpace c then skipSpace rest else s
  | EmptyString => s
  end.

Definition isDigit (c : ascii) : bool := (48 <=? code c)%nat && (code c <=? 57)%nat.

Definition isHex (c : ascii) : bool :=
  isDigit c
  || ((97 <=? code c)%nat && (code c <=? 102)%nat)
  || ((65 <=? code c)%nat && (code c <=? 70)%nat).

Fixpoint skipDigits (s : string) : string :=
  match s with
  | String c rest => if isDigit c then skipDigits rest else s
  | EmptyString => s
  end.

(** One digit or more; what follows them. *)
Definition digits (s : string) : option string :=
  match s with
  | String c rest => if isDigit c then Some (skipDigits rest) else None
  | EmptyString => None
  end.

(** The optional fraction and the optional exponent of a number. *)
Definition fraction (s : string) : option string :=
  match s with
  | String "." rest => digits rest
  | _ => Some s
  end.

Definition exponent (s : string) : option string :=
  match s with
  | String c rest =>
      if (code c =? 101)%nat || (code c =? 69)%nat then
        match rest with
        | String "+" rest' => digits rest'
        | String "-" rest' => digits rest'
        | _ => digits rest
        end
      else Some s
  | EmptyString => Some s
  end.

(** A number: an optional minus, then [0] or a digit from 1 to 9 followed
    by digits, then the fraction and the exponent. *)
Definition number (s : string) : option string :=
  let unsigned := match s with String "-" rest => rest | _ => s end in
  match unsigned with
  | String c rest =>
      if (code c =? 48)%nat then
        match fraction rest with Some r => exponent r | None => None end
      else if isDigit c then
        match fraction (skipDigits rest) with Some r => exponent r | None => None end
      else None
  | EmptyString => None
  end.

(** A string after its opening quote: any bytes from 32 on, the two-byte
    escapes and [\u] with four hexadecimal digits, up to the closing
    quote. *)
Fixpoint stringBody (s : string) : option string :=
  match s with
  | EmptyString => None
  | String c rest =>
      if (code c =? 34)%nat then Some rest
      else if (code c =? 92)%nat then
        match rest with
        | String e rest' =>
            if (code e =? 34)%nat || (code e =? 92)%nat || (code e =? 47)%nat
               || (code e =? 98)%nat || (code e =? 102)%nat || (code e =? 110)%nat
               || (code e =? 114)%nat || (code e =? 116)%nat
            then stringBody rest'
            else if (code e =? 117)%nat then
              match rest' with
              | String h1 (String h2 (String h3 (String h4 rest''))) =>
                  if isHex h1 && isHex h2 && isHex h3 && isHex h4
                  then stringBody rest'' else None
              | _ => None
              end
            else None
        | EmptyString => None
        end
      else if (code c <? 32)%nat then None
      else stringBody rest
  end.

(** [stripPrefix p s]: [s] without its prefix [p]. *)
Fixpoint stripPrefix (p s : string) : option string :=
  match p, s with
  | EmptyString, _ => Some s
  | String a p', String b s' => if Ascii.eqb a b then stripPrefix p' s' else None
  | _, EmptyString => None
  end.

(** What the scanner is reading: a value; the rest of an array after one
    of its elements; the members of an object from a member on. *)
Inductive Mode := Value | Elements | Members.

(** The scanner: what follows the text read, or [None] when the text is
    malformed.  [fuel] bounds the depth of the recursion; every level reads
    a byte at least. *)
Fixpoint scan (fuel : nat) (mode : Mode) (s : string) : option string :=
  match fuel with
  | O => None
  | S fuel =>
      match mode with
      | Value =>
          match skipSpace s with
          | EmptyString => None
          | String c rest =>
              if (code c =? 123)%nat then
                match skipSpace rest with
                | EmptyString => None
                | String c' rest' =>
                    if (code c' =? 125)%nat then Some rest'
                    else scan fuel Members rest
                end
              else if (code c =? 91)%nat then
                match skipSpace rest with
                | EmptyString => None
                | String c' rest' =>
                    if (code c' =? 93)%nat then Some rest'
                    else match scan fuel Value rest with
                         | Some r => scan fuel Elements r
                         | None => None
                         end
                end
              else if (code c =? 34)%nat then stringBody rest
              else if (code c =? 45)%nat || isDigit c then number (String c rest)
              else if (code c =? 116)%nat then stripPrefix "true" (String c rest)
              else if (code c =? 102)%nat then stripPrefix "false" (String c rest)
              else if (code c =? 110)%nat then stripPrefix "null" (String c rest)
              else None
          end
      | Elements =>
          match skipSpace s with
          | EmptyString => None
          | String c rest =>
              if (code c =? 44)%nat then
                match scan fuel Value rest with
                | Some r => scan fuel Elements r
                | None => None
                end
              else if (code c =? 93)%nat then Some rest
              else None
          end
      | Members =>
          match skipSpace s with
          | EmptyString => None
          | String c rest =>
              if (code c =? 34)%nat then
                match stringBody rest with
                | None => None
                | Some afterKey =>
                    match skipSpace afterKey with
                    | EmptyString => None
                    | String colon afterColon =>
                        if (code colon =? 58)%nat then
                          match scan fuel Value afterColon with
                          | None => None
                          | Some afterValue =>
                              match skipSpace afterValue with
                              | EmptyString => None
                              | String c' rest' =>
                                  if (code c' =? 44)%nat then scan fuel Members rest'
                                  else if (code c' =? 125)%nat then Some rest'
                                  else None
                              end
                          end
                        else None
                    end
                end
              else None
          end
      end
  end.

(** [json.Valid]: the text is one JSON value between white space. *)
Definition Valid (data : string) : bool :=
  match scan (2 * String.length data + 2) Value data with
  | Some rest => match skipSpace rest with EmptyString => true | _ => false end
  | None => false
  end.

(** The kind of the value of a valid text, read off its first byte, under
    the name [UnmarshalTypeError] gives it. *)
Inductive Kind := Object | Array | Text | Number | Bool | Null.

Definition kindOf (data : string) : option Kind :=
  match skipSpace data with
  | EmptyString => None
  | String c _ =>
      if (code c =? 123)%nat then Some Object
      else if (code c =? 91)%nat then Some Array
      else if (code c =? 34)%nat then Some Text
      else if (code c =? 45)%nat || isDigit c then Some Number
      else if (code c =? 116)%nat || (code c =? 102)%nat then Some Bool
      else if (code c =? 110)%nat then Some Null
      else None
  end.

Definition kindName (k : Kind) : string :=
  match k with
  | Object => "object"
  | Array => "array"
  | Text => "string"
  | Number => "number"
  | Bool => "bool"
  | Null => "null"
  end.

(** [json.Unmarshal(data, &v)] for [v] of a struct type [typeName] without
    an unmarshalling method of its own.  A malformed text is a syntax
    error; a JSON object is decoded member by member ([decodeObject]); the
    JSON null leaves [v] as it is; any other value is not fit for a struct
    and gives the [UnmarshalTypeError] "json: cannot unmarshal <kind> into
    Go value of type <typeName>". *)
Definition Unmarshal_struct {A : Type} (typeName : string) (v : A)
    (syntaxError : string -> string) (decodeObject : string -> A + string)
    (data : string) : A + string :=
  if Valid data then
    match kindOf data with
    | Some Object => decodeObject data
    | Some Null => inl v
    | Some k =>
        inr ("json: cannot unmarshal " +:+ kindName k
             +:+ " into Go value of type " +:+ typeName)
    | None => inr (syntaxError data)
    end
  else inr (syntaxError data).

(** The double quote, to write JSON texts with. *)
Definition quote : string := String (ascii_of_nat 34) EmptyString.

End json.

(** ** Package [plugin]: the types shared by the plugins *)

Module plugin.

(** [plugin.WoxImage]. *)
Record WoxImage := { ImageType : string; ImageData : string }.

Definition NewWoxImageSvg (svg : string) : WoxImage :=
  {| ImageType := "svg"; ImageData := svg |}.

(** [plugin.Query]; only the raw text is read by the code below. *)
Record Query := { RawQuery : string }.

(** [plugin.QueryResultAction].  The Go field [Action] is a closure; it is
    kept as a value of type [F] that records what the closure captured,
    and each plugin gives the meaning of its closures. *)
Record QueryResultAction (F : Type) := {
  Name : string;
  ActionIcon : WoxImage;
  PreventHideAfterAction : bool;
  Action : F
}.
Arguments Name {F}.
Arguments ActionIcon {F}.
Arguments PreventHideAfterAction {F}.
Arguments Action {F}.

(** [plugin.WoxPreview]. *)
Record WoxPreview := {
  PreviewType : string;
  PreviewData : string;
  ScrollPosition : string
}.

(** [plugin.QueryResult]; [Score] and [GroupScore] are [int64]. *)
Record QueryResult (F : Type) := {
  Id : string;
  Title : string;
  SubTitle : string;
  Icon : WoxImage;
  Preview : WoxPreview;
  Score : Z;
  Group : string;
  GroupScore : Z;
  ContextData : string;
  Actions : list (QueryResultAction F)
}.
Arguments Id {F}.
Arguments Title {F}.
Arguments SubTitle {F}.
Arguments Icon {F}.
Arguments Preview {F}.
Arguments Score {F}.
Arguments Group {F}.
Arguments GroupScore {F}.
Arguments ContextData {F}.
Arguments Actions {F}.

(** The zero values of Go. *)
Definition zeroImage : WoxImage := {| ImageType := ""; ImageData := "" |}.
Definition zeroPreview : WoxPreview :=
  {| PreviewType := ""; PreviewData := ""; ScrollPosition := "" |}.



End plugin.

(** ** Package [system]: the web-search plugin *)

Module system.
Import plugin.

(** [type webSearch struct]. *)
Record webSearch := {
  Urls : list string;
  Title : string;
  Keyword : string;
  IsFallback : bool;
  Icon : WoxImage;
  Enabled : bool
}.

(** [type WebSearchPlugin struct]; the [api] field is represented by the
    events the methods emit. *)
Record WebSearchPlugin := { webSearches : list webSearch }.

(** What the closure stored in the [Action] field of a result captured:
    the entry's [Urls] and the query text. *)
Record SearchClosure := { capturedUrls : list string; capturedQuery : string }.

(** Calls observed on collaborators. *)
Inductive Event :=
| GetWebsiteIcon (url : string)
| LogError (msg : string).

(** [slices.Sort] on [[]string]: ascending in the byte-wise order of Go
    strings.  The order is total and antisymmetric, so the sorted slice is
    determined by the contents (see [slices_Sort_unique]), whatever the
    sorting algorithm. *)
Definition slices_Sort (l : list string) : list string :=
  merge_sort String.le l.

Section WebSearch.
(** [strings.ToLower], [strings.ToUpper]. *)
Variables ToLower ToUpper : string -> string.
(** The markup of the default icon (a long SVG literal in the source). *)
Variable webSearchIconSvg : string.
(** [getWebsiteIconWithCache], defined elsewhere in the package: the
    icon of a site, or an error message. *)
Variable getWebsiteIconWithCache : string -> WoxImage + string.

Definition webSearchIcon : WoxImage := NewWoxImageSvg webSearchIconSvg.

Definition replaceVariables (text query : string) : string :=
  let result := strings.ReplaceAll text "{query}" query in
  let result := strings.ReplaceAll result "{lower_query}" (ToLower query) in
  let result := strings.ReplaceAll result "{upper_query}" (ToUpper query) in
  result.

(** What running a captured [Action] does: the arguments of the
    successive [util.ShellOpen] calls. *)
Definition runAction (c : SearchClosure) : list string :=
  map (fun url => replaceVariables url (capturedQuery c)) (capturedUrls c).

(** The [plugin.QueryResult] literal appended by the loops of [Query]
    (with [otherQuery]) and of [QueryFallback] (with [query.RawQuery]);
    the fields not listed in the literal have Go's zero value. *)
Definition searchResult (search : webSearch) (queryText : string)
  : QueryResult SearchClosure :=
  {| Id := "";
     plugin.Title := replaceVariables (Title search) queryText;
     SubTitle := "";
     plugin.Icon := Icon search;
     Preview := zeroPreview;
     Score := 100;
     Group := "";
     GroupScore := 0;
     ContextData := "";
     Actions :=
       [ {| Name := "Search";
            ActionIcon := zeroImage;
            PreventHideAfterAction := false;
            Action := {| capturedUrls := Urls search;
                         capturedQuery := queryText |} |} ] |}.

(** [func (r *WebSearchPlugin) Query]. *)
Definition Query (r : WebSearchPlugin) (query : plugin.Query)
  : list (QueryResult SearchClosure) :=
  let queries := strings.Split (RawQuery query) " " in
  if (length queries <=? 1)%nat then []
  else
    let triggerKeyword := hd "" queries in
    let otherQuery := strings.Join (tl queries) " " in
    fold_left
      (fun results search =>
         if IsFallback search || negb (Enabled search) then results
         else if String.eqb (ToLower (Keyword search)) (ToLower triggerKeyword)
              then results ++ [searchResult search otherQuery]
              else results)
      (webSearches r) [].

(** [func (r *WebSearchPlugin) QueryFallback]. *)
Definition QueryFallback (r : WebSearchPlugin) (query : plugin.Query)
  : list (QueryResult SearchClosure) :=
  fold_left
    (fun results search =>
       if negb (Enabled search) then results
       else if negb (IsFallback search) then results
            else results ++ [searchResult search (RawQuery query)])
    (webSearches r) [].

(** [func (r *WebSearchPlugin) indexWebSearchIcon]: the icon and the
    calls made, or [None] when [search.Urls[0]] is out of range (the Go
    code panics).  (The sort is in place, on the array the caller's entry
    shares; the reordering of the entry's [Urls] is not part of the
    value returned here.) *)
Definition indexWebSearchIcon (search : webSearch)
  : option (WoxImage * list Event) :=
  match slices_Sort (Urls search) with
  | [] => None
  | url0 :: _ =>
      match getWebsiteIconWithCache url0 with
      | inr err =>
          Some (webSearchIcon,
                [GetWebsiteIcon url0;
                 LogError ("failed to get icon for " +:+ url0 +:+ ": " +:+ err)])
      | inl img => Some (img, [GetWebsiteIcon url0])
      end
  end.

(** The entries [Query] answers for a trigger keyword, and the entries
    [QueryFallback] answers for. *)
Definition answers (triggerKeyword : string) (search : webSearch) : bool :=
  Enabled search && negb (IsFallback search)
  && String.eqb (ToLower (Keyword search)) (ToLower triggerKeyword).

Definition isFallbackEntry (search : webSearch) : bool :=
  Enabled search && IsFallback search.

(** *** The replacement as the specification words it

    Every occurrence of the three place holders in the text itself is
    replaced, in one pass over the text. *)
Fixpoint placeholdersScan (query : string) (skip : nat) (s : string) : string :=
  match s with
  | EmptyString => EmptyString
  | String c s' =>
      match skip with
      | S k => placeholdersScan query k s'
      | O =>
          if strings.HasPrefix s "{query}"
          then query +:+ placeholdersScan query 6 s'
          else if strings.HasPrefix s "{lower_query}"
          then ToLower query +:+ placeholdersScan query 12 s'
          else if strings.HasPrefix s "{upper_query}"
          then ToUpper query +:+ placeholdersScan query 12 s'
          else String c (placeholdersScan query 0 s')
      end
  end.

Definition replaceVariables_stated (text query : string) : string :=
  placeholdersScan query 0 text.

(** [Query] as the specification words it: no result for at most one
    token; otherwise one result per enabled, non-fallback entry whose
    keyword matches the first token, titled by the one-pass replacement. *)
Definition Query_stated (r : WebSearchPlugin) (query : plugin.Query)
  : list (QueryResult SearchClosure) :=
  match strings.Split (RawQuery query) " " with
  | [] | [_] => []
  | first :: rest =>
      map (fun search =>
             let result := searchResult search (strings.Join rest " ") in
             {| Id := Id result;
                plugin.Title :=
                  replaceVariables_stated (Title search) (strings.Join rest " ");
                SubTitle := SubTitle result;
                plugin.Icon := plugin.Icon result;
                Preview := Preview result;
                Score := Score result;
                Group := Group result;
                GroupScore := GroupScore result;
                ContextData := ContextData result;
                Actions := Actions result |})
          (List.filter (answers first) (webSearches r))
  end.

End WebSearch.

(** *** Indexing the icons *)

Definition webSearchesSettingKey : string := "webSearches".

(** Calls made by [indexIcons]: those of [indexWebSearchIcon], and
    [r.api.SaveSetting]. *)
Inductive IndexCall :=
| IconCall (e : Event)
| SaveSetting (key value : string) (isPlatformSpecific : bool).

(** An entry without icon: [search.Icon.ImageType == ""]. *)
Definition iconless (search : webSearch) : bool :=
  String.eqb (ImageType (Icon search)) "".

Section IndexIcons.
Variable webSearchIconSvg : string.
Variable getWebsiteIconWithCache : string -> WoxImage + string.
(** [json.Marshal] of [r.webSearches]: text or error. *)
Variable Marshal_webSearches : list webSearch -> string + string.

(** The loop of [indexIcons] over [r.webSearches]: the entries after the
    loop, [hasAnyIconIndexed], and the calls made; [None] when
    [indexWebSearchIcon] panics.  [search] is a copy of the entry but its
    [Urls] is the same array, so the sort inside [indexWebSearchIcon]
    leaves the entry's own [Urls] sorted. *)
Fixpoint indexIconsLoop (searches : list webSearch)
  : option (list webSearch * bool * list Event) :=
  match searches with
  | [] => Some ([], false, [])
  | search :: rest =>
      if String.eqb (ImageType (Icon search)) "" then
        match indexWebSearchIcon webSearchIconSvg getWebsiteIconWithCache search with
        | None => None
        | Some (icon, calls) =>
            match indexIconsLoop rest with
            | None => None
            | Some (rest', _, calls') =>
                Some ({| Urls := slices_Sort (Urls search);
                         Title := Title search;
                         Keyword := Keyword search;
                         IsFallback := IsFallback search;
                         Icon := icon;
                         Enabled := Enabled search |} :: rest',
                      true, calls ++ calls')
            end
        end
      else
        match indexIconsLoop rest with
        | None => None
        | Some (rest', hasAnyIconIndexed, calls') =>
            Some (search :: rest', hasAnyIconIndexed, calls')
        end
  end.

(** [func (r *WebSearchPlugin) indexIcons]: the plugin afterwards and the
    calls made, or [None] on a panic. *)
Definition indexIcons (r : WebSearchPlugin) : option (WebSearchPlugin * list IndexCall) :=
  match indexIconsLoop (webSearches r) with
  | None => None
  | Some (searches, hasAnyIconIndexed, calls) =>
      let r' := {| webSearches := searches |} in
      if hasAnyIconIndexed then
        match Marshal_webSearches searches with
        | inl marshal =>
            Some (r', (IconCall <$> calls) ++ [SaveSetting webSearchesSettingKey marshal false])
        | inr _ => Some (r', IconCall <$> calls)
        end
      else Some (r', IconCall <$> calls)
  end.

End IndexIcons.

(** *** Entries to run the plugin on examples *)

Definition exampleSearch (title : string) (urls : list string) (icon : WoxImage)
  : webSearch :=
  {| Urls := urls; Title := title; Keyword := "g"; IsFallback := false;
     Icon := icon; Enabled := true |}.

Definition examplePng : WoxImage := {| ImageType := "png"; ImageData := "..." |}.

(** A marshaller that writes the titles, separated by commas. *)
Definition exampleMarshal (searches : list webSearch) : string + string :=
  inl (String.concat "," (Title <$> searches)).

End system.

(** ** Package [common]: chat data *)

Module common.

(** [common.Model]. *)
Record Model := { Name : string; Provider : string }.

(** [common.Conversation]. *)
Record Conversation := {
  ConversationId : string;
  Role : string;
  Text : string;
  Images : list plugin.WoxImage;
  Timestamp : Z
}.

(** [common.AIChatData]; [CreatedAt] and [UpdatedAt] are [int64]
    millisecond time stamps.  The Go field [Model] is [ChatModel] here,
    since the record type already has that name. *)
Record AIChatData := {
  Id : string;
  Title : string;
  Conversations : list Conversation;
  ChatModel : Model;
  CreatedAt : Z;
  UpdatedAt : Z
}.

(** [common.PlainQuery]. *)
Record PlainQuery := {
  QueryType : string;
  QueryText : string;
  QuerySelection : string
}.

End common.

(** ** [int64] arithmetic *)

Module int64.

Definition min : Z := - 2 ^ 63.
Definition max : Z := 2 ^ 63 - 1.

(** A mathematical integer reduced to the [int64] it is stored as. *)
Definition wrap (z : Z) : Z := (z + 2 ^ 63) mod 2 ^ 64 - 2 ^ 63.

(** Go's [-] on [int64]. *)
Definition sub (a b : Z) : Z := wrap (a - b).

Definition inRange (z : Z) : Prop := (min <= z <= max)%Z.

End int64.

(** ** Package [chat]: the AI-chat plugin *)

Module chat.
Import plugin common.

Definition aiChatsSettingKey : string := "ai_chats".

Inductive LogLevel := LogLevelInfo | LogLevelError.

(** Calls made on [r.api] and on the UI. *)
Inductive Call :=
| Log (level : LogLevel) (msg : string)
| SaveSetting (key value : string) (isPlatformSpecific : bool)
| ChangeQuery (q : PlainQuery).

(** What the closures stored in the [Action] fields captured. *)
Inductive ChatClosure :=
| FocusToChatInput
| DeleteChat (i : nat) (rawQuery : string)
| SummarizeChat.

(** What the plugin gets from outside its own file: the clock, the JSON
    codec, [uuid.NewString], the settings store, [sort.Slice] and a few
    constants of package [plugin]. *)
Record Deps := {
  (** [util.GetSystemTimestamp()], all readings taken at one instant *)
  GetSystemTimestamp : Z;
  (** the successive values of [uuid.NewString()] *)
  NewString : nat -> string;
  (** [json.Marshal] of one chat and of the chat list: text or error *)
  Marshal_chat : AIChatData -> string + string;
  Marshal_chats : list AIChatData -> string + string;
  (** [json.Unmarshal] into [[]common.AIChatData] and [common.Model] *)
  Unmarshal_chats : string -> list AIChatData + string;
  Unmarshal_model : string -> common.Model + string;
  (** [r.api.GetSetting] *)
  GetSetting : string -> string;
  (** [sort.Slice] with the given [less] *)
  sort_Slice : (AIChatData -> AIChatData -> bool) -> list AIChatData -> list AIChatData;
  aiChatIcon : WoxImage;
  TrashIcon : WoxImage;
  summarizeIcon : WoxImage;
  WoxPreviewTypeChat : string;
  WoxPreviewScrollPositionBottom : string;
  QueryTypeInput : string;
  emptySelection : string;
  ConversationRoleAI : string
}.

(** The receiver [r *AIChatPlugin], the number of UUIDs drawn so far and
    the calls made so far. *)
Record State := {
  chats : list AIChatData;
  resultChatIdMap : gmap string string;
  uuids : nat;
  calls : list Call
}.

(** *** A state monad for the methods *)

Definition M (A : Type) : Type := State -> A * State.

Definition ret {A} (a : A) : M A := fun s => (a, s).

Definition bind {A B} (m : M A) (k : A -> M B) : M B :=
  fun s => let '(a, s') := m s in k a s'.

Declare Scope chat_scope.
Delimit Scope chat_scope with chat.
Notation "x <- c1 ;; c2" := (bind c1 (fun x => c2))
  (at level 100, c1 at next level, right associativity) : chat_scope.
Notation "c1 ;; c2" := (bind c1 (fun _ => c2))
  (at level 100, right associativity) : chat_scope.
Local Open Scope chat_scope.

Definition call (c : Call) : M unit :=
  fun s => (tt, {| chats := chats s; resultChatIdMap := resultChatIdMap s;
                   uuids := uuids s; calls := calls s ++ [c] |}).

Definition getChats : M (list AIChatData) := fun s => (chats s, s).

Definition setChats (cs : list AIChatData) : M unit :=
  fun s => (tt, {| chats := cs; resultChatIdMap := resultChatIdMap s;
                   uuids := uuids s; calls := calls s |}).

(** [r.resultChatIdMap.Clear()] and [r.resultChatIdMap.Store]. *)
Definition clearResultChatIdMap : M unit :=
  fun s => (tt, {| chats := chats s; resultChatIdMap := ∅;
                   uuids := uuids s; calls := calls s |}).

Definition storeResultChatId (chatId resultId : string) : M unit :=
  fun s => (tt, {| chats := chats s;
                   resultChatIdMap := <[chatId := resultId]> (resultChatIdMap s);
                   uuids := uuids s; calls := calls s |}).

Section Plugin.
Variable d : Deps.

(** [uuid.NewString()]. *)
Definition uuid_NewString : M string :=
  fun s => (NewString d (uuids s),
            {| chats := chats s; resultChatIdMap := resultChatIdMap s;
               uuids := S (uuids s); calls := calls s |}).


(** [func (r *AIChatPlugin) loadChats]: the chats and the error. *)
Definition loadChats : list AIChatData * option string :=
  let chatsJson := GetSetting d aiChatsSettingKey in
  if String.eqb chatsJson "" then ([], None)
  else
    match Unmarshal_chats d chatsJson with
    | inr err => ([], Some err)
    | inl chats =>
        (sort_Slice d (fun ci cj => (UpdatedAt cj <? UpdatedAt ci)%Z) chats, None)
    end.

(** [func (r *AIChatPlugin) saveChats]. *)
Definition saveChats : M unit :=
  cs <- getChats ;;
  match Marshal_chats d cs with
  | inr err => call (Log LogLevelError ("Failed to marshal chats: " +:+ err))
  | inl chatsJson => call (SaveSetting aiChatsSettingKey chatsJson false)
  end.

(** [func (r *AIChatPlugin) getDefaultModel]. *)
Definition getDefaultModel : M common.Model :=
  let model := GetSetting d "default_model" in
  let lastChatModel : M common.Model :=
    cs <- getChats ;;
    match cs with
    | lastChat :: _ =>
        ret {| common.Name := common.Name (ChatModel lastChat);
               Provider := Provider (ChatModel lastChat) |}
    | [] => ret {| common.Name := ""; Provider := "" |}
    end in
  if negb (String.eqb model "") then
    match Unmarshal_model d model with
    | inl m => ret m
    | inr err =>
        call (Log LogLevelError ("Failed to unmarshal default model: " +:+ err)) ;;
        lastChatModel
    end
  else lastChatModel.

(** Go's zero [plugin.QueryResult]. *)
Definition zeroResult : QueryResult ChatClosure :=
  {| plugin.Id := ""; plugin.Title := ""; SubTitle := ""; Icon := zeroImage;
     Preview := zeroPreview; Score := 0; Group := ""; GroupScore := 0;
     ContextData := ""; Actions := [] |}.

(** [func (r *AIChatPlugin) getNewChatPreviewData]. *)
Definition getNewChatPreviewData : M (QueryResult ChatClosure) :=
  chatId <- uuid_NewString ;;
  model <- getDefaultModel ;;
  let chatData :=
    {| common.Id := chatId; common.Title := "";
       Conversations := []; ChatModel := model;
       CreatedAt := GetSystemTimestamp d;
       UpdatedAt := GetSystemTimestamp d |} in
  match Marshal_chat d chatData with
  | inr err =>
      call (Log LogLevelError ("Failed to marshal chat preview data: " +:+ err)) ;;
      ret zeroResult
  | inl previewData =>
      resultId <- uuid_NewString ;;
      storeResultChatId (common.Id chatData) resultId ;;
      ret {| plugin.Id := resultId;
             plugin.Title := "New Chat";
             SubTitle := "Create a new chat";
             Icon := aiChatIcon d;
             ContextData := common.Id chatData;
             Preview := {| PreviewType := WoxPreviewTypeChat d;
                           PreviewData := previewData;
                           ScrollPosition := WoxPreviewScrollPositionBottom d |};
             Actions := [ {| plugin.Name := "Start Chat";
                             ActionIcon := zeroImage;
                             PreventHideAfterAction := true;
                             Action := FocusToChatInput |} ];
             Score := 0;
             Group := "New Chat";
             GroupScore := 1000 |}
  end.

(** [func (c *AIChatPlugin) getResultGroup]; the subtraction is on
    [int64]. *)
Definition getResultGroup (chat : AIChatData) : string * Z :=
  if (int64.sub (GetSystemTimestamp d) (UpdatedAt chat) <? 1000*60*60*24)%Z
  then ("Today", 90%Z)
  else if (int64.sub (GetSystemTimestamp d) (UpdatedAt chat) <? 1000*60*60*24*2)%Z
  then ("Yesterday", 80%Z)
  else ("History", 10%Z).

(** The body of [for i, chat := range r.chats] in [Query], from index
    [i] on.  Each iteration has its own [i] and [chat] (the loop-variable
    semantics of Go 1.22 and later), so each closure captures the index of
    the chat its result is built for. *)
Fixpoint queryLoop (query : plugin.Query) (i : nat) (cs : list AIChatData)
  (results : list (QueryResult ChatClosure)) : M (list (QueryResult ChatClosure)) :=
  match cs with
  | [] => ret results
  | chat :: rest =>
      match Marshal_chat d chat with
      | inr err =>
          call (Log LogLevelError
                  ("Failed to marshal chat preview data: " +:+ err)) ;;
          queryLoop query (S i) rest results
      | inl previewData =>
          resultId <- uuid_NewString ;;
          storeResultChatId (common.Id chat) resultId ;;
          let continueChatText :=
            if (length (Conversations chat) =? 0)%nat
            then "Start Chat" else "Continue Chat" in
          let '(group, groupScore) := getResultGroup chat in
          queryLoop query (S i) rest
            (results ++
             [ {| plugin.Id := resultId;
                  plugin.Title := common.Title chat;
                  SubTitle := "";
                  Icon := aiChatIcon d;
                  ContextData := common.Id chat;
                  Preview := {| PreviewType := WoxPreviewTypeChat d;
                                PreviewData := previewData;
                                ScrollPosition := WoxPreviewScrollPositionBottom d |};
                  Actions :=
                    [ {| plugin.Name := continueChatText;
                         ActionIcon := zeroImage;
                         PreventHideAfterAction := true;
                         Action := FocusToChatInput |};
                      {| plugin.Name := "Delete Chat";
                         ActionIcon := TrashIcon d;
                         PreventHideAfterAction := true;
                         Action := DeleteChat i (RawQuery query) |};
                      {| plugin.Name := "Summarize Chat";
                         ActionIcon := summarizeIcon d;
                         PreventHideAfterAction := true;
                         Action := SummarizeChat |} ];
                  Score := 0;
                  Group := group;
                  GroupScore := groupScore |} ])
      end
  end.

(** [func (r *AIChatPlugin) Query]. *)
Definition Query (query : plugin.Query) : M (list (QueryResult ChatClosure)) :=
  clearResultChatIdMap ;;
  newChat <- getNewChatPreviewData ;;
  cs <- getChats ;;
  queryLoop query 0 cs ([] ++ [newChat]).

(** The body of the [Delete Chat] closure that captured [i] and
    [query.RawQuery]: [None] when a slice bound is out of range (the Go
    code panics). *)
Definition deleteChatAction (i : nat) (rawQuery : string) : State -> option State :=
  fun s =>
    if (S i <=? length (chats s))%nat then
      Some (snd ((setChats (take i (chats s) ++ drop (S i) (chats s)) ;;
                  saveChats ;;
                  call (ChangeQuery {| QueryType := QueryTypeInput d;
                                       QueryText := rawQuery;
                                       QuerySelection := emptySelection d |})) s))
    else None.

(** The loop of [Chat] that looks for the chat by id:
    [r.chats[i] = aiChatData] at the first chat with this id, or [None]
    when there is none ([found] stays [false]). *)
Fixpoint replaceChat (aiChatData : AIChatData) (cs : list AIChatData)
  : option (list AIChatData) :=
  match cs with
  | [] => None
  | chat :: rest =>
      if String.eqb (common.Id chat) (common.Id aiChatData)
      then Some (aiChatData :: rest)
      else cons chat <$> replaceChat aiChatData rest
  end.

(** The first part of [func (r *AIChatPlugin) Chat], up to
    [r.saveChats(ctx)]: the conversation for the answer is appended and the
    chat is stored in [r.chats].  (The summary and the AI stream that follow
    are outside this embedding.) *)
Definition Chat_store (aiChatData : AIChatData) : M unit :=
  currentResponseConversationId <- uuid_NewString ;;
  let aiChatData :=
    {| common.Id := common.Id aiChatData;
       common.Title := common.Title aiChatData;
       Conversations :=
         Conversations aiChatData
         ++ [ {| ConversationId := currentResponseConversationId;
                 Role := ConversationRoleAI d;
                 Text := "";
                 Images := [];
                 Timestamp := GetSystemTimestamp d |} ];
       ChatModel := ChatModel aiChatData;
       CreatedAt := CreatedAt aiChatData;
       UpdatedAt := UpdatedAt aiChatData |} in
  cs <- getChats ;;
  match replaceChat aiChatData cs with
  | Some cs' => setChats cs'
  | None =>
      setChats (sort_Slice d (fun ci cj => (UpdatedAt cj <? UpdatedAt ci)%Z)
                  (cs ++ [aiChatData]))
  end ;;
  saveChats.

End Plugin.

(** The chat that [Chat] stores: [aiChatData] with one more conversation,
    the still empty answer of the AI, whose id is the [n]-th UUID. *)
Definition withResponseConversation (d : Deps) (n : nat) (aiChatData : AIChatData)
  : AIChatData :=
  {| common.Id := common.Id aiChatData;
     common.Title := common.Title aiChatData;
     Conversations :=
       Conversations aiChatData
       ++ [ {| ConversationId := NewString d n;
               Role := ConversationRoleAI d;
               Text := "";
               Images := [];
               Timestamp := GetSystemTimestamp d |} ];
     ChatModel := ChatModel aiChatData;
     CreatedAt := CreatedAt aiChatData;
     UpdatedAt := UpdatedAt aiChatData |}.

(** What [saveChats] calls for the chats [cs]. *)
Definition saveCall (d : Deps) (cs : list AIChatData) : Call :=
  match Marshal_chats d cs with
  | inl chatsJson => SaveSetting aiChatsSettingKey chatsJson false
  | inr err => Log LogLevelError ("Failed to marshal chats: " +:+ err)
  end.

(** *** Summarizing a chat *)

(** [common.ChatStreamDataType]: the three values the plugin tests for,
    and any other. *)
Inductive ChatStreamDataType :=
| ChatStreamTypeStreaming
| ChatStreamTypeFinished
| ChatStreamTypeError
| ChatStreamTypeOther.

(** Calls made on the UI by the stream callback:
    [UpdateResult(UpdateableResult{Id, Title})]. *)
Inductive UICall :=
| UpdateResult (id title : string).

(** [for i := range r.chats { if r.chats[i].Id == chat.Id
    { r.chats[i].Title = title; break } }]. *)
Fixpoint setTitle (chatId title : string) (cs : list AIChatData) : list AIChatData :=
  match cs with
  | [] => []
  | c :: rest =>
      if String.eqb (common.Id c) chatId
      then {| common.Id := common.Id c; common.Title := title;
              Conversations := Conversations c; ChatModel := ChatModel c;
              CreatedAt := CreatedAt c; UpdatedAt := UpdatedAt c |} :: rest
      else c :: setTitle chatId title rest
  end.

(** What the callback of [summarizeChat] works on: its captured variable
    [title], the plugin, and the UI calls made so far. *)
Record SummaryRun := {
  title : string;
  pluginState : State;
  uiCalls : list UICall
}.

Section Summarize.
Variable d : Deps.
(** [common.ConversationRoleUser] and the text of the summary request (a
    long literal in the source). *)
Variable ConversationRoleUser : string.
Variable summaryPrompt : string.
(** [r.api.AIChatStream]: the chunks it hands to the callback, in order,
    for a model and its conversations. *)
Variable AIChatStream :
  common.Model -> list Conversation -> list (ChatStreamDataType * string).

(** The callback [func(t common.ChatStreamDataType, data string)] of
    [summarizeChat], for one chunk. *)
Definition summarizeCallback (chat : AIChatData) (run : SummaryRun)
    (t : ChatStreamDataType) (data : string) : SummaryRun :=
  let s1 := snd (call (Log LogLevelInfo ("chat stream data: " +:+ data)) (pluginState run)) in
  match t with
  | ChatStreamTypeStreaming =>
      {| title := title run +:+ data; pluginState := s1; uiCalls := uiCalls run |}
  | ChatStreamTypeFinished =>
      let title' := title run +:+ data in
      let s2 :=
        snd ((call (Log LogLevelInfo ("Summarized chat title: " +:+ title')) ;;
              cs <- getChats ;;
              setChats (setTitle (common.Id chat) title' cs) ;;
              saveChats d) s1) in
      {| title := title';
         pluginState := s2;
         uiCalls :=
           uiCalls run
           ++ match resultChatIdMap s2 !! common.Id chat with
              | Some resultId => [UpdateResult resultId title']
              | None => []
              end |}
  | _ => {| title := title run; pluginState := s1; uiCalls := uiCalls run |}
  end.

(** The callback run on the chunks of a stream, in order. *)
Definition runCallbacks (chat : AIChatData)
    (chunks : list (ChatStreamDataType * string)) (run : SummaryRun) : SummaryRun :=
  fold_left (fun run chunk => summarizeCallback chat run (fst chunk) (snd chunk))
    chunks run.

(** [func (r *AIChatPlugin) summarizeChat], once the stream has handed all
    its chunks to the callback (nothing else touching the plugin in
    between). *)
Definition summarizeChat (chat : AIChatData) (s : State) : SummaryRun :=
  let '(conversations, s1) :=
    (call (Log LogLevelInfo ("Summarizing chat: " +:+ common.Id chat)) ;;
     id <- uuid_NewString d ;;
     ret (Conversations chat
          ++ [ {| ConversationId := id;
                  Role := ConversationRoleUser;
                  Text := summaryPrompt;
                  Images := [];
                  Timestamp := GetSystemTimestamp d |} ])) s in
  runCallbacks chat (AIChatStream (ChatModel chat) conversations)
    {| title := ""; pluginState := s1; uiCalls := [] |}.

End Summarize.

(** The conversations [summarizeChat] sends: those of the chat and the
    request for a title, whose id is the [n]-th UUID. *)
Definition summaryRequest (d : Deps) (ConversationRoleUser summaryPrompt : string)
    (n : nat) (chat : AIChatData) : list Conversation :=
  Conversations chat
  ++ [ {| ConversationId := NewString d n;
          Role := ConversationRoleUser;
          Text := summaryPrompt;
          Images := [];
          Timestamp := GetSystemTimestamp d |} ].

(** The chunks that carry text of the title, the chunks that end an answer,
    and the text of all the chunks of a stream. *)
Definition isText (chunk : ChatStreamDataType * string) : bool :=
  match fst chunk with
  | ChatStreamTypeStreaming | ChatStreamTypeFinished => true
  | _ => false
  end.

Definition isFinished (chunk : ChatStreamDataType * string) : bool :=
  match fst chunk with
  | ChatStreamTypeFinished => true
  | _ => false
  end.

Definition titleText (chunks : list (ChatStreamDataType * string)) : string :=
  foldr String.append "" (snd <$> List.filter isText chunks).

(** A chat with another title. *)
Definition withTitle (title : string) (c : AIChatData) : AIChatData :=
  {| common.Id := common.Id c; common.Title := title;
     Conversations := Conversations c; ChatModel := ChatModel c;
     CreatedAt := CreatedAt c; UpdatedAt := UpdatedAt c |}.

Definition isInfoLog (c : Call) : Prop := exists msg, c = Log LogLevelInfo msg.

(** *** What is assumed of the collaborators *)

(** The requirement of [sort.Slice] on [less]: a strict weak ordering. *)
Definition strictWeakOrder {A} (less : A -> A -> bool) : Prop :=
  (forall a, less a a = false)
  /\ (forall a b c, less a b = true -> less b c = true -> less a c = true)
  /\ (forall a b c, less a b = false -> less b a = false ->
                    less b c = false -> less c b = false ->
                    less a c = false /\ less c a = false).

(** [a] may stand before [b] in a slice sorted by [less]. *)
Definition notAfter {A} (less : A -> A -> bool) (a b : A) : Prop := less b a = false.

#[global] Instance notAfter_dec {A} (less : A -> A -> bool) : RelDecision (notAfter less) :=
  fun a b => decide (less b a = false).

(** The contract of [sort.Slice]: the slice is permuted so that no element
    is [less] than one before it.  The order of elements that are
    equivalent under [less] is left open (the sort is not stable). *)
Definition sorts {A} (sort : (A -> A -> bool) -> list A -> list A) : Prop :=
  forall less l,
    strictWeakOrder less ->
    sort less l ≡ₚ l /\ Sorted (notAfter less) (sort less l).


(** The chats [Query] emits a result for: those that can be marshalled. *)
Definition marshals (d : Deps) (chat : AIChatData) : bool :=
  match Marshal_chat d chat with inl _ => true | inr _ => false end.

(** A computation that leaves [r.chats] as it is. *)
Definition keepsChats {A} (m : M A) : Prop :=
  forall s, chats (snd (m s)) = chats s.

(** A computation whose only calls are error logs. *)
Definition isErrorLog (c : Call) : Prop := exists msg, c = Log LogLevelError msg.

Definition onlyLogs {A} (m : M A) : Prop :=
  forall s, exists logs, calls (snd (m s)) = calls s ++ logs /\ Forall isErrorLog logs.

(** [r.chats] is in the order [loadChats] gives, and no two chats share an
    id. *)
Definition newestFirst (cs : list AIChatData) : Prop :=
  Sorted Z.ge (UpdatedAt <$> cs).

Definition distinctIds (cs : list AIChatData) : Prop :=
  NoDup (common.Id <$> cs).

(** *** A concrete environment, to run the plugin on examples

    The clock reads [now], the store holds the chats [stored] under
    [aiChatsSettingKey], a chat is marshalled to its id and a list of chats
    to the ids joined by commas, and [sort.Slice] is a merge sort. *)
Definition exampleDeps (now : Z) (stored : list AIChatData) : Deps :=
  {| GetSystemTimestamp := now;
     NewString := fun n => "uuid-" +:+ pretty n;
     Marshal_chat := fun c => inl (common.Id c);
     Marshal_chats := fun cs => inl (String.concat "," (common.Id <$> cs));
     Unmarshal_chats := fun _ => inl stored;
     Unmarshal_model := fun _ => inr "no model";
     GetSetting := fun key => if String.eqb key aiChatsSettingKey then "[...]" else "";
     sort_Slice := fun less => merge_sort (notAfter less);
     aiChatIcon := zeroImage;
     TrashIcon := zeroImage;
     summarizeIcon := zeroImage;
     WoxPreviewTypeChat := "chat";
     WoxPreviewScrollPositionBottom := "bottom";
     QueryTypeInput := "input";
     emptySelection := "";
     ConversationRoleAI := "ai" |}.

Definition exampleChat (id : string) (updatedAt : Z) : AIChatData :=
  {| common.Id := id; common.Title := id; Conversations := [];
     ChatModel := {| common.Name := ""; Provider := "" |};
     CreatedAt := updatedAt; UpdatedAt := updatedAt |}.

Definition exampleState (cs : list AIChatData) : State :=
  {| chats := cs; resultChatIdMap := ∅; uuids := 0; calls := [] |}.

End chat.

(** ** Package [setting]: plugin settings and their JSON form *)

Module setting.

(** [setting.PluginSetting]: the fields read and written by the router
    and by [TestMarshalPluginSetting]; [CustomizedSettings] is a
    [util.HashMap[string, string]]. *)
Record PluginSetting := {
  Disabled : bool;
  TriggerKeywords : list string;
  CustomizedSettings : gmap string string
}.

(** A JSON document as [encoding/json] sees it after parsing. *)
#[warnings="-register-all"]
Inductive JSON :=
| JNull
| JBool (b : bool)
| JNumber (n : Z)
| JString (s : string)
| JArray (items : list JSON)
| JObject (fields : list (string * JSON)).

(** The member [name] of an object. *)
Fixpoint member (name : string) (fields : list (string * JSON)) : option JSON :=
  match fields with
  | [] => None
  | (k, v) :: rest => if String.eqb k name then Some v else member name rest
  end.

(** A string member of a struct being decoded: an absent member leaves
    Go's zero value, a member of another JSON type is an error. *)
Definition stringField (name : string) (fields : list (string * JSON)) : option string :=
  match member name fields with
  | None | Some JNull => Some ""
  | Some (JString s) => Some s
  | Some _ => None
  end.

(** The setting types named by [TestUnMarshalPluginSettingItem]. *)
Inductive PluginSettingType :=
| PluginSettingTypeHead
| PluginSettingTypeTextBox
| PluginSettingTypeCheckBox
| PluginSettingTypeSelect
| PluginSettingTypeNewLine
| PluginSettingTypeLabel.

Definition typeName (t : PluginSettingType) : string :=
  match t with
  | PluginSettingTypeHead => "head"
  | PluginSettingTypeTextBox => "textbox"
  | PluginSettingTypeCheckBox => "checkbox"
  | PluginSettingTypeSelect => "select"
  | PluginSettingTypeNewLine => "newline"
  | PluginSettingTypeLabel => "label"
  end.

Definition typeOfName (s : string) : option PluginSettingType :=
  if String.eqb s "head" then Some PluginSettingTypeHead
  else if String.eqb s "textbox" then Some PluginSettingTypeTextBox
  else if String.eqb s "checkbox" then Some PluginSettingTypeCheckBox
  else if String.eqb s "select" then Some PluginSettingTypeSelect
  else if String.eqb s "newline" then Some PluginSettingTypeNewLine
  else if String.eqb s "label" then Some PluginSettingTypeLabel
  else None.

Record PluginSettingValueSelectOption := { OptionLabel : string; OptionValue : string }.

(** The values behind the interface [PluginSettingValue], one shape per
    type, with the members the test document gives them. *)
Inductive PluginSettingValue :=
| PluginSettingValueHead (Content : string)
| PluginSettingValueTextBox (Key Value Label Suffix : string)
| PluginSettingValueCheckBox (Key Value Label : string)
| PluginSettingValueSelect (Key Value Label : string)
    (Options : list PluginSettingValueSelectOption)
| PluginSettingValueNewLine
| PluginSettingValueLabel (Content : string).

(** The Go field [Type] is [Type_] here ([Type] is reserved). *)
Record CustomizedPluginSetting := {
  Type_ : PluginSettingType;
  Value : PluginSettingValue
}.

(** [type CustomizedPluginSettings []CustomizedPluginSetting]. *)
Definition CustomizedPluginSettings := list CustomizedPluginSetting.

(** The key and the stored value of an item; the items that only
    decorate the form have none. *)
Definition GetKey (v : PluginSettingValue) : option string :=
  match v with
  | PluginSettingValueTextBox k _ _ _
  | PluginSettingValueCheckBox k _ _
  | PluginSettingValueSelect k _ _ _ => Some k
  | _ => None
  end.

Definition storedValue (v : PluginSettingValue) : string :=
  match v with
  | PluginSettingValueTextBox _ x _ _
  | PluginSettingValueCheckBox _ x _
  | PluginSettingValueSelect _ x _ _ => x
  | _ => ""
  end.

(** Modelled from the spec: [CustomizedPluginSettings.GetValue], known only
    through [TestUnMarshalPluginSettingItem]; it returns the stored value of
    the first item whose key is [key], and whether there is one. *)
Fixpoint GetValue (c : CustomizedPluginSettings) (key : string) : string * bool :=
  match c with
  | [] => ("", false)
  | item :: rest =>
      match GetKey (Value item) with
      | Some k => if String.eqb k key then (storedValue (Value item), true)
                  else GetValue rest key
      | None => GetValue rest key
      end
  end.

Definition decodeOption (j : JSON) : option PluginSettingValueSelectOption :=
  match j with
  | JObject fs =>
      l ← stringField "Label" fs;
      v ← stringField "Value" fs;
      Some {| OptionLabel := l; OptionValue := v |}
  | _ => None
  end.

Definition decodeOptions (fs : list (string * JSON))
  : option (list PluginSettingValueSelectOption) :=
  match member "Options" fs with
  | None | Some JNull => Some []
  | Some (JArray js) => mapM decodeOption js
  | Some _ => None
  end.

(** Modelled from the spec: [CustomizedPluginSetting.UnmarshalJSON], the
    decoder of one settings item, known only through
    [TestUnMarshalPluginSettingItem].  The member ["Type"] selects the shape
    into which the member ["Value"] is decoded; an unknown type is an
    error. *)
Definition UnmarshalItem (j : JSON) : option CustomizedPluginSetting :=
  match j with
  | JObject fs =>
      match member "Type" fs, member "Value" fs with
      | Some (JString tn), Some (JObject vs) =>
          t ← typeOfName tn;
          v ← match t with
              | PluginSettingTypeHead =>
                  PluginSettingValueHead <$> stringField "Content" vs
              | PluginSettingTypeTextBox =>
                  k ← stringField "Key" vs; x ← stringField "Value" vs;
                  l ← stringField "Label" vs; s ← stringField "Suffix" vs;
                  Some (PluginSettingValueTextBox k x l s)
              | PluginSettingTypeCheckBox =>
                  k ← stringField "Key" vs; x ← stringField "Value" vs;
                  l ← stringField "Label" vs;
                  Some (PluginSettingValueCheckBox k x l)
              | PluginSettingTypeSelect =>
                  k ← stringField "Key" vs; x ← stringField "Value" vs;
                  l ← stringField "Label" vs; os ← decodeOptions vs;
                  Some (PluginSettingValueSelect k x l os)
              | PluginSettingTypeNewLine => Some PluginSettingValueNewLine
              | PluginSettingTypeLabel =>
                  PluginSettingValueLabel <$> stringField "Content" vs
              end;
          Some {| Type_ := t; Value := v |}
      | _, _ => None
      end
  | _ => None
  end.

(** Modelled from the spec: [json.Unmarshal] into
    [CustomizedPluginSettings], item by item in document order. *)
Definition UnmarshalSettings (j : JSON) : option CustomizedPluginSettings :=
  match j with
  | JArray js => mapM UnmarshalItem js
  | _ => None
  end.

(** Modelled from the spec: [json.Marshal] of a [PluginSetting], with the
    codec of [util.HashMap], known only through [TestMarshalPluginSetting]:
    one member per field, the map as an object with one member per
    entry. *)
Definition MarshalPluginSetting (ps : PluginSetting) : JSON :=
  JObject
    [ ("Disabled", JBool (Disabled ps));
      ("TriggerKeywords", JArray (JString <$> TriggerKeywords ps));
      ("CustomizedSettings",
        JObject (prod_map id JString <$> map_to_list (CustomizedSettings ps))) ].

Definition decodeString (j : JSON) : option string :=
  match j with JString s => Some s | _ => None end.

Definition decodeEntry (kv : string * JSON) : option (string * string) :=
  pair kv.1 <$> decodeString kv.2.

(** Modelled from the spec: [json.Unmarshal] into a [PluginSetting], the
    inverse of the above. *)
Definition UnmarshalPluginSetting (j : JSON) : option PluginSetting :=
  match j with
  | JObject fs =>
      d ← match member "Disabled" fs with
          | None | Some JNull => Some false
          | Some (JBool b) => Some b
          | Some _ => None
          end;
      ks ← match member "TriggerKeywords" fs with
           | None | Some JNull => Some []
           | Some (JArray js) => mapM decodeString js
           | Some _ => None
           end;
      cs ← match member "CustomizedSettings" fs with
           | None | Some JNull => Some ∅
           | Some (JObject es) => list_to_map <$> mapM decodeEntry es
           | Some _ => None
           end;
      Some {| Disabled := d; TriggerKeywords := ks; CustomizedSettings := cs |}
  | _ => None
  end.

(** The document of [TestUnMarshalPluginSettingItem]. *)
Definition testSettingsDocument : JSON :=
  JArray
    [ JObject [ ("Type", JString "head");
                ("Value", JObject [ ("Content", JString "This is head title") ]) ];
      JObject [ ("Type", JString "textbox");
                ("Value", JObject [ ("Key", JString "IndexDirectories");
                                    ("Value", JString "test;test1");
                                    ("Label", JString "Index Directories: ");
                                    ("Suffix", JString " (separate by ';')") ]) ];
      JObject [ ("Type", JString "checkbox");
                ("Value", JObject [ ("Key", JString "OnlyIndexTxt");
                                    ("Value", JString "true");
                                    ("Label", JString ", Only Index Txt") ]) ];
      JObject [ ("Type", JString "select");
                ("Value", JObject [ ("Key", JString "IndexPrograms");
                                    ("Value", JString "true");
                                    ("Label", JString "Index Programs: ");
                                    ("Options",
                                      JArray [ JObject [ ("Label", JString "true");
                                                         ("Value", JString "true") ];
                                               JObject [ ("Label", JString "false");
                                                         ("Value", JString "false") ] ]) ]) ];
      JObject [ ("Type", JString "newline"); ("Value", JObject []) ];
      JObject [ ("Type", JString "label");
                ("Value", JObject [ ("Content", JString "IndexPrograms") ]) ] ].

End setting.


(** ** Package [ui]: the HTTP handlers of [router.go] *)

Module ui.
Import plugin.

(** The value behind a setting definition, an interface with [GetKey]. *)
Record PluginSettingDefinitionValue := { GetKey : string }.

(** [definition.PluginSettingDefinitionItem]; [Value] may be [nil]. *)
Record PluginSettingDefinitionItem := {
  DefinitionType : string;
  Value : option PluginSettingDefinitionValue;
  IsPlatformSpecific : bool
}.

(** [plugin.Metadata]: the fields the handlers read. *)
Record Metadata := {
  Id : string;
  Icon : string;
  SettingDefinitions : list PluginSettingDefinitionItem
}.

(** [plugin.Instance]; the Go field [Metadata] is [InstanceMetadata] here,
    since the record type already has that name. *)
Record Instance := {
  InstanceMetadata : Metadata;
  Setting : setting.PluginSetting;
  PluginDirectory : string
}.

(** Calls made on collaborators: [Instance.SaveSetting] (with the setting
    it persists), [Instance.API.SaveSetting] and [logger.Error]. *)
Inductive Call :=
| Instance_SaveSetting (pluginId : string) (s : setting.PluginSetting)
| API_SaveSetting (pluginId key value : string) (isPlatformSpecific : bool)
| logger_Error (msg : string).

(** The data of a success response. *)
Inductive Data :=
| DataString (s : string)
| DataImage (img : WoxImage).

(** What [writeSuccessResponse] and [writeErrorResponse] write. *)
Inductive Response :=
| Success (data : Data)
| Error (msg : string).

(** The plugin manager's instances and the calls made so far.
    [GetPluginInstances] returns one pointer per instance; an instance is
    identified by its position in the list, and a write through the pointer
    found by [lo.Find] is a write at that position. *)
Record World := {
  instances : list Instance;
  calls : list Call
}.

(** [lo.Find]: the first item satisfying the predicate, with its
    position from [start]. *)
Fixpoint lo_Find {A} (p : A -> bool) (start : nat) (l : list A) : option (nat * A) :=
  match l with
  | [] => None
  | x :: rest => if p x then Some (start, x) else lo_Find p (S start) rest
  end.

(** [type keyValuePair struct] of [handleSettingPluginUpdate]; the Go field
    [Value] is [Value_] here. *)
Record keyValuePair := { PluginId : string; Key : string; Value_ : string }.

Definition withDisabled (b : bool) (s : setting.PluginSetting) : setting.PluginSetting :=
  {| setting.Disabled := b;
     setting.TriggerKeywords := setting.TriggerKeywords s;
     setting.CustomizedSettings := setting.CustomizedSettings s |}.

Definition withTriggerKeywords (ks : list string) (s : setting.PluginSetting)
  : setting.PluginSetting :=
  {| setting.Disabled := setting.Disabled s;
     setting.TriggerKeywords := ks;
     setting.CustomizedSettings := setting.CustomizedSettings s |}.

Definition withSetting (s : setting.PluginSetting) (i : Instance) : Instance :=
  {| InstanceMetadata := InstanceMetadata i; Setting := s;
     PluginDirectory := PluginDirectory i |}.

(** The loop over [pluginInstance.Metadata.SettingDefinitions] in
    [handleSettingPluginUpdate], left at the first match. *)
Fixpoint isPlatformSpecificOf (key : string) (defs : list PluginSettingDefinitionItem) : bool :=
  match defs with
  | [] => false
  | settingDefinition :: rest =>
      match Value settingDefinition with
      | Some v =>
          if String.eqb (GetKey v) key then IsPlatformSpecific settingDefinition
          else isPlatformSpecificOf key rest
      | None => isPlatformSpecificOf key rest
      end
  end.

Section Handlers.
(** [gjson.GetBytes(body, path)]: the [String()] of the member when it
    [Exists()]. *)
Variable gjson_GetBytes : string -> string -> option string.
(** The error returned by [Instance.SaveSetting], if any. *)
Variable SaveSetting_error : Instance -> option string.
(** [json.NewDecoder(r.Body).Decode(&kv)]. *)
Variable Decode_keyValuePair : string -> keyValuePair + string.
(** [json.Unmarshal] into [common.PlainQuery]. *)
Variable Unmarshal_PlainQuery : string -> common.PlainQuery + string.
(** [plugin.GetPluginManager().NewQuery]: the query and the instance it is
    for ([nil] for a global query), or an error. *)
Variable NewQuery : common.PlainQuery -> (plugin.Query * option Instance) + string.
(** [common.ParseWoxImage] and [common.ConvertIcon]. *)
Variable ParseWoxImage : string -> WoxImage + string.
Variable ConvertIcon : WoxImage -> string -> WoxImage.

(** [func handlePluginDisable]. *)
Definition handlePluginDisable (body : string) (w : World) : Response * World :=
  match gjson_GetBytes body "id" with
  | None => (Error "id is empty", w)
  | Some pluginId =>
      match lo_Find (fun item => String.eqb (Id (InstanceMetadata item)) pluginId)
                    0 (instances w) with
      | None => (Error "can't find plugin", w)
      | Some (k, findPlugin) =>
          let findPlugin := withSetting (withDisabled true (Setting findPlugin)) findPlugin in
          let w' :=
            {| instances := <[k := findPlugin]> (instances w);
               calls := calls w ++ [Instance_SaveSetting (Id (InstanceMetadata findPlugin))
                                      (Setting findPlugin)] |} in
          match SaveSetting_error findPlugin with
          | Some err => (Error ("can't disable plugin: " +:+ err), w')
          | None => (Success (DataString ""), w')
          end
      end
  end.

(** [func handlePluginEnable]. *)
Definition handlePluginEnable (body : string) (w : World) : Response * World :=
  match gjson_GetBytes body "id" with
  | None => (Error "id is empty", w)
  | Some pluginId =>
      match lo_Find (fun item => String.eqb (Id (InstanceMetadata item)) pluginId)
                    0 (instances w) with
      | None => (Error "can't find plugin", w)
      | Some (k, findPlugin) =>
          let findPlugin := withSetting (withDisabled false (Setting findPlugin)) findPlugin in
          let w' :=
            {| instances := <[k := findPlugin]> (instances w);
               calls := calls w ++ [Instance_SaveSetting (Id (InstanceMetadata findPlugin))
                                      (Setting findPlugin)] |} in
          match SaveSetting_error findPlugin with
          | Some err => (Error ("can't enable plugin: " +:+ err), w')
          | None => (Success (DataString ""), w')
          end
      end
  end.

(** [func handleSettingPluginUpdate]. *)
Definition handleSettingPluginUpdate (body : string) (w : World) : Response * World :=
  match Decode_keyValuePair body with
  | inr err => (Error err, w)
  | inl kv =>
      match lo_Find (fun item => String.eqb (Id (InstanceMetadata item)) (PluginId kv))
                    0 (instances w) with
      | None => (Error "can't find plugin", w)
      | Some (k, pluginInstance) =>
          let pluginId := Id (InstanceMetadata pluginInstance) in
          if String.eqb (Key kv) "Disabled" then
            let s := withDisabled (String.eqb (Value_ kv) "true") (Setting pluginInstance) in
            (Success (DataString ""),
             {| instances := <[k := withSetting s pluginInstance]> (instances w);
                calls := calls w ++ [Instance_SaveSetting pluginId s] |})
          else if String.eqb (Key kv) "TriggerKeywords" then
            let s := withTriggerKeywords (strings.Split (Value_ kv) ",")
                       (Setting pluginInstance) in
            (Success (DataString ""),
             {| instances := <[k := withSetting s pluginInstance]> (instances w);
                calls := calls w ++ [Instance_SaveSetting pluginId s] |})
          else
            let isPlatformSpecific :=
              isPlatformSpecificOf (Key kv)
                (SettingDefinitions (InstanceMetadata pluginInstance)) in
            (Success (DataString ""),
             {| instances := instances w;
                calls := calls w ++ [API_SaveSetting pluginId (Key kv) (Value_ kv)
                                       isPlatformSpecific] |})
      end
  end.

Definition logged (c : Call) (w : World) : World :=
  {| instances := instances w; calls := calls w ++ [c] |}.

(** [func handleQueryIcon]. *)
Definition handleQueryIcon (body : string) (w : World) : Response * World :=
  match gjson_GetBytes body "query" with
  | None => (Error "query is empty", w)
  | Some queryResult =>
      match Unmarshal_PlainQuery queryResult with
      | inr unmarshalErr => (Error unmarshalErr, logged (logger_Error unmarshalErr) w)
      | inl plainQuery =>
          match NewQuery plainQuery with
          | inr err =>
              (Success (DataImage zeroImage),
               logged (logger_Error ("failed to new query: " +:+ err)) w)
          | inl (_, None) => (Success (DataImage zeroImage), w)
          | inl (_, Some pluginInstance) =>
              match ParseWoxImage (Icon (InstanceMetadata pluginInstance)) with
              | inr parseErr =>
                  (Success (DataImage zeroImage),
                   logged (logger_Error ("failed to parse icon: " +:+ parseErr)) w)
              | inl iconImg =>
                  (Success (DataImage
                              (ConvertIcon iconImg (PluginDirectory pluginInstance))), w)
              end
          end
      end
  end.

End Handlers.

(** *** Handlers over lists *)

(** What [writeSuccessResponse] and [writeErrorResponse] write, for
    handlers whose data is of type [A]. *)
Inductive Reply (A : Type) :=
| Ok (data : A)
| Fail (msg : string).
Arguments Ok {A}.
Arguments Fail {A}.

(** [setting.AIProvider]. *)
Record AIProvider := { Name : string; ApiKey : string; Host : string }.

Section ListHandlers.
(** [plugin.RunDoctorChecks]: the results, of which [Status] is read. *)
Variable DoctorCheckResult : Type.
Variable Status : DoctorCheckResult -> bool.
(** [ai.NewProvider] and [provider.Models]. *)
Variable Provider : Type.
Variable NewProvider : AIProvider -> Provider + string.
Variable Models : Provider -> list common.Model + string.
(** [dto.PluginDto] and [convertPluginInstanceToDto]. *)
Variable PluginDto : Type.
Variable convertPluginInstanceToDto : Instance -> PluginDto + string.

(** The loop of [handleDoctorCheck], left at the first failed check. *)
Fixpoint allPassedLoop (results : list DoctorCheckResult) : bool :=
  match results with
  | [] => true
  | result :: rest => if negb (Status result) then false else allPassedLoop rest
  end.

(** [func handleDoctorCheck], on the results of [plugin.RunDoctorChecks]. *)
Definition handleDoctorCheck (results : list DoctorCheckResult) : Reply bool :=
  Ok (allPassedLoop results).

(** The loop of [handleAIModels] over [woxSetting.AIProviders]: [results]
    and the errors logged. *)
Fixpoint aiModelsLoop (providers : list AIProvider) (results : list common.Model)
  : list common.Model * list Call :=
  match providers with
  | [] => (results, [])
  | providerSetting :: rest =>
      match NewProvider providerSetting with
      | inr err =>
          let '(results', calls) := aiModelsLoop rest results in
          (results', logger_Error ("failed to new ai provider: " +:+ err) :: calls)
      | inl provider =>
          match Models provider with
          | inr modelsErr =>
              let '(results', calls) := aiModelsLoop rest results in
              (results',
               logger_Error ("failed to get models for provider "
                             +:+ Name providerSetting +:+ ": " +:+ modelsErr) :: calls)
          | inl models => aiModelsLoop rest (fold_left (fun rs m => rs ++ [m]) models results)
          end
      end
  end.

(** [func handleAIModels], on [woxSetting.AIProviders]. *)
Definition handleAIModels (providers : list AIProvider)
  : Reply (list common.Model) * list Call :=
  let '(results, calls) := aiModelsLoop providers [] in (Ok results, calls).

(** The loop of [handlePluginInstalled], left at the first conversion
    that fails. *)
Fixpoint pluginInstalledLoop (instances : list Instance) (plugins : list PluginDto)
  : Reply (list PluginDto) :=
  match instances with
  | [] => Ok plugins
  | pluginInstance :: rest =>
      match convertPluginInstanceToDto pluginInstance with
      | inr err => Fail err
      | inl installedPlugin => pluginInstalledLoop rest (plugins ++ [installedPlugin])
      end
  end.

(** [func handlePluginInstalled]. *)
Definition handlePluginInstalled (w : World) : Reply (list PluginDto) :=
  pluginInstalledLoop (instances w) [].

End ListHandlers.

(** The two endpoints that set [Setting.Disabled], by the value they
    set. *)
Definition handlePluginToggle (gjson_GetBytes : string -> string -> option string)
    (SaveSetting_error : Instance -> option string) (disable : bool)
  : string -> World -> Response * World :=
  if disable then handlePluginDisable gjson_GetBytes SaveSetting_error
  else handlePluginEnable gjson_GetBytes SaveSetting_error.

(** The models [handleAIModels] gets for a provider setting: none when the
    provider cannot be made or cannot list its models. *)
Definition modelsOf {Provider : Type} (NewProvider : AIProvider -> Provider + string)
    (Models : Provider -> list common.Model + string) (providerSetting : AIProvider)
  : option (list common.Model) :=
  match NewProvider providerSetting with
  | inl provider =>
      match Models provider with
      | inl models => Some models
      | inr _ => None
      end
  | inr _ => None
  end.

Definition isLoggedError (c : Call) : Prop := exists msg, c = logger_Error msg.

(** The definition carries a value whose key is [key]. *)
Definition hasKey (key : string) (settingDefinition : PluginSettingDefinitionItem) : bool :=
  match Value settingDefinition with
  | Some v => String.eqb (GetKey v) key
  | None => false
  end.

(** [k] is the position of the first instance whose metadata id is
    [pluginId]. *)
Definition firstWithId (pluginId : string) (k : nat) (l : list Instance) : Prop :=
  (exists item, l !! k = Some item /\ Id (InstanceMetadata item) = pluginId)
  /\ forall j other, (j < k)%nat -> l !! j = Some other ->
                     Id (InstanceMetadata other) <> pluginId.

(** *** A concrete world, to run the handlers on examples

    Two instances; the stand-in for [gjson] reads the whole body as the
    value of any member and finds nothing in an empty body, the stand-in for
    the decoder reads the body as [PluginId,Key,Value]. *)
Definition exampleInstance (pluginId : string) (disabled : bool) : Instance :=
  {| InstanceMetadata :=
       {| Id := pluginId; Icon := "icon:" +:+ pluginId;
          SettingDefinitions :=
            [ {| DefinitionType := "newline"; Value := None; IsPlatformSpecific := true |};
              {| DefinitionType := "textbox"; Value := Some {| GetKey := "dir" |};
                 IsPlatformSpecific := true |};
              {| DefinitionType := "textbox"; Value := Some {| GetKey := "dir" |};
                 IsPlatformSpecific := false |} ] |};
     Setting := {| setting.Disabled := disabled; setting.TriggerKeywords := ["x"];
                   setting.CustomizedSettings := ∅ |};
     PluginDirectory := "/plugins/" +:+ pluginId |}.

Definition exampleWorld : World :=
  {| instances := [exampleInstance "p1" false; exampleInstance "p2" true]; calls := [] |}.

Definition exampleGetBytes (body path : string) : option string :=
  if String.eqb body "" then None else Some body.

Definition exampleDecode (body : string) : keyValuePair + string :=
  match strings.Split body "," with
  | [p; k; v] => inl {| PluginId := p; Key := k; Value_ := v |}
  | _ => inr "unexpected end of JSON input"
  end.

End ui.


(** * Properties *)

(** ** Lists and strings *)

Lemma fold_left_append_filter {A B} (p : A -> bool) (f : A -> B) (l : list A) :
  forall acc,
    fold_left (fun results x => if p x then results ++ [f x] else results) l acc
    = acc ++ map f (List.filter p l).
Proof.
  induction l as [|x l IH]; intros acc; simpl.
  - by rewrite app_nil_r.
  - rewrite IH. destruct (p x); simpl; [by rewrite <- app_assoc | done].
Qed.

Lemma fold_left_pointwise {A B} (g h : B -> A -> B) (l : list A) :
  (forall acc x, g acc x = h acc x) ->
  forall acc, fold_left g l acc = fold_left h l acc.
Proof.
  intros E. induction l as [|x l IH]; intros acc; simpl; [done|].
  by rewrite E, IH.
Qed.

Lemma filter_sublist {A} (p : A -> bool) (l : list A) :
  sublist (List.filter p l) l.
Proof.
  induction l as [|x l IH]; simpl; [constructor|].
  destruct (p x); by constructor.
Qed.

Lemma Forall_filter_bool {A} (p : A -> bool) (l : list A) :
  Forall (fun x => p x = true) (List.filter p l).
Proof.
  induction l as [|x l IH]; simpl; [constructor|].
  destruct (p x) eqn:E; [by constructor | done].
Qed.

(** *** [strings.Split] and [strings.Join] *)

Lemma HasPrefix_app (p s : string) :
  strings.HasPrefix s p = true -> exists rest, s = p +:+ rest.
Proof.
  unfold strings.HasPrefix. revert s.
  induction p as [|a p IH]; intros s; simpl; [by exists s|].
  destruct s as [|b s]; simpl; [done|]. destruct (ascii_dec a b) as [->|]; [|done].
  intros H. destruct (IH s H) as [rest ->]. by exists rest.
Qed.

Lemma string_app_inv_length (p1 p2 r1 r2 : string) :
  p1 +:+ r1 = p2 +:+ r2 -> String.length p1 = String.length p2 -> p1 = p2 /\ r1 = r2.
Proof.
  revert p2. induction p1 as [|a p1 IH]; intros [|b p2]; simpl; try done.
  intros [= -> H] [= Hlen]. destruct (IH _ H Hlen) as [-> ->]. done.
Qed.

Lemma string_length_app (s1 s2 : string) :
  String.length (s1 +:+ s2) = (String.length s1 + String.length s2)%nat.
Proof. induction s1 as [|c s1 IH]; simpl; [done | by rewrite IH]. Qed.

Lemma Join_cons_byte (c : ascii) (t sep : string) (ts : list string) :
  strings.Join (String c t :: ts) sep = String c (strings.Join (t :: ts) sep).
Proof. unfold strings.Join. simpl. by destruct ts. Qed.

Lemma Join_cons_empty (sep t : string) (ts : list string) :
  strings.Join ("" :: t :: ts) sep = sep +:+ strings.Join (t :: ts) sep.
Proof. done. Qed.

(** The tokens found by the scan, joined again, are the text scanned (past
    the [skip] bytes still to be stepped over). *)
Lemma splitScan_Join (sep : string) :
  sep <> "" ->
  forall s skip t ts,
    (skip <= String.length s)%nat ->
    strings.splitScan sep skip s = (t, ts) ->
    exists skipped,
      s = skipped +:+ strings.Join (t :: ts) sep /\ String.length skipped = skip.
Proof.
  intros Hsep. induction s as [|c s IH]; intros skip t ts Hskip;
    cbn [strings.splitScan].
  - intros [= <- <-]. exists "". simpl in Hskip. split; [done | simpl; lia].
  - destruct skip as [|k].
    + destruct (strings.HasPrefix (String c s) sep) eqn:Hp.
      * destruct (strings.splitScan sep (String.length sep - 1) s) as [t' ts'] eqn:E.
        intros [= <- <-]. exists "". split; [|done].
        destruct (HasPrefix_app _ _ Hp) as [rest Hrest].
        destruct sep as [|c' sep']; [done|]. simpl in Hrest. injection Hrest as <- ->.
        simpl in E. rewrite Nat.sub_0_r in E.
        destruct (IH (String.length sep') t' ts') as (skipped & Hs & Hlen); [|done|].
        { rewrite string_length_app. lia. }
        rewrite Join_cons_empty.
        by apply string_app_inv_length in Hs as [_ <-].
      * destruct (strings.splitScan sep 0 s) as [t' ts'] eqn:E.
        intros [= <- <-]. exists "". split; [|done].
        destruct (IH 0%nat t' ts') as (skipped & Hs & Hlen); [lia | done |].
        destruct skipped; [|done].
        rewrite Join_cons_byte. change (String c s = String c (strings.Join (t' :: ts') sep)).
        f_equal. exact Hs.
    + intros E. simpl in Hskip.
      destruct (IH k t ts) as (skipped & Hs & Hlen); [lia | done |].
      exists (String c skipped). split; [|by simpl; rewrite Hlen].
      change (String c s = String c (skipped +:+ strings.Join (t :: ts) sep)).
      f_equal. exact Hs.
Qed.

(** Joining what [strings.Split] returns gives the text back. *)
Lemma Split_Join (s sep : string) :
  sep <> "" -> strings.Join (strings.Split s sep) sep = s.
Proof.
  intros Hsep. unfold strings.Split.
  destruct sep as [|c sep']; [done|].
  destruct (strings.splitScan (String c sep') 0 s) as [t ts] eqn:E.
  destruct (splitScan_Join _ Hsep s 0%nat t ts) as (skipped & Hs & Hlen); [lia | done |].
  destruct skipped; [|done]. exact (eq_sym Hs).
Qed.

(** The raw query is its first token, one separator, and the other tokens
    joined. *)
Lemma Split_first_rest (s sep first second : string) (rest : list string) :
  sep <> "" ->
  strings.Split s sep = first :: second :: rest ->
  s = first +:+ sep +:+ strings.Join (second :: rest) sep.
Proof.
  intros Hsep E. rewrite <- (Split_Join s sep Hsep) at 1. by rewrite E.
Qed.

(** ** The web-search plugin *)

Section WebSearchFacts.
Import plugin system.
Variables ToLower ToUpper : string -> string.

Lemma Query_loop (ws : list webSearch) (triggerKeyword otherQuery : string) :
  fold_left
    (fun results search =>
       if IsFallback search || negb (Enabled search) then results
       else if String.eqb (ToLower (Keyword search)) (ToLower triggerKeyword)
            then results ++ [searchResult ToLower ToUpper search otherQuery]
            else results)
    ws []
  = map (fun search => searchResult ToLower ToUpper search otherQuery)
        (List.filter (answers ToLower triggerKeyword) ws).
Proof.
  rewrite <- (app_nil_l (map _ _)).
  rewrite <- (fold_left_append_filter (answers ToLower triggerKeyword)).
  apply fold_left_pointwise. intros acc x. unfold answers.
  by destruct (IsFallback x), (Enabled x), (String.eqb _ _).
Qed.

Lemma QueryFallback_loop (r : WebSearchPlugin) (query : plugin.Query) :
  QueryFallback ToLower ToUpper r query
  = map (fun search => searchResult ToLower ToUpper search (RawQuery query))
        (List.filter isFallbackEntry (webSearches r)).
Proof.
  unfold system.QueryFallback.
  rewrite <- (app_nil_l (map _ _)).
  rewrite <- (fold_left_append_filter isFallbackEntry).
  apply fold_left_pointwise. intros acc x. unfold isFallbackEntry.
  by destruct (IsFallback x), (Enabled x).
Qed.

Lemma Query_tokens (r : WebSearchPlugin) (query : plugin.Query) :
  Query ToLower ToUpper r query
  = match strings.Split (RawQuery query) " " with
    | [] | [_] => []
    | first :: rest =>
        map (fun search => searchResult ToLower ToUpper search (strings.Join rest " "))
            (List.filter (answers ToLower first) (webSearches r))
    end.
Proof.
  unfold system.Query.
  destruct (strings.Split (RawQuery query) " ") as [|first [|second rest]]; try done.
  simpl length. simpl hd. simpl tl.
  replace (S (S (length rest)) <=? 1)%nat with false by done.
  apply Query_loop.
Qed.

(** C1.  [Query] answers only from entries that are enabled and not
    fallback entries, [QueryFallback] answers with exactly one result for
    each entry that is enabled and a fallback entry, in configuration order;
    no entry can therefore contribute to both. *)
Theorem Query_and_QueryFallback_are_disjoint (r : WebSearchPlugin) (query : plugin.Query) :
  (exists (es : list webSearch) (otherQuery : string),
      sublist es (webSearches r)
      /\ Forall (fun search => IsFallback search = false /\ Enabled search = true) es
      /\ Query ToLower ToUpper r query
         = map (fun search => searchResult ToLower ToUpper search otherQuery) es)
  /\ QueryFallback ToLower ToUpper r query
     = map (fun search => searchResult ToLower ToUpper search (RawQuery query))
           (List.filter (fun search => Enabled search && IsFallback search)
                        (webSearches r)).
Proof.
  split; [|apply QueryFallback_loop].
  rewrite Query_tokens.
  destruct (strings.Split (RawQuery query) " ") as [|first [|second rest]].
  - exists [], "". repeat split; [apply sublist_nil_l | constructor].
  - exists [], "". repeat split; [apply sublist_nil_l | constructor].
  - exists (List.filter (answers ToLower first) (webSearches r)),
           (strings.Join (second :: rest) " ").
    repeat split; [apply filter_sublist | ].
    eapply Forall_impl; [apply Forall_filter_bool|].
    intros search. unfold answers.
    destruct (Enabled search), (IsFallback search); simpl; intros; by try discriminate.
Qed.

(** C2, as amended.  [Query] returns nothing when the raw query has at most
    one token; otherwise one result per entry that is enabled, is not a
    fallback entry and whose keyword has the same lower-case form as the
    first token, in configuration order.  The title of a result is the
    entry's title after three successive replacements: of [{query}] by the
    remaining tokens joined by spaces, then of [{lower_query}] in what the
    first pass produced, then of [{upper_query}] in what the second pass
    produced. *)
Theorem Query_tokens_and_replacement (r : WebSearchPlugin) (query : plugin.Query) :
  Query ToLower ToUpper r query
  = match strings.Split (RawQuery query) " " with
    | [] | [_] => []
    | first :: rest =>
        map (fun search => searchResult ToLower ToUpper search (strings.Join rest " "))
            (List.filter
               (fun search =>
                  Enabled search && negb (IsFallback search)
                  && String.eqb (ToLower (Keyword search)) (ToLower first))
               (webSearches r))
    end
  /\ forall (search : webSearch) (otherQuery : string),
      plugin.Title (searchResult ToLower ToUpper search otherQuery)
      = strings.ReplaceAll
          (strings.ReplaceAll
             (strings.ReplaceAll (Title search) "{query}" otherQuery)
             "{lower_query}" (ToLower otherQuery))
          "{upper_query}" (ToUpper otherQuery).
Proof. split; [apply Query_tokens | done]. Qed.

(** C7.  Every result of [Query] and of [QueryFallback] has score 100. *)
Theorem websearch_scores_are_100 (r : WebSearchPlugin) (query : plugin.Query) :
  Forall (fun result => Score result = 100%Z) (Query ToLower ToUpper r query)
  /\ Forall (fun result => Score result = 100%Z) (QueryFallback ToLower ToUpper r query).
Proof.
  rewrite Query_tokens, QueryFallback_loop. split.
  - destruct (strings.Split (RawQuery query) " ") as [|first [|second rest]];
      try constructor.
    apply Forall_map, Forall_true. done.
  - apply Forall_map, Forall_true. done.
Qed.

End WebSearchFacts.

(** C2 as stated fails when the query text itself holds a place holder:
    the later passes rewrite what the first pass inserted. *)
Lemma Query_rewrites_inserted_text :
  let r := {| system.webSearches :=
                [ {| system.Urls := ["https://example.com/?q={query}"];
                     system.Title := "Search {query}";
                     system.Keyword := "g";
                     system.IsFallback := false;
                     system.Icon := plugin.zeroImage;
                     system.Enabled := true |} ] |} in
  let query := {| plugin.RawQuery := "g {upper_query}" |} in
  map plugin.Title (system.Query strings.ToLower strings.ToUpper r query)
  = ["Search {UPPER_QUERY}"]
  /\ map plugin.Title (system.Query_stated strings.ToLower strings.ToUpper r query)
     = ["Search {upper_query}"]
  /\ system.Query strings.ToLower strings.ToUpper r query
     <> system.Query_stated strings.ToLower strings.ToUpper r query.
Proof.
  repeat split; [vm_compute; reflexivity .. |].
  intros E. apply (f_equal (map plugin.Title)) in E. vm_compute in E. discriminate E.
Qed.

(** ** The icon of a web search *)

Section IconFacts.
Import plugin system.
Variable webSearchIconSvg : string.
Variable getWebsiteIconWithCache : string -> WoxImage + string.

Lemma slices_Sort_Sorted (l : list string) : Sorted String.le (slices_Sort l).
Proof. unfold slices_Sort. apply Sorted_merge_sort. apply _. Qed.

Lemma slices_Sort_Permutation (l : list string) : slices_Sort l ≡ₚ l.
Proof. apply merge_sort_Permutation. Qed.

(** Whatever algorithm sorts the slice, the outcome is the same. *)
Lemma slices_Sort_unique (sort : list string -> list string) (l : list string) :
  Sorted String.le (sort l) -> sort l ≡ₚ l -> sort l = slices_Sort l.
Proof.
  intros Hs Hp. apply (Sorted_unique String.le); [done | apply slices_Sort_Sorted |].
  by rewrite Hp, slices_Sort_Permutation.
Qed.

Lemma slices_Sort_order_independent (l1 l2 : list string) :
  l1 ≡ₚ l2 -> slices_Sort l1 = slices_Sort l2.
Proof.
  intros Hp. apply (Sorted_unique String.le); try apply slices_Sort_Sorted.
  by rewrite !slices_Sort_Permutation.
Qed.

Lemma slices_Sort_head_least (l : list string) (url0 : string) (rest : list string) :
  slices_Sort l = url0 :: rest ->
  url0 ∈ l /\ forall u, u ∈ l -> String.le url0 u.
Proof.
  intros E. pose proof (slices_Sort_Permutation l) as Hp.
  pose proof (slices_Sort_Sorted l) as Hs. rewrite E in Hp, Hs.
  apply Sorted_StronglySorted in Hs; [|apply _].
  apply StronglySorted_inv in Hs as [_ Hall].
  split.
  - rewrite <- Hp. left.
  - intros u Hu. rewrite <- Hp in Hu. apply elem_of_cons in Hu as [->|Hu]; [done|].
    rewrite Forall_forall in Hall. by apply Hall.
Qed.

(** C9.  Two web searches whose non-empty [Urls] are permutations of each
    other ask for the icon of the same URL, the least one in the order of
    strings, and so get the same icon and make the same calls; when the
    fetch fails the default [webSearchIcon] is returned (and the failure
    logged) instead of an error. *)
Theorem indexWebSearchIcon_ignores_url_order (search1 search2 : webSearch) :
  Urls search1 ≡ₚ Urls search2 ->
  Urls search1 <> [] ->
  exists url0 : string,
    url0 ∈ Urls search1
    /\ (forall u, u ∈ Urls search1 -> String.le url0 u)
    /\ let outcome :=
         match getWebsiteIconWithCache url0 with
         | inl img => (img, [GetWebsiteIcon url0])
         | inr err =>
             (webSearchIcon webSearchIconSvg,
              [GetWebsiteIcon url0;
               LogError ("failed to get icon for " +:+ url0 +:+ ": " +:+ err)])
         end in
       indexWebSearchIcon webSearchIconSvg getWebsiteIconWithCache search1 = Some outcome
       /\ indexWebSearchIcon webSearchIconSvg getWebsiteIconWithCache search2 = Some outcome.
Proof.
  intros Hp Hne.
  destruct (slices_Sort (Urls search1)) as [|url0 rest] eqn:E.
  - pose proof (slices_Sort_Permutation (Urls search1)) as Hp1. rewrite E in Hp1.
    symmetry in Hp1. by apply Permutation_nil_r in Hp1.
  - exists url0. destruct (slices_Sort_head_least _ _ _ E) as [Hin Hleast].
    split; [done|]. split; [done|].
    unfold indexWebSearchIcon.
    rewrite <- (slices_Sort_order_independent _ _ Hp), E.
    by destruct (getWebsiteIconWithCache url0).
Qed.

End IconFacts.

(** C9 at two searches with the same two URLs in opposite orders and a
    fetch that fails. *)
Lemma indexWebSearchIcon_ignores_url_order_witness :
  let search (urls : list string) :=
    {| system.Urls := urls; system.Title := "Search"; system.Keyword := "s";
       system.IsFallback := false; system.Icon := plugin.zeroImage;
       system.Enabled := true |} in
  exists url0 : string,
    url0 ∈ ["https://b.example"; "https://a.example"]
    /\ (forall u, u ∈ ["https://b.example"; "https://a.example"] -> String.le url0 u)
    /\ system.indexWebSearchIcon "svg" (fun _ => inr "offline")
         (search ["https://b.example"; "https://a.example"])
       = Some (system.webSearchIcon "svg",
               [system.GetWebsiteIcon url0;
                system.LogError ("failed to get icon for " +:+ url0 +:+ ": offline")])
    /\ system.indexWebSearchIcon "svg" (fun _ => inr "offline")
         (search ["https://a.example"; "https://b.example"])
       = Some (system.webSearchIcon "svg",
               [system.GetWebsiteIcon url0;
                system.LogError ("failed to get icon for " +:+ url0 +:+ ": offline")]).
Proof.
  intros search.
  apply (indexWebSearchIcon_ignores_url_order "svg" (fun _ => inr "offline")
           (search ["https://b.example"; "https://a.example"])
           (search ["https://a.example"; "https://b.example"])).
  - simpl. apply perm_swap.
  - simpl. discriminate.
Defined.

(** ** [int64] *)


Lemma int64_wrap_is_inRange (z : Z) : int64.inRange (int64.wrap z).
Proof.
  unfold int64.inRange, int64.min, int64.max, int64.wrap.
  pose proof (Z.mod_pos_bound (z + 2 ^ 63) (2 ^ 64)). lia.
Qed.

(** ** The AI-chat plugin *)

Create HintDb chats discriminated.

Section ChatFacts.
Import plugin common chat.
Variable d : Deps.

Local Open Scope Z_scope.

(** *** Groups *)




(** *** What the methods leave unchanged *)

Lemma keepsChats_ret {A} (a : A) : keepsChats (ret a).
Proof. by intros s. Qed.

Lemma keepsChats_bind {A B} (m : M A) (k : A -> M B) :
  keepsChats m -> (forall a, keepsChats (k a)) -> keepsChats (bind m k).
Proof.
  intros Hm Hk s. unfold bind. specialize (Hm s).
  destruct (m s) as [a s']. simpl in Hm. by rewrite Hk.
Qed.

Lemma keepsChats_call (c : Call) : keepsChats (call c).
Proof. by intros s. Qed.

Lemma keepsChats_getChats : keepsChats getChats.
Proof. by intros s. Qed.

Lemma keepsChats_clear : keepsChats clearResultChatIdMap.
Proof. by intros s. Qed.

Lemma keepsChats_store (chatId resultId : string) :
  keepsChats (storeResultChatId chatId resultId).
Proof. by intros s. Qed.

Lemma keepsChats_uuid : keepsChats (uuid_NewString d).
Proof. by intros s. Qed.

#[local] Hint Resolve keepsChats_ret keepsChats_call keepsChats_getChats keepsChats_clear
  keepsChats_store keepsChats_uuid : chats.

Ltac keeps :=
  repeat first
    [ progress auto with chats
    | progress cbv zeta
    | apply keepsChats_bind; [| intros ?]
    | match goal with
      | |- keepsChats (match ?x with _ => _ end) => destruct x
      | |- keepsChats (if ?x then _ else _) => destruct x
      | |- keepsChats (let '(_, _) := ?x in _) => destruct x
      end ].

Lemma keepsChats_getDefaultModel : keepsChats (getDefaultModel d).
Proof. unfold getDefaultModel. keeps. Qed.

#[local] Hint Resolve keepsChats_getDefaultModel : chats.

Lemma keepsChats_getNewChatPreviewData : keepsChats (getNewChatPreviewData d).
Proof. unfold getNewChatPreviewData. keeps. Qed.

Lemma keepsChats_queryLoop (query : plugin.Query) (cs : list AIChatData) :
  forall i results, keepsChats (queryLoop d query i cs results).
Proof.
  induction cs as [|chat rest IH]; intros i results; simpl; keeps.
Qed.

#[local] Hint Resolve keepsChats_getNewChatPreviewData keepsChats_queryLoop : chats.

Lemma keepsChats_Query (query : plugin.Query) : keepsChats (Query d query).
Proof. unfold Query. keeps. Qed.

(** *** What [Query] emits *)

Ltac run :=
  unfold bind, ret, call, getChats, setChats, clearResultChatIdMap,
    storeResultChatId, uuid_NewString; simpl.

Lemma queryLoop_emits (query : plugin.Query) (cs : list AIChatData) :
  forall i results s,
    exists emitted,
      fst (queryLoop d query i cs results s) = results ++ emitted
      /\ GroupScore <$> emitted
         = (fun chat => snd (getResultGroup d chat)) <$> List.filter (marshals d) cs
      /\ forall result, result ∈ emitted ->
           exists (k : nat) (chat : AIChatData) (continueChatText : string),
             cs !! k = Some chat
             /\ ContextData result = common.Id chat
             /\ plugin.Title result = common.Title chat
             /\ (fun act => (plugin.Name act, Action act)) <$> Actions result
                = [ (continueChatText, FocusToChatInput);
                    ("Delete Chat", DeleteChat (i + k) (RawQuery query));
                    ("Summarize Chat", SummarizeChat) ].
Proof.
  induction cs as [|chat rest IH]; intros i results s; simpl.
  - exists []. rewrite app_nil_r. split; [done|]. split; [done|].
    intros result H. by apply elem_of_nil in H.
  - unfold marshals at 1. destruct (Marshal_chat d chat) as [previewData|err]; run.
    + destruct (getResultGroup d chat) as [group groupScore] eqn:Eg.
      match goal with
      | |- context [queryLoop d query (S i) rest (results ++ [?r]) ?s'] =>
          destruct (IH (S i) (results ++ [r]) s') as (emitted & E & Hs & Hg);
          exists (r :: emitted)
      end.
      rewrite E, <- app_assoc. split; [done|]. split.
      * by rewrite fmap_cons, Hs.
      * intros result [->|Hin]%elem_of_cons.
        -- exists 0%nat, chat. eexists. rewrite Nat.add_0_r. by simpl.
        -- destruct (Hg result Hin) as (k & c & t & Hk & Hrest).
           exists (S k), c, t. by rewrite Nat.add_succ_r.
    + match goal with
      | |- context [queryLoop d query (S i) rest results ?s'] =>
          destruct (IH (S i) results s') as (emitted & E & Hs & Hg)
      end.
      exists emitted. split; [done|]. split; [done|].
      intros result Hin. destruct (Hg result Hin) as (k & c & t & Hk & Hrest).
      exists (S k), c, t. by rewrite Nat.add_succ_r.
Qed.

Lemma getNewChatPreviewData_result (s : State) :
  let result := fst (getNewChatPreviewData d s) in
  (result = zeroResult
   \/ (plugin.Title result = "New Chat" /\ Group result = "New Chat"
       /\ GroupScore result = 1000))
  /\ Forall (fun act => Action act = FocusToChatInput) (Actions result).
Proof.
  unfold getNewChatPreviewData, getDefaultModel. run.
  repeat match goal with
         | |- context [match ?x with _ => _ end] => destruct x; simpl
         end;
    (split; [by auto | by repeat constructor]).
Qed.

Lemma Query_unfold (query : plugin.Query) (s : State) :
  exists s1 s2,
    chats s2 = chats s
    /\ fst (Query d query s)
       = fst (queryLoop d query 0 (chats s)
                [fst (getNewChatPreviewData d s1)] s2).
Proof.
  unfold Query. run.
  set (s1 := {| chats := chats s; resultChatIdMap := ∅;
                uuids := uuids s; calls := calls s |}).
  pose proof (keepsChats_getNewChatPreviewData s1) as Hk.
  destruct (getNewChatPreviewData d s1) as [newChat s2] eqn:E. simpl in Hk.
  exists s1, s2. rewrite E. simpl. by rewrite Hk.
Qed.

(** [Query] emits the new-chat result, then one result per chat that can be
    marshalled, in the order of [r.chats]. *)
Lemma Query_emits (query : plugin.Query) (s : State) :
  exists first emitted,
    fst (Query d query s) = first :: emitted
    /\ ((first = zeroResult
         \/ (plugin.Title first = "New Chat" /\ Group first = "New Chat"
             /\ GroupScore first = 1000))
        /\ Forall (fun act => Action act = FocusToChatInput) (Actions first))
    /\ GroupScore <$> emitted
       = (fun chat => snd (getResultGroup d chat)) <$> List.filter (marshals d) (chats s)
    /\ forall result, result ∈ emitted ->
         exists (k : nat) (chat : AIChatData) (continueChatText : string),
           chats s !! k = Some chat
           /\ ContextData result = common.Id chat
           /\ plugin.Title result = common.Title chat
           /\ (fun act => (plugin.Name act, Action act)) <$> Actions result
              = [ (continueChatText, FocusToChatInput);
                  ("Delete Chat", DeleteChat k (RawQuery query));
                  ("Summarize Chat", SummarizeChat) ].
Proof.
  destruct (Query_unfold query s) as (s1 & s2 & _ & E).
  destruct (queryLoop_emits query (chats s) 0 [fst (getNewChatPreviewData d s1)] s2)
    as (emitted & E' & Hs & Hg).
  exists (fst (getNewChatPreviewData d s1)), emitted.
  split; [by rewrite E, E'|]. split; [apply getNewChatPreviewData_result|]. done.
Qed.

(** *** Order *)

#[local] Instance Z_ge_Transitive : Transitive Z.ge.
Proof. intros x y z. lia. Qed.

Lemma byUpdatedAt_strictWeakOrder :
  strictWeakOrder (fun ci cj : AIChatData => UpdatedAt cj <? UpdatedAt ci).
Proof.
  repeat split; intros *; rewrite ?Z.ltb_lt, ?Z.ltb_ge; lia.
Qed.


Lemma loadChats_Permutation (stored : list AIChatData) :
  sorts (sort_Slice d) ->
  GetSetting d aiChatsSettingKey <> "" ->
  Unmarshal_chats d (GetSetting d aiChatsSettingKey) = inl stored ->
  loadChats d = (sort_Slice d (fun ci cj => UpdatedAt cj <? UpdatedAt ci) stored, None)
  /\ fst (loadChats d) ≡ₚ stored.
Proof.
  intros Hsort Hne E. unfold loadChats. apply String.eqb_neq in Hne.
  rewrite Hne, E. split; [done|]. simpl.
  by destruct (Hsort _ stored byUpdatedAt_strictWeakOrder).
Qed.


(** *** The [Delete Chat] action *)

Lemma deleteChatAction_removes (i : nat) (rawQuery : string) (s : State) (chat : AIChatData) :
  chats s !! i = Some chat ->
  exists s',
    deleteChatAction d i rawQuery s = Some s'
    /\ chats s' = delete i (chats s)
    /\ calls s'
       = calls s
         ++ [ match Marshal_chats d (delete i (chats s)) with
              | inl chatsJson => SaveSetting aiChatsSettingKey chatsJson false
              | inr err => Log LogLevelError ("Failed to marshal chats: " +:+ err)
              end;
              ChangeQuery {| QueryType := QueryTypeInput d;
                             QueryText := rawQuery;
                             QuerySelection := emptySelection d |} ].
Proof.
  intros Hi. apply lookup_lt_Some in Hi. unfold deleteChatAction.
  replace (S i <=? length (chats s))%nat with true
    by (symmetry; apply Nat.leb_le; lia).
  eexists. split; [reflexivity|]. unfold saveChats. run.
  rewrite <- delete_take_drop.
  destruct (Marshal_chats d (delete i (chats s))); simpl;
    (split; [done | by rewrite <- app_assoc]).
Qed.


(** C8.  A result of [Query] that carries a closure [DeleteChat i] was
    generated for the [i]-th chat, and its action is named "Delete Chat";
    run in a state whose chat list is still the one [Query] saw, the closure
    leaves [r.chats] with exactly the [i]-th chat removed and then saves
    this list with [saveChats] (and refreshes the query). *)
Theorem Delete_Chat_removes_its_chat
    (query : plugin.Query) (s : State) (result : QueryResult ChatClosure)
    (act : QueryResultAction ChatClosure) (i : nat) (rawQuery : string) :
  result ∈ fst (Query d query s) ->
  act ∈ Actions result ->
  Action act = DeleteChat i rawQuery ->
  plugin.Name act = "Delete Chat"
  /\ exists chat,
       chats s !! i = Some chat
       /\ ContextData result = common.Id chat
       /\ forall s1,
            chats s1 = chats s ->
            exists s2,
              deleteChatAction d i rawQuery s1 = Some s2
              /\ chats s2 = delete i (chats s)
              /\ (exists before after,
                     chats s = before ++ chat :: after
                     /\ length before = i
                     /\ chats s2 = before ++ after)
              /\ calls s2
                 = calls s1
                   ++ [ match Marshal_chats d (chats s2) with
                        | inl chatsJson => SaveSetting aiChatsSettingKey chatsJson false
                        | inr err =>
                            Log LogLevelError ("Failed to marshal chats: " +:+ err)
                        end;
                        ChangeQuery {| QueryType := QueryTypeInput d;
                                       QueryText := RawQuery query;
                                       QuerySelection := emptySelection d |} ].
Proof.
  intros Hres Hact Hdel.
  destruct (Query_emits query s) as (first & emitted & E & [_ Hfirst] & _ & Hgen).
  rewrite E in Hres. apply elem_of_cons in Hres as [-> | Hres].
  { rewrite Forall_forall in Hfirst. specialize (Hfirst act Hact). congruence. }
  destruct (Hgen result Hres) as (k & chat & text & Hk & Hctx & _ & Hacts).
  assert ((plugin.Name act, Action act)
          ∈ (fun act => (plugin.Name act, Action act)) <$> Actions result) as Hin
    by (apply list_elem_of_fmap; eauto).
  rewrite Hacts, Hdel in Hin.
  apply elem_of_cons in Hin as [Hin|Hin]; [congruence|].
  apply elem_of_cons in Hin as [Hin|Hin]; cycle 1.
  { apply elem_of_cons in Hin as [Hin|Hin]; [congruence | by apply elem_of_nil in Hin]. }
  injection Hin as Hname Hi Hraw. subst k rawQuery.
  split; [done|]. exists chat. split; [done|]. split; [done|].
  intros s1 Hsame.
  destruct (deleteChatAction_removes i (RawQuery query) s1 chat) as (s2 & Hrun & Hchats & Hcalls);
    [by rewrite Hsame|].
  rewrite Hsame in Hchats. exists s2. split; [done|]. split; [done|]. split.
  - exists (take i (chats s)), (drop (S i) (chats s)).
    split; [by rewrite take_drop_middle|].
    split; [|by rewrite Hchats, delete_take_drop].
    rewrite length_take. apply lookup_lt_Some in Hk. lia.
  - by rewrite Hcalls, Hchats, Hsame.
Qed.

End ChatFacts.

(** A merge sort meets the contract of [sort.Slice]. *)
Lemma merge_sort_sorts {A} :
  chat.sorts (fun less : A -> A -> bool => merge_sort (chat.notAfter less)).
Proof.
  intros less l (Hirr & Htrans & _). split; [apply merge_sort_Permutation|].
  assert (Total (chat.notAfter less)) as Htotal.
  { intros a b. unfold chat.notAfter.
    destruct (less b a) eqn:Eba; [|by left]. right.
    destruct (less a b) eqn:Eab; [|done].
    by rewrite <- (Hirr a), (Htrans a b a). }
  by apply Sorted_merge_sort.
Qed.



(** Why C3 asks for [r.chats] in the order of [loadChats]: [Chat] stores a
    continued chat in place, so a chat updated just now can stay behind one
    updated yesterday, and [Query] then emits group score 80 before 90. *)
Example Chat_stores_in_place :
  let d := chat.exampleDeps 1700000000000
             [chat.exampleChat "a" 1699902800000;
              chat.exampleChat "b" 1699820000000] in
  let s := chat.exampleState (fst (chat.loadChats d)) in
  let s' := snd (chat.Chat_store d (chat.exampleChat "b" 1699999999000) s) in
  common.Id <$> chat.chats s = ["a"; "b"]
  /\ (fun c => (common.Id c, common.UpdatedAt c)) <$> chat.chats s'
     = [("a", 1699902800000%Z); ("b", 1699999999000%Z)]
  /\ plugin.GroupScore <$> fst (chat.Query d {| plugin.RawQuery := "chat " |} s')
     = [1000; 80; 90]%Z.
Proof. repeat split; vm_compute; reflexivity. Qed.

(** C8 on three chats: the [Delete Chat] action of the result for the
    second chat. *)
Lemma Delete_Chat_removes_its_chat_witness :
  let d := chat.exampleDeps 1700000000000 [] in
  let s := chat.exampleState
             [chat.exampleChat "a" 1699999999000;
              chat.exampleChat "b" 1699999998000;
              chat.exampleChat "c" 1699999997000] in
  exists s2,
    chat.deleteChatAction d 1 "chat " s = Some s2
    /\ common.Id <$> chat.chats s2 = ["a"; "c"]
    /\ chat.calls s2
       = [ chat.SaveSetting "ai_chats" "a,c" false;
           chat.ChangeQuery {| common.QueryType := "input";
                               common.QueryText := "chat ";
                               common.QuerySelection := "" |} ].
Proof.
  intros d s.
  pose (query := {| plugin.RawQuery := "chat " |}).
  pose (result := nth 2 (fst (chat.Query d query s)) (chat.zeroResult)).
  pose (act := nth 1 (plugin.Actions result)
                 {| plugin.Name := ""; plugin.ActionIcon := plugin.zeroImage;
                    plugin.PreventHideAfterAction := false;
                    plugin.Action := chat.FocusToChatInput |}).
  destruct (Delete_Chat_removes_its_chat d query s result act 1 "chat ")
    as (_ & c & _ & _ & Hrun).
  - apply (list_elem_of_lookup_2 _ 2). vm_compute. reflexivity.
  - apply (list_elem_of_lookup_2 _ 1). vm_compute. reflexivity.
  - vm_compute. reflexivity.
  - destruct (Hrun s eq_refl) as (s2 & E & Hchats & _ & Hcalls).
    exists s2. split; [exact E|]. rewrite Hcalls, Hchats.
    split; vm_compute; reflexivity.
Defined.

(** ** The router *)

Section RouterFacts.
Import plugin ui.

Lemma lo_Find_Some {A} (p : A -> bool) (l : list A) :
  forall start k x,
    lo_Find p start l = Some (k, x) ->
    exists j, k = (start + j)%nat /\ l !! j = Some x /\ p x = true
              /\ forall j' y, (j' < j)%nat -> l !! j' = Some y -> p y = false.
Proof.
  induction l as [|a l IH]; intros start k x; simpl; [done|].
  destruct (p a) eqn:Ea.
  - intros [= <- <-]. exists 0%nat. rewrite Nat.add_0_r.
    repeat split; [done|]. intros j' y Hlt. lia.
  - intros H. destruct (IH _ _ _ H) as (j & -> & Hj & Hp & Hfirst).
    exists (S j). split; [lia|]. repeat split; [done..|].
    intros [|j'] y Hlt; simpl; [by intros [= ->] | intros Hy].
    apply (Hfirst j'); [lia | done].
Qed.

Lemma lo_Find_None {A} (p : A -> bool) (l : list A) :
  forall start, lo_Find p start l = None -> Forall (fun y => p y = false) l.
Proof.
  induction l as [|a l IH]; intros start; simpl; [constructor|].
  destruct (p a) eqn:Ea; [done|]. intros H. constructor; eauto.
Qed.

(** [lo.Find] on the instances, by metadata id. *)
Lemma lo_Find_firstWithId (pluginId : string) (l : list Instance) (k : nat) :
  firstWithId pluginId k l ->
  exists item,
    l !! k = Some item /\ Id (InstanceMetadata item) = pluginId
    /\ lo_Find (fun item => String.eqb (Id (InstanceMetadata item)) pluginId) 0 l
       = Some (k, item).
Proof.
  intros [(item & Hk & Hid) Hfirst]. exists item. split; [done|]. split; [done|].
  destruct (lo_Find _ 0 l) as [[k' item']|] eqn:E.
  - apply lo_Find_Some in E as (j & -> & Hj & Hp & Hmin). simpl.
    apply String.eqb_eq in Hp.
    destruct (Nat.lt_trichotomy j k) as [Hlt|[->|Hgt]].
    + by destruct (Hfirst j item' Hlt Hj).
    + by simplify_eq.
    + specialize (Hmin k item Hgt Hk). apply String.eqb_neq in Hmin. by destruct Hmin.
  - apply lo_Find_None in E. rewrite Forall_forall in E.
    assert (item ∈ l) as Hin by (by eapply list_elem_of_lookup_2).
    specialize (E item Hin). apply String.eqb_neq in E. by destruct E.
Qed.

Lemma lo_Find_no_id (pluginId : string) (l : list Instance) :
  Forall (fun item => Id (InstanceMetadata item) <> pluginId) l ->
  lo_Find (fun item => String.eqb (Id (InstanceMetadata item)) pluginId) 0 l = None.
Proof.
  intros Hall. destruct (lo_Find _ 0 l) as [[k item]|] eqn:E; [|done].
  apply lo_Find_Some in E as (j & _ & Hj & Hp & _). apply String.eqb_eq in Hp.
  rewrite Forall_forall in Hall. destruct (Hall item); [|done].
  by eapply list_elem_of_lookup_2.
Qed.

Lemma isPlatformSpecificOf_find (key : string) (defs : list PluginSettingDefinitionItem) :
  isPlatformSpecificOf key defs
  = match List.find (hasKey key) defs with
    | Some settingDefinition => IsPlatformSpecific settingDefinition
    | None => false
    end.
Proof.
  induction defs as [|def defs IH]; simpl; [done|].
  unfold hasKey at 1. destruct (Value def) as [v|]; [|done].
  by destruct (String.eqb (GetKey v) key).
Qed.

Variable gjson_GetBytes : string -> string -> option string.
Variable SaveSetting_error : Instance -> option string.
Variable Decode_keyValuePair : string -> keyValuePair + string.
Variable Unmarshal_PlainQuery : string -> common.PlainQuery + string.
Variable NewQuery : common.PlainQuery -> (plugin.Query * option Instance) + string.
Variable ParseWoxImage : string -> WoxImage + string.
Variable ConvertIcon : WoxImage -> string -> WoxImage.

(** C5.  On the disable endpoint ([disable = true]) and on the enable
    endpoint ([disable = false]): when the body has no [id] or no instance
    has this metadata id, an error response is written and the world is as
    before; otherwise [Setting.Disabled] of the first instance with this
    id becomes [disable], [SaveSetting] is called on it, and every other
    instance is as before. *)
Theorem handlePluginDisable_and_Enable (disable : bool) (body : string) (w : World) :
  let handler :=
    if disable then handlePluginDisable gjson_GetBytes SaveSetting_error
    else handlePluginEnable gjson_GetBytes SaveSetting_error in
  ((gjson_GetBytes body "id" = None
    \/ exists pluginId,
         gjson_GetBytes body "id" = Some pluginId
         /\ Forall (fun item => Id (InstanceMetadata item) <> pluginId) (instances w)) ->
   (exists msg, fst (handler body w) = Error msg) /\ snd (handler body w) = w)
  /\ (forall pluginId k findPlugin,
        gjson_GetBytes body "id" = Some pluginId ->
        firstWithId pluginId k (instances w) ->
        instances w !! k = Some findPlugin ->
        let w' := snd (handler body w) in
        instances w' !! k
        = Some {| InstanceMetadata := InstanceMetadata findPlugin;
                  Setting :=
                    {| setting.Disabled := disable;
                       setting.TriggerKeywords :=
                         setting.TriggerKeywords (Setting findPlugin);
                       setting.CustomizedSettings :=
                         setting.CustomizedSettings (Setting findPlugin) |};
                  PluginDirectory := PluginDirectory findPlugin |}
        /\ (forall j, j <> k -> instances w' !! j = instances w !! j)
        /\ exists saved,
             calls w' = calls w ++ [Instance_SaveSetting pluginId saved]
             /\ (Setting <$> instances w' !! k) = Some saved).
Proof.
  intros handler. split.
  - intros [Hnone | (pluginId & Hid & Hall)].
    + subst handler. destruct disable;
        unfold handlePluginDisable, handlePluginEnable; rewrite Hnone; eauto.
    + apply lo_Find_no_id in Hall.
      subst handler. destruct disable;
        unfold handlePluginDisable, handlePluginEnable; rewrite Hid, Hall; eauto.
  - intros pluginId k findPlugin Hid Hfirst Hk.
    destruct (lo_Find_firstWithId _ _ _ Hfirst) as (item & Hk' & Hitem & Hfind).
    assert (item = findPlugin) as -> by congruence.
    assert (k < length (instances w))%nat as Hlt by (by eapply lookup_lt_Some).
    subst handler. destruct disable;
      unfold handlePluginDisable, handlePluginEnable;
      rewrite Hid, Hfind; cbv zeta;
      destruct (SaveSetting_error _); simpl;
      (split; [by rewrite list_lookup_insert_eq|]);
      (split; [by intros j Hj; rewrite list_lookup_insert_ne|]);
      eexists; (split; [by rewrite Hitem|]);
      by rewrite list_lookup_insert_eq.
Qed.

(** C4.  On a plugin-setting update whose [PluginId] is the metadata id of a
    registered instance (the first such instance is taken): for the key
    "Disabled", [Setting.Disabled] becomes [Value == "true"] and the setting
    is saved; for the key "TriggerKeywords", [Setting.TriggerKeywords]
    becomes [Value] split on ","  and the setting is saved; for any other
    key, [API.SaveSetting(Key, Value, p)] is called, where [p] is the
    [IsPlatformSpecific] flag of the first setting definition whose key is
    [Key], or [false] when there is none; a success response is written in
    all three cases and no other instance changes. *)
Theorem handleSettingPluginUpdate_cases
    (body : string) (w : World) (kv : keyValuePair) (k : nat) (pluginInstance : Instance) :
  Decode_keyValuePair body = inl kv ->
  firstWithId (PluginId kv) k (instances w) ->
  instances w !! k = Some pluginInstance ->
  let response := fst (handleSettingPluginUpdate Decode_keyValuePair body w) in
  let w' := snd (handleSettingPluginUpdate Decode_keyValuePair body w) in
  response = Success (DataString "")
  /\ (forall j, j <> k -> instances w' !! j = instances w !! j)
  /\ (Key kv = "Disabled" ->
      let s := {| setting.Disabled := String.eqb (Value_ kv) "true";
                  setting.TriggerKeywords :=
                    setting.TriggerKeywords (Setting pluginInstance);
                  setting.CustomizedSettings :=
                    setting.CustomizedSettings (Setting pluginInstance) |} in
      instances w' !! k
      = Some {| InstanceMetadata := InstanceMetadata pluginInstance;
                Setting := s;
                PluginDirectory := PluginDirectory pluginInstance |}
      /\ calls w' = calls w ++ [Instance_SaveSetting (PluginId kv) s])
  /\ (Key kv = "TriggerKeywords" ->
      let s := {| setting.Disabled := setting.Disabled (Setting pluginInstance);
                  setting.TriggerKeywords := strings.Split (Value_ kv) ",";
                  setting.CustomizedSettings :=
                    setting.CustomizedSettings (Setting pluginInstance) |} in
      instances w' !! k
      = Some {| InstanceMetadata := InstanceMetadata pluginInstance;
                Setting := s;
                PluginDirectory := PluginDirectory pluginInstance |}
      /\ calls w' = calls w ++ [Instance_SaveSetting (PluginId kv) s])
  /\ (Key kv <> "Disabled" -> Key kv <> "TriggerKeywords" ->
      instances w' = instances w
      /\ calls w'
         = calls w
           ++ [API_SaveSetting (PluginId kv) (Key kv) (Value_ kv)
                 match List.find (hasKey (Key kv))
                         (SettingDefinitions (InstanceMetadata pluginInstance)) with
                 | Some settingDefinition => IsPlatformSpecific settingDefinition
                 | None => false
                 end]).
Proof.
  intros Hdecode Hfirst Hk response w'.
  destruct (lo_Find_firstWithId _ _ _ Hfirst) as (item & Hk' & Hitem & Hfind).
  assert (item = pluginInstance) as -> by congruence.
  assert (k < length (instances w))%nat as Hlt by (by eapply lookup_lt_Some).
  subst response w'. unfold handleSettingPluginUpdate.
  rewrite Hdecode, Hfind, Hitem, isPlatformSpecificOf_find.
  destruct (String.eqb (Key kv) "Disabled") eqn:E1;
    [|destruct (String.eqb (Key kv) "TriggerKeywords") eqn:E2]; simpl.
  - apply String.eqb_eq in E1.
    split; [done|]. split; [by intros j Hj; rewrite list_lookup_insert_ne|].
    split; [by intros _; rewrite list_lookup_insert_eq|].
    split; [intros E2; by rewrite E1 in E2 | intros H; by destruct H].
  - apply String.eqb_eq in E2. apply String.eqb_neq in E1.
    split; [done|]. split; [by intros j Hj; rewrite list_lookup_insert_ne|].
    split; [done|].
    split; [by intros _; rewrite list_lookup_insert_eq | intros _ H; by destruct H].
  - apply String.eqb_neq in E1, E2. done.
Qed.

(** C10, as amended.  When the body has a [query] member whose text
    [json.Unmarshal] accepts, [handleQueryIcon] writes a success response: the empty
    [WoxImage] when [NewQuery] fails, when the query is for no single
    plugin instance or when the icon of the instance cannot be parsed, and
    the converted icon otherwise.  An error response is written exactly when
    the member is missing or its text is rejected.  The instances are
    never changed. *)
Theorem handleQueryIcon_responses (body : string) (w : World) :
  let run :=
    handleQueryIcon gjson_GetBytes Unmarshal_PlainQuery NewQuery ParseWoxImage
      ConvertIcon body w in
  (forall text plainQuery,
      gjson_GetBytes body "query" = Some text ->
      Unmarshal_PlainQuery text = inl plainQuery ->
      fst run
      = Success
          (DataImage
             match NewQuery plainQuery with
             | inr _ => zeroImage
             | inl (_, None) => zeroImage
             | inl (_, Some pluginInstance) =>
                 match ParseWoxImage (Icon (InstanceMetadata pluginInstance)) with
                 | inr _ => zeroImage
                 | inl iconImg => ConvertIcon iconImg (PluginDirectory pluginInstance)
                 end
             end))
  /\ ((exists msg, fst run = Error msg)
      <-> (gjson_GetBytes body "query" = None
           \/ exists text err,
                gjson_GetBytes body "query" = Some text
                /\ Unmarshal_PlainQuery text = inr err))
  /\ instances (snd run) = instances w.
Proof.
  intros run. subst run. unfold handleQueryIcon.
  destruct (gjson_GetBytes body "query") as [text|].
  2: { split; [done|]. split; [|done]. split; eauto. }
  destruct (Unmarshal_PlainQuery text) as [plainQuery|err] eqn:E.
  2: { split; [by intros ?? [= <-]; rewrite E|]. split; [|done].
       split; [intros _; right; eauto | eauto]. }
  assert (forall A B (x : A) (y : B), inl x <> inr y) as Hne by done.
  split.
  { intros ?? [= <-]. rewrite E. intros [= <-].
    destruct (NewQuery plainQuery) as [[q [pluginInstance|]]|err]; [|done..].
    by destruct (ParseWoxImage _). }
  split.
  - split.
    + intros [msg H]. exfalso.
      destruct (NewQuery plainQuery) as [[q [pluginInstance|]]|err]; [|done..].
      by destruct (ParseWoxImage _).
    + intros [H | (text' & err & [= <-] & H)]; [done|]. by rewrite E in H.
  - destruct (NewQuery plainQuery) as [[q [pluginInstance|]]|err]; [|done..].
    by destruct (ParseWoxImage _).
Qed.

End RouterFacts.

(** C5 on the example world: disabling the first plugin, and a body
    without [id]. *)
Lemma handlePluginDisable_and_Enable_witness :
  let handler := ui.handlePluginDisable ui.exampleGetBytes (fun _ => None) in
  ((exists msg, fst (handler "" ui.exampleWorld) = ui.Error msg)
   /\ snd (handler "" ui.exampleWorld) = ui.exampleWorld)
  /\ ui.instances (snd (handler "p1" ui.exampleWorld)) !! 0%nat
     = Some (ui.exampleInstance "p1" true)
  /\ ui.instances (snd (handler "p1" ui.exampleWorld)) !! 1%nat
     = Some (ui.exampleInstance "p2" true).
Proof.
  intros handler. split.
  - apply (handlePluginDisable_and_Enable ui.exampleGetBytes (fun _ => None)
             true "" ui.exampleWorld).
    left. reflexivity.
  - destruct (handlePluginDisable_and_Enable ui.exampleGetBytes (fun _ => None)
                true "p1" ui.exampleWorld) as [_ H].
    destruct (H "p1" 0%nat (ui.exampleInstance "p1" false)) as (H0 & Hother & _).
    + reflexivity.
    + split; [eexists; split; reflexivity | intros j other Hlt; lia].
    + reflexivity.
    + split; [exact H0|]. exact (eq_trans (Hother 1%nat ltac:(discriminate)) eq_refl).
Defined.

(** C4 on the example world: a key other than "Disabled" and
    "TriggerKeywords", defined twice in the metadata. *)
Lemma handleSettingPluginUpdate_cases_witness :
  let disable := ui.handleSettingPluginUpdate ui.exampleDecode "p1,Disabled,true"
                   ui.exampleWorld in
  let keywords := ui.handleSettingPluginUpdate
                    (fun _ => inl {| ui.PluginId := "p2"; ui.Key := "TriggerKeywords";
                                     ui.Value_ := "wiki,w" |})
                    "" ui.exampleWorld in
  let other := ui.handleSettingPluginUpdate ui.exampleDecode "p2,dir,/home"
                 ui.exampleWorld in
  (fst disable = ui.Success (ui.DataString "")
   /\ ui.instances (snd disable) !! 0%nat = Some (ui.exampleInstance "p1" true)
   /\ ui.instances (snd disable) !! 1%nat = Some (ui.exampleInstance "p2" true)
   /\ ui.calls (snd disable)
      = [ui.Instance_SaveSetting "p1" (ui.Setting (ui.exampleInstance "p1" true))])
  /\ (fst keywords = ui.Success (ui.DataString "")
      /\ ui.instances (snd keywords) !! 0%nat = Some (ui.exampleInstance "p1" false)
      /\ (setting.TriggerKeywords <$> (ui.Setting <$> ui.instances (snd keywords) !! 1%nat))
         = Some ["wiki"; "w"]
      /\ (setting.Disabled <$> (ui.Setting <$> ui.instances (snd keywords) !! 1%nat))
         = Some true)
  /\ (fst other = ui.Success (ui.DataString "")
      /\ ui.instances (snd other) = ui.instances ui.exampleWorld
      /\ ui.calls (snd other) = [ui.API_SaveSetting "p2" "dir" "/home" true]).
Proof.
  intros disable keywords other. split; [|split].
  - destruct (handleSettingPluginUpdate_cases ui.exampleDecode "p1,Disabled,true"
                ui.exampleWorld
                {| ui.PluginId := "p1"; ui.Key := "Disabled"; ui.Value_ := "true" |}
                0%nat (ui.exampleInstance "p1" false))
      as (Hresponse & Hothers & Hdisabled & _).
    + reflexivity.
    + split; [eexists; split; reflexivity | intros j other' Hlt; lia].
    + reflexivity.
    + destruct (Hdisabled eq_refl) as [Hinstance Hcalls].
      split; [exact Hresponse|]. split; [exact Hinstance|].
      split; [exact (eq_trans (Hothers 1%nat ltac:(discriminate)) eq_refl) | exact Hcalls].
  - destruct (handleSettingPluginUpdate_cases
                (fun _ => inl {| ui.PluginId := "p2"; ui.Key := "TriggerKeywords";
                                 ui.Value_ := "wiki,w" |})
                "" ui.exampleWorld
                {| ui.PluginId := "p2"; ui.Key := "TriggerKeywords";
                   ui.Value_ := "wiki,w" |}
                1%nat (ui.exampleInstance "p2" true))
      as (Hresponse & Hothers & _ & Hkeywords & _).
    + reflexivity.
    + split; [eexists; split; reflexivity|].
      intros [|j] other' Hlt; [intros [= <-]; discriminate | lia].
    + reflexivity.
    + destruct (Hkeywords eq_refl) as [Hinstance _].
      split; [exact Hresponse|].
      split; [exact (eq_trans (Hothers 0%nat ltac:(discriminate)) eq_refl)|].
      subst keywords. cbv zeta in Hinstance. rewrite Hinstance.
      split; vm_compute; reflexivity.
  - destruct (handleSettingPluginUpdate_cases ui.exampleDecode "p2,dir,/home"
                ui.exampleWorld
                {| ui.PluginId := "p2"; ui.Key := "dir"; ui.Value_ := "/home" |}
                1%nat (ui.exampleInstance "p2" true))
      as (Hresponse & _ & _ & _ & Hother).
    + reflexivity.
    + split; [eexists; split; reflexivity|].
      intros [|j] other' Hlt; [intros [= <-]; discriminate | lia].
    + reflexivity.
    + destruct Hother as [Hinstances Hcalls]; [discriminate | discriminate |].
      split; [exact Hresponse|]. split; [exact Hinstances | exact Hcalls].
Defined.

(** C10 on the example world: a query for the first plugin. *)
Lemma handleQueryIcon_responses_witness :
  fst (ui.handleQueryIcon ui.exampleGetBytes
         (fun text => inl {| common.QueryType := "input"; common.QueryText := text;
                             common.QuerySelection := "" |})
         (fun plainQuery =>
            inl ({| plugin.RawQuery := common.QueryText plainQuery |},
                 Some (ui.exampleInstance "p1" false)))
         (fun icon => inl (plugin.NewWoxImageSvg icon))
         (fun iconImg _ => iconImg)
         "p1 hello" ui.exampleWorld)
  = ui.Success (ui.DataImage (plugin.NewWoxImageSvg "icon:p1")).
Proof.
  destruct (handleQueryIcon_responses ui.exampleGetBytes
              (fun text => inl {| common.QueryType := "input"; common.QueryText := text;
                                  common.QuerySelection := "" |})
              (fun plainQuery =>
                 inl ({| plugin.RawQuery := common.QueryText plainQuery |},
                      Some (ui.exampleInstance "p1" false)))
              (fun icon => inl (plugin.NewWoxImageSvg icon))
              (fun iconImg _ => iconImg)
              "p1 hello" ui.exampleWorld) as (H & _ & _).
  apply (H "p1 hello"
           {| common.QueryType := "input"; common.QueryText := "p1 hello";
              common.QuerySelection := "" |});
    reflexivity.
Defined.

(** [json.Valid] on a few texts: values of every kind, nesting and white
    space are accepted; a trailing comma, a number with a leading zero, an
    unfinished object and a control byte in a string are not. *)
Example json_Valid_examples :
  json.Valid "[]" = true
  /\ json.Valid "5" = true
  /\ json.Valid " -12.5e+3 " = true
  /\ json.Valid "null" = true
  /\ json.Valid "[1, [true, false], {}]" = true
  /\ json.Valid ("{" +:+ json.quote +:+ "QueryText" +:+ json.quote +:+ ": 5}") = true
  /\ json.Valid ("{" +:+ json.quote +:+ "a\n" +:+ json.quote +:+ ":["
                 +:+ json.quote +:+ "é" +:+ json.quote +:+ "]}") = true
  /\ json.Valid "" = false
  /\ json.Valid "[1,]" = false
  /\ json.Valid "01" = false
  /\ json.Valid "{" = false
  /\ json.Valid "[] []" = false
  /\ json.Valid (json.quote +:+ String (ascii_of_nat 10) json.quote) = false.
Proof. repeat split; vm_compute; reflexivity. Qed.

(** C10 as stated fails for a [query] member that is valid JSON without
    being an object.  For the request bodies [{"query":[]}] and
    [{"query":5}] the text of the member is [[]] and [5] (the stand-in for
    [gjson] used here hands the whole body over as that text); both are
    valid JSON, [json.Unmarshal] rejects both for the struct
    [common.PlainQuery], and the handler writes an error response.  So not
    every body whose [query] member is valid JSON gets a success
    response. *)
Lemma handleQueryIcon_rejects_valid_JSON :
  let Unmarshal_PlainQuery :=
    json.Unmarshal_struct "common.PlainQuery"
      {| common.QueryType := ""; common.QueryText := ""; common.QuerySelection := "" |}
      (fun _ => "invalid character")
      (fun text => inl {| common.QueryType := "input"; common.QueryText := text;
                          common.QuerySelection := "" |}) in
  let handler :=
    ui.handleQueryIcon ui.exampleGetBytes Unmarshal_PlainQuery
      (fun plainQuery =>
         inl ({| plugin.RawQuery := common.QueryText plainQuery |},
              Some (ui.exampleInstance "p1" false)))
      (fun icon => inl (plugin.NewWoxImageSvg icon))
      (fun iconImg _ => iconImg) in
  json.Valid "[]" = true
  /\ fst (handler "[]" ui.exampleWorld)
     = ui.Error "json: cannot unmarshal array into Go value of type common.PlainQuery"
  /\ json.Valid "5" = true
  /\ fst (handler "5" ui.exampleWorld)
     = ui.Error "json: cannot unmarshal number into Go value of type common.PlainQuery"
  /\ ~ (forall body text,
          ui.exampleGetBytes body "query" = Some text ->
          json.Valid text = true ->
          exists data, fst (handler body ui.exampleWorld) = ui.Success data).
Proof.
  intros Unmarshal_PlainQuery handler.
  do 4 (split; [vm_compute; reflexivity|]).
  intros H. destruct (H "[]" "[]" eq_refl eq_refl) as [data Hdata].
  vm_compute in Hdata. discriminate Hdata.
Qed.

(** ** Plugin settings and JSON *)

Section SettingFacts.
Import setting.

Lemma typeOfName_typeName (name : string) (t : PluginSettingType) :
  typeOfName name = Some t -> name = typeName t.
Proof.
  unfold typeOfName.
  repeat match goal with
         | |- context [String.eqb name ?s] => destruct (String.eqb_spec name s) as [->|_]
         end; by intros [= <-].
Qed.

Lemma typeName_typeOfName (t : PluginSettingType) : typeOfName (typeName t) = Some t.
Proof. by destruct t. Qed.

Lemma mapM_decodeString (ks : list string) :
  mapM decodeString (JString <$> ks) = Some ks.
Proof.
  induction ks as [|k ks IH]; [done|].
  rewrite fmap_cons. cbn [mapM]. simpl. by rewrite IH.
Qed.

Lemma mapM_decodeEntry (es : list (string * string)) :
  mapM decodeEntry (prod_map id JString <$> es) = Some es.
Proof.
  induction es as [|[k v] es IH]; [done|].
  rewrite fmap_cons. cbn [mapM]. simpl. by rewrite IH.
Qed.

Lemma UnmarshalItem_Type (j : JSON) (item : CustomizedPluginSetting) :
  UnmarshalItem j = Some item ->
  exists fs vs,
    j = JObject fs
    /\ member "Type" fs = Some (JString (typeName (Type_ item)))
    /\ member "Value" fs = Some (JObject vs)
    /\ forall k x l os,
         Value item = PluginSettingValueSelect k x l os ->
         decodeOptions vs = Some os.
Proof.
  destruct j as [| | | |?|fs]; try done. simpl.
  destruct (member "Type" fs) as [[| | |tn| |]|] eqn:Emt; try done.
  destruct (member "Value" fs) as [[| | | | |vs]|] eqn:Emv; try done.
  destruct (typeOfName tn) as [t|] eqn:Et; [|done]. simpl.
  apply typeOfName_typeName in Et as ->.
  intros H. exists fs, vs. split; [done|].
  destruct t; simpl in H;
    repeat match type of H with
           | context [stringField ?n vs] => destruct (stringField n vs); simpl in H
           | context [decodeOptions vs] => destruct (decodeOptions vs) eqn:Eo; simpl in H
           end;
    try done; injection H as <-; simpl; repeat split; try done.
  by intros ???? [= _ _ _ <-].
Qed.

Lemma GetValue_find (c : CustomizedPluginSettings) (key : string) :
  GetValue c key
  = match List.find (fun item => bool_decide (GetKey (Value item) = Some key)) c with
    | Some item => (storedValue (Value item), true)
    | None => ("", false)
    end.
Proof.
  induction c as [|item rest IH]; simpl; [done|].
  destruct (GetKey (Value item)) as [k|] eqn:Ek.
  - destruct (String.eqb_spec k key) as [->|Hne].
    + by rewrite bool_decide_eq_true_2.
    + rewrite bool_decide_eq_false_2; [done | congruence].
  - by rewrite bool_decide_eq_false_2.
Qed.

(** C6.  Unmarshalling an array of settings yields one item per element,
    in document order, each with the type named by its ["Type"] member and,
    for a select item, the options of its ["Options"] member in order;
    [GetValue k] returns the stored value of the first item whose key is
    [k]; marshalling a [PluginSetting] and unmarshalling the outcome gives
    back the [Disabled] flag and the entries of [CustomizedSettings].  The
    document of [TestUnMarshalPluginSettingItem] is decoded as the test
    expects. *)
Theorem plugin_setting_JSON :
  (forall js items,
      UnmarshalSettings (JArray js) = Some items ->
      Forall2
        (fun j item =>
           exists fs vs,
             j = JObject fs
             /\ member "Type" fs = Some (JString (typeName (Type_ item)))
             /\ member "Value" fs = Some (JObject vs)
             /\ forall k x l os,
                  Value item = PluginSettingValueSelect k x l os ->
                  decodeOptions vs = Some os
                  /\ forall ojs,
                       member "Options" vs = Some (JArray ojs) ->
                       Forall2 (fun oj o => decodeOption oj = Some o) ojs os)
        js items)
  /\ (forall c key,
        GetValue c key
        = match List.find (fun item => bool_decide (GetKey (Value item) = Some key)) c with
          | Some item => (storedValue (Value item), true)
          | None => ("", false)
          end)
  /\ (forall ps,
        exists ps',
          UnmarshalPluginSetting (MarshalPluginSetting ps) = Some ps'
          /\ Disabled ps' = Disabled ps
          /\ CustomizedSettings ps' = CustomizedSettings ps)
  /\ (exists settings,
        UnmarshalSettings testSettingsDocument = Some settings
        /\ Type_ <$> settings
           = [PluginSettingTypeHead; PluginSettingTypeTextBox; PluginSettingTypeCheckBox;
              PluginSettingTypeSelect; PluginSettingTypeNewLine; PluginSettingTypeLabel]
        /\ (Value <$> settings) !! 3%nat
           = Some (PluginSettingValueSelect "IndexPrograms" "true" "Index Programs: "
                     [ {| OptionLabel := "true"; OptionValue := "true" |};
                       {| OptionLabel := "false"; OptionValue := "false" |} ])
        /\ GetValue settings "IndexDirectories" = ("test;test1", true)).
Proof.
  split; [|split; [apply GetValue_find | split]].
  - intros js items H. simpl in H. apply mapM_Some in H.
    eapply Forall2_impl; [exact H|]. intros j item Hitem. simpl in Hitem.
    destruct (UnmarshalItem_Type j item Hitem) as (fs & vs & -> & Ht & Hv & Ho).
    exists fs, vs. split; [done|]. split; [done|]. split; [done|].
    intros k x l os Hselect. specialize (Ho k x l os Hselect).
    split; [done|]. intros ojs Hojs. unfold decodeOptions in Ho.
    rewrite Hojs in Ho. by apply mapM_Some in Ho.
  - intros ps. eexists. split.
    + unfold MarshalPluginSetting, UnmarshalPluginSetting. simpl.
      rewrite mapM_decodeString, mapM_decodeEntry. simpl. reflexivity.
    + simpl. split; [done|]. apply list_to_map_to_list.
  - eexists. split; [vm_compute; reflexivity|]. by vm_compute.
Qed.

End SettingFacts.

(** C6 on the values of [TestMarshalPluginSetting] and on the document of
    [TestUnMarshalPluginSettingItem]. *)
Lemma plugin_setting_JSON_witness :
  let ps := {| setting.Disabled := true;
               setting.TriggerKeywords := [];
               setting.CustomizedSettings :=
                 <["test" := "test"]> (<["test1" := "test"]> ∅) |} in
  (exists ps1,
      setting.UnmarshalPluginSetting (setting.MarshalPluginSetting ps) = Some ps1
      /\ setting.Disabled ps1 = true
      /\ size (setting.CustomizedSettings ps1) = 2%nat)
  /\ forall js settings,
       setting.testSettingsDocument = setting.JArray js ->
       setting.UnmarshalSettings (setting.JArray js) = Some settings ->
       length settings = 6%nat.
Proof.
  intros ps. destruct plugin_setting_JSON as (Hitems & _ & Hround & _). split.
  - destruct (Hround ps) as (ps1 & E & Hd & Hc).
    exists ps1. split; [exact E|]. rewrite Hd, Hc. split; [reflexivity|].
    vm_compute. reflexivity.
  - intros js settings Hdoc Hdecode.
    pose proof (Hitems js settings Hdecode) as H.
    apply Forall2_length in H. rewrite <- H.
    injection Hdoc as <-. reflexivity.
Defined.

(** * Further properties *)

(** ** Scanning strings *)

Lemma string_app_nil_l (s : string) : "" +:+ s = s.
Proof. reflexivity. Qed.

Lemma string_app_cons (c : ascii) (s1 s2 : string) :
  String c s1 +:+ s2 = String c (s1 +:+ s2).
Proof. reflexivity. Qed.

Lemma string_app_assoc (s1 s2 s3 : string) : (s1 +:+ s2) +:+ s3 = s1 +:+ (s2 +:+ s3).
Proof.
  induction s1 as [|c s1 IH]; [done|]. rewrite !string_app_cons. by f_equal.
Qed.

Lemma string_app_empty_r (s : string) : s +:+ "" = s.
Proof. induction s as [|c s IH]; [done|]. rewrite string_app_cons. by f_equal. Qed.

Lemma hasByte_app (c : ascii) (s1 s2 : string) :
  strings.hasByte c (s1 +:+ s2) = strings.hasByte c s1 || strings.hasByte c s2.
Proof.
  induction s1 as [|b s1 IH]; [done|]. rewrite string_app_cons.
  cbn [strings.hasByte]. by destruct (Ascii.eqb b c).
Qed.

Lemma HasPrefix_other_byte (b o : ascii) (s old : string) :
  Ascii.eqb b o = false -> strings.HasPrefix (String b s) (String o old) = false.
Proof.
  intros H. unfold strings.HasPrefix. cbn [String.prefix].
  destruct (ascii_dec o b) as [->|]; [|done]. by rewrite Ascii.eqb_refl in H.
Qed.

Lemma HasPrefix_self_app (old r : string) : strings.HasPrefix (old +:+ r) old = true.
Proof.
  unfold strings.HasPrefix. induction old as [|o old IH]; [by destruct r|].
  rewrite string_app_cons. cbn [String.prefix]. by destruct (ascii_dec o o).
Qed.

(** A stretch of text without the first byte of [old] is copied. *)
Lemma replaceScan_copy (o : ascii) (old new p r : string) :
  strings.hasByte o p = false ->
  strings.replaceScan (String o old) new 0 (p +:+ r)
  = p +:+ strings.replaceScan (String o old) new 0 r.
Proof.
  induction p as [|b p IH]; [done|]. cbn [strings.hasByte].
  destruct (Ascii.eqb b o) eqn:E; [done|]. intros H.
  rewrite !string_app_cons. cbn [strings.replaceScan].
  by rewrite (HasPrefix_other_byte _ _ _ _ E), IH.
Qed.

Lemma replaceScan_skip (old new k r : string) :
  strings.replaceScan old new (String.length k) (k +:+ r)
  = strings.replaceScan old new 0 r.
Proof.
  induction k as [|c k IH]; [done|]. rewrite string_app_cons.
  cbn [String.length strings.replaceScan]. exact IH.
Qed.

Lemma ReplaceAll_copy (o : ascii) (old new s : string) :
  strings.hasByte o s = false -> strings.ReplaceAll s (String o old) new = s.
Proof.
  intros H. unfold strings.ReplaceAll.
  rewrite <- (string_app_empty_r s) at 1. rewrite replaceScan_copy by done.
  cbn [strings.replaceScan]. apply string_app_empty_r.
Qed.

(** An occurrence of [old] after text without its first byte is replaced,
    and the scan goes on behind it. *)
Lemma ReplaceAll_occurrence (o : ascii) (old new p r : string) :
  strings.hasByte o p = false ->
  strings.ReplaceAll (p +:+ String o old +:+ r) (String o old) new
  = p +:+ new +:+ strings.ReplaceAll r (String o old) new.
Proof.
  intros H. unfold strings.ReplaceAll. rewrite replaceScan_copy by done. f_equal.
  rewrite string_app_cons. cbn [strings.replaceScan].
  rewrite <- string_app_cons, HasPrefix_self_app. f_equal.
  replace (String.length (String o old) - 1)%nat with (String.length old)
    by (cbn [String.length]; lia).
  apply replaceScan_skip.
Qed.

(** A token without the separator byte is the first token. *)
Lemma splitScan_first_token (c : ascii) (kw r : string) :
  strings.hasByte c kw = false ->
  strings.splitScan (String c "") 0 (kw +:+ r)
  = (kw +:+ fst (strings.splitScan (String c "") 0 r),
     snd (strings.splitScan (String c "") 0 r)).
Proof.
  induction kw as [|b kw IH].
  { rewrite !string_app_nil_l. by destruct (strings.splitScan _ 0 r). }
  cbn [strings.hasByte]. destruct (Ascii.eqb b c) eqn:E; [done|]. intros H.
  rewrite !string_app_cons. cbn [strings.splitScan].
  rewrite (HasPrefix_other_byte _ _ _ _ E), (IH H). done.
Qed.

Lemma Split_first_token (c : ascii) (kw r : string) :
  strings.hasByte c kw = false ->
  strings.Split (kw +:+ String c r) (String c "") = kw :: strings.Split r (String c "").
Proof.
  intros H. unfold strings.Split. rewrite (splitScan_first_token _ _ _ H).
  cbn [strings.splitScan].
  pose proof (HasPrefix_self_app (String c "") r) as Hp.
  change (String c "" +:+ r) with (String c r) in Hp. rewrite Hp.
  change (String.length (String c "") - 1)%nat with 0%nat.
  destruct (strings.splitScan (String c "") 0 r) as [t ts]. cbn [fst snd].
  by rewrite string_app_empty_r.
Qed.

Lemma Split_single_token (c : ascii) (kw : string) :
  strings.hasByte c kw = false -> strings.Split kw (String c "") = [kw].
Proof.
  intros H. unfold strings.Split.
  rewrite <- (string_app_empty_r kw) at 1. rewrite (splitScan_first_token _ _ _ H).
  cbn [strings.splitScan fst snd]. by rewrite string_app_empty_r.
Qed.

(** [strings.Split] with a non-empty separator returns at least one
    token. *)
Lemma Split_not_nil (s sep : string) : sep <> "" -> strings.Split s sep <> [].
Proof.
  intros Hsep. unfold strings.Split. destruct sep; [done|].
  by destruct (strings.splitScan _ 0 s).
Qed.

(** ** More on the web-search plugin *)

Section WebSearchMore.
Import plugin system.
Variables ToLower ToUpper : string -> string.

(** X1.  When the raw query is a keyword without a space, one space and a
    text, [Query] hands exactly this text, with all its spaces, to every
    entry it answers from; a raw query without any space gets nothing. *)
Theorem Query_keyword_then_text (r : WebSearchPlugin) (kw text : string) :
  strings.hasByte " " kw = false ->
  Query ToLower ToUpper r {| RawQuery := kw +:+ " " +:+ text |}
  = map (fun search => searchResult ToLower ToUpper search text)
        (List.filter
           (fun search =>
              Enabled search && negb (IsFallback search)
              && String.eqb (ToLower (Keyword search)) (ToLower kw))
           (webSearches r))
  /\ Query ToLower ToUpper r {| RawQuery := kw |} = [].
Proof.
  intros Hkw. rewrite !Query_tokens. cbn [RawQuery].
  rewrite (Split_single_token _ _ Hkw). split; [|done].
  change (kw +:+ " " +:+ text) with (kw +:+ String " " text).
  rewrite (Split_first_token _ _ _ Hkw).
  pose proof (Split_not_nil text " ") as Hne.
  destruct (strings.Split text " ") as [|second rest] eqn:E; [by destruct Hne|].
  rewrite <- E, Split_Join by done. done.
Qed.

(** X2.  A text without an opening brace holds no place holder and comes
    out of [replaceVariables] as it is, whatever the query. *)
Theorem replaceVariables_without_brace (text query : string) :
  strings.hasByte "{" text = false ->
  replaceVariables ToLower ToUpper text query = text.
Proof.
  intros H. unfold replaceVariables.
  rewrite (ReplaceAll_copy "{" "query}" _ text) by done.
  rewrite (ReplaceAll_copy "{" "lower_query}" _ text) by done.
  by rewrite (ReplaceAll_copy "{" "upper_query}" _ text).
Qed.

Lemma replaceScan_keep (old new : string) (b : ascii) (s : string) :
  strings.HasPrefix (String b s) old = false ->
  strings.replaceScan old new 0 (String b s)
  = String b (strings.replaceScan old new 0 s).
Proof. intros H. cbn [strings.replaceScan]. by rewrite H. Qed.

(** X3.  For a query that brings no opening brace (nor do its lower-case
    and upper-case forms), a text with one place holder between brace-free
    parts comes out with the place holder replaced: [{query}] by the query,
    [{lower_query}] by its lower-case form, [{upper_query}] by its
    upper-case form. *)
Theorem replaceVariables_one_placeholder (before after query : string) :
  strings.hasByte "{" before = false ->
  strings.hasByte "{" after = false ->
  strings.hasByte "{" query = false ->
  strings.hasByte "{" (ToLower query) = false ->
  strings.hasByte "{" (ToUpper query) = false ->
  replaceVariables ToLower ToUpper (before +:+ "{query}" +:+ after) query
  = before +:+ query +:+ after
  /\ replaceVariables ToLower ToUpper (before +:+ "{lower_query}" +:+ after) query
     = before +:+ ToLower query +:+ after
  /\ replaceVariables ToLower ToUpper (before +:+ "{upper_query}" +:+ after) query
     = before +:+ ToUpper query +:+ after.
Proof.
  intros Hb Ha Hq Hl Hu. unfold replaceVariables.
  assert (forall old new tail,
             strings.hasByte "{" tail = false ->
             strings.HasPrefix (String "{" (tail +:+ after)) (String "{" old) = false ->
             strings.ReplaceAll (before +:+ String "{" tail +:+ after) (String "{" old) new
             = before +:+ String "{" tail +:+ after) as Hkeep.
  { intros old new tail Ht Hp. unfold strings.ReplaceAll.
    rewrite replaceScan_copy by done. f_equal.
    rewrite string_app_cons, (replaceScan_keep _ _ _ _ Hp). f_equal.
    rewrite <- (string_app_empty_r (tail +:+ after)) at 1.
    rewrite replaceScan_copy by (by rewrite hasByte_app, Ht, Ha).
    cbn [strings.replaceScan]. apply string_app_empty_r. }
  assert (forall x, strings.hasByte "{" x = false ->
                    strings.hasByte "{" (before +:+ x +:+ after) = false) as Hfree.
  { intros x Hx. by rewrite !hasByte_app, Hb, Hx, Ha. }
  split; [|split].
  - rewrite (ReplaceAll_occurrence "{" "query}") by done.
    rewrite (ReplaceAll_copy "{" "query}" _ after) by done.
    rewrite (ReplaceAll_copy "{" "lower_query}") by (by apply Hfree).
    by rewrite (ReplaceAll_copy "{" "upper_query}") by (by apply Hfree).
  - rewrite (Hkeep "query}" query "lower_query}") by done.
    rewrite (ReplaceAll_occurrence "{" "lower_query}") by done.
    rewrite (ReplaceAll_copy "{" "lower_query}" _ after) by done.
    by rewrite (ReplaceAll_copy "{" "upper_query}") by (by apply Hfree).
  - rewrite (Hkeep "query}" query "upper_query}") by done.
    rewrite (Hkeep "lower_query}" (ToLower query) "upper_query}") by done.
    rewrite (ReplaceAll_occurrence "{" "upper_query}") by done.
    by rewrite (ReplaceAll_copy "{" "upper_query}" _ after) by done.
Qed.

End WebSearchMore.

(** X1 on an entry with keyword "g" and a text with a double space. *)
Lemma Query_keyword_then_text_witness :
  let entry := {| system.Urls := ["https://example.com/?q={query}"];
                  system.Title := "Search {query}";
                  system.Keyword := "g";
                  system.IsFallback := false;
                  system.Icon := plugin.zeroImage;
                  system.Enabled := true |} in
  system.Query strings.ToLower strings.ToUpper {| system.webSearches := [entry] |}
    {| plugin.RawQuery := "G rocq  prover" |}
  = [system.searchResult strings.ToLower strings.ToUpper entry "rocq  prover"].
Proof.
  intros entry.
  exact (proj1 (Query_keyword_then_text strings.ToLower strings.ToUpper
                  {| system.webSearches := [entry] |} "G" "rocq  prover" eq_refl)).
Defined.

(** X2 on a URL without place holder. *)
Lemma replaceVariables_without_brace_witness :
  system.replaceVariables strings.ToLower strings.ToUpper
    "https://example.com/search" "{query}"
  = "https://example.com/search".
Proof.
  exact (replaceVariables_without_brace strings.ToLower strings.ToUpper
           "https://example.com/search" "{query}" eq_refl).
Defined.

(** X3 on a URL template. *)
Lemma replaceVariables_one_placeholder_witness :
  system.replaceVariables strings.ToLower strings.ToUpper
    "https://example.com/?q={lower_query}&hl=en" "Rocq Prover"
  = "https://example.com/?q=rocq prover&hl=en".
Proof.
  exact (proj1 (proj2 (replaceVariables_one_placeholder strings.ToLower strings.ToUpper
                         "https://example.com/?q=" "&hl=en" "Rocq Prover"
                         eq_refl eq_refl eq_refl eq_refl eq_refl))).
Defined.

(** ** Indexing the icons of the web searches *)

Section IndexIconsFacts.
Import plugin system.
Variable webSearchIconSvg : string.
Variable getWebsiteIconWithCache : string -> WoxImage + string.
Variable Marshal_webSearches : list webSearch -> string + string.

Lemma slices_Sort_nil (l : list string) : slices_Sort l = [] <-> l = [].
Proof.
  split; [|by intros ->]. intros E.
  pose proof (slices_Sort_Permutation l) as Hp. rewrite E in Hp.
  by apply Permutation_nil in Hp.
Qed.

Lemma indexWebSearchIcon_panics (search : webSearch) :
  indexWebSearchIcon webSearchIconSvg getWebsiteIconWithCache search = None
  <-> Urls search = [].
Proof.
  unfold indexWebSearchIcon. rewrite <- slices_Sort_nil.
  destruct (slices_Sort (Urls search)) as [|url0 rest]; [done|].
  by destruct (getWebsiteIconWithCache url0).
Qed.

Lemma indexIconsLoop_panics (searches : list webSearch) :
  indexIconsLoop webSearchIconSvg getWebsiteIconWithCache searches = None
  <-> Exists (fun search => iconless search = true /\ Urls search = []) searches.
Proof.
  induction searches as [|search rest IH]; cbn [indexIconsLoop].
  - rewrite Exists_nil. split; [done | intros []].
  - rewrite Exists_cons, <- IH. fold (iconless search).
    destruct (iconless search) eqn:Ei.
    + destruct (indexWebSearchIcon _ _ search) as [[icon calls]|] eqn:Ew.
      * assert (Urls search <> []) as Hne.
        { intros H%indexWebSearchIcon_panics. by rewrite H in Ew. }
        destruct (indexIconsLoop _ _ rest) as [[[rest' b] calls']|].
        -- split; [done | intros [[_ H]|H]; done].
        -- split; [by right | done].
      * apply indexWebSearchIcon_panics in Ew. split; [by left | done].
    + destruct (indexIconsLoop _ _ rest) as [[[rest' b] calls']|].
      * split; [done | intros [[H _]|H]; done].
      * split; [by right | done].
Qed.

(** X4.  [indexIcons] panics exactly when some entry has neither an icon
    nor a URL. *)
Theorem indexIcons_panics (r : WebSearchPlugin) :
  indexIcons webSearchIconSvg getWebsiteIconWithCache Marshal_webSearches r = None
  <-> Exists (fun search => ImageType (Icon search) = "" /\ Urls search = [])
        (webSearches r).
Proof.
  unfold indexIcons.
  destruct (indexIconsLoop _ _ (webSearches r)) as [[[searches b] calls]|] eqn:E.
  - split.
    + destruct b; [destruct (Marshal_webSearches searches)|]; done.
    + intros H. assert (indexIconsLoop webSearchIconSvg getWebsiteIconWithCache
                          (webSearches r) = None) as E'; [|by rewrite E in E'].
      apply indexIconsLoop_panics. eapply Exists_impl; [exact H|].
      intros search [H1 H2]. split; [|done]. unfold iconless. by rewrite H1.
  - split; [|done]. intros _. apply indexIconsLoop_panics in E.
    eapply Exists_impl; [exact E|]. intros search [H1 H2]. split; [|done].
    by apply String.eqb_eq in H1.
Qed.

(** What the loop does to one entry. *)
Lemma indexIconsLoop_entries (searches : list webSearch) :
  forall searches' hasAnyIconIndexed calls,
    indexIconsLoop webSearchIconSvg getWebsiteIconWithCache searches
    = Some (searches', hasAnyIconIndexed, calls) ->
    hasAnyIconIndexed = existsb iconless searches
    /\ Forall2
         (fun before after =>
            if iconless before then
              Urls after = slices_Sort (Urls before)
              /\ Title after = Title before
              /\ Keyword after = Keyword before
              /\ IsFallback after = IsFallback before
              /\ Enabled after = Enabled before
              /\ exists url0 rest,
                   slices_Sort (Urls before) = url0 :: rest
                   /\ Icon after
                      = match getWebsiteIconWithCache url0 with
                        | inl img => img
                        | inr _ => webSearchIcon webSearchIconSvg
                        end
            else after = before)
         searches searches'.
Proof.
  induction searches as [|search rest IH]; intros searches' b calls;
    cbn [indexIconsLoop existsb].
  - intros [= <- <- <-]. split; [done | constructor].
  - fold (iconless search). destruct (iconless search) eqn:Ei.
    + destruct (indexWebSearchIcon _ _ search) as [[icon calls0]|] eqn:Ew; [|done].
      destruct (indexIconsLoop _ _ rest) as [[[rest' b'] calls']|]; [|done].
      intros [= <- <- <-]. destruct (IH _ _ _ eq_refl) as [_ Hrest].
      split; [done|]. constructor; [|done]. rewrite Ei. cbn.
      repeat split; try done.
      unfold indexWebSearchIcon in Ew.
      destruct (slices_Sort (Urls search)) as [|url0 urls]; [done|].
      exists url0, urls. split; [done|].
      destruct (getWebsiteIconWithCache url0); by injection Ew as <- _.
    + destruct (indexIconsLoop _ _ rest) as [[[rest' b'] calls']|]; [|done].
      intros [= <- <- <-]. destruct (IH _ _ _ eq_refl) as [-> Hrest].
      split; [done|]. constructor; [by rewrite Ei | done].
Qed.

(** X5.  When [indexIcons] returns, the plugin has the same entries in the
    same order; an entry that had an icon is as before; an entry that had
    none keeps its title, keyword and flags, has its [Urls] sorted (the sort
    works on the entry's own array), and has for icon the one fetched for
    the least URL, or the default icon when the fetch failed. *)
Theorem indexIcons_entries (r r' : WebSearchPlugin) (calls : list IndexCall) :
  indexIcons webSearchIconSvg getWebsiteIconWithCache Marshal_webSearches r
  = Some (r', calls) ->
  Forall2
    (fun before after =>
       if String.eqb (ImageType (Icon before)) "" then
         Urls after = slices_Sort (Urls before)
         /\ Urls after ≡ₚ Urls before
         /\ Title after = Title before
         /\ Keyword after = Keyword before
         /\ IsFallback after = IsFallback before
         /\ Enabled after = Enabled before
         /\ exists url0,
              head (Urls after) = Some url0
              /\ (forall u, u ∈ Urls before -> String.le url0 u)
              /\ Icon after
                 = match getWebsiteIconWithCache url0 with
                   | inl img => img
                   | inr _ => webSearchIcon webSearchIconSvg
                   end
       else after = before)
    (webSearches r) (webSearches r').
Proof.
  unfold indexIcons.
  destruct (indexIconsLoop _ _ (webSearches r)) as [[[searches b] evs]|] eqn:E; [|done].
  intros H. assert (webSearches r' = searches) as ->.
  { destruct b; [destruct (Marshal_webSearches searches)|]; by injection H as <- _. }
  destruct (indexIconsLoop_entries _ _ _ _ E) as [_ Hall].
  eapply Forall2_impl; [exact Hall|]. intros before after. unfold iconless.
  destruct (String.eqb _ _); [|done].
  intros (Hu & Ht & Hk & Hf & He & url0 & rest & Hs & Hi).
  repeat split; try done.
  - rewrite Hu. apply slices_Sort_Permutation.
  - exists url0. rewrite Hu, Hs. split; [done|]. split; [|done].
    by destruct (slices_Sort_head_least _ _ _ Hs).
Qed.

Lemma indexIconsLoop_nothing_to_do (searches : list webSearch) :
  Forall (fun search => ImageType (Icon search) <> "") searches ->
  indexIconsLoop webSearchIconSvg getWebsiteIconWithCache searches
  = Some (searches, false, []).
Proof.
  induction 1 as [|search rest Hs _ IH]; cbn [indexIconsLoop]; [done|].
  apply String.eqb_neq in Hs. by rewrite Hs, IH.
Qed.

(** X6.  [indexIcons] saves the entries, once and after all fetches, under
    the key "webSearches" and as a setting that is not platform specific,
    exactly when some entry had no icon (and the entries can be
    marshalled).  If no fetched icon has an empty type, every entry has an
    icon afterwards, and a second [indexIcons] changes nothing and makes no
    call. *)
Theorem indexIcons_saves_once (r r' : WebSearchPlugin) (calls : list IndexCall) :
  indexIcons webSearchIconSvg getWebsiteIconWithCache Marshal_webSearches r
  = Some (r', calls) ->
  (exists fetches : list Event,
      calls
      = (IconCall <$> fetches)
        ++ if existsb (fun search => String.eqb (ImageType (Icon search)) "") (webSearches r)
           then match Marshal_webSearches (webSearches r') with
                | inl marshal => [SaveSetting webSearchesSettingKey marshal false]
                | inr _ => []
                end
           else [])
  /\ ((forall url img, getWebsiteIconWithCache url = inl img -> ImageType img <> "") ->
      Forall (fun search => ImageType (Icon search) <> "") (webSearches r')
      /\ indexIcons webSearchIconSvg getWebsiteIconWithCache Marshal_webSearches r'
         = Some (r', [])).
Proof.
  intros H. unfold indexIcons in H.
  destruct (indexIconsLoop _ _ (webSearches r)) as [[[searches b] evs]|] eqn:E; [|done].
  destruct (indexIconsLoop_entries _ _ _ _ E) as [Hb Hentries].
  assert (webSearches r' = searches) as Hr'.
  { destruct b; [destruct (Marshal_webSearches searches)|]; by injection H as <- _. }
  split.
  - exists evs. fold iconless. rewrite <- Hb.
    destruct b; [destruct (Marshal_webSearches searches) eqn:Em|];
      injection H as <- <-; cbn [webSearches]; by rewrite ?Em, ?app_nil_r.
  - intros Hfetch.
    assert (Forall (fun search => ImageType (Icon search) <> "") (webSearches r')) as Hall.
    { rewrite Hr'. clear H E Hb Hr'.
      induction Hentries as [|before after l l' Hone _ IH]; [done|].
      constructor; [|done].
      destruct (iconless before) eqn:Ei.
      - destruct Hone as (_ & _ & _ & _ & _ & url0 & rest & _ & ->).
        destruct (getWebsiteIconWithCache url0) eqn:Ef; [by eapply Hfetch | done].
      - subst after. unfold iconless in Ei. by apply String.eqb_neq. }
    split; [done|]. unfold indexIcons.
    rewrite (indexIconsLoop_nothing_to_do _ Hall). by destruct r'.
Qed.

End IndexIconsFacts.

(** X4 on an entry without icon and without URL. *)
Lemma indexIcons_panics_witness :
  system.indexIcons "svg" (fun _ => inr "offline") system.exampleMarshal
    {| system.webSearches :=
         [system.exampleSearch "a" ["https://a.example"] system.examplePng;
          system.exampleSearch "b" [] plugin.zeroImage] |}
  = None.
Proof.
  apply (indexIcons_panics "svg" (fun _ => inr "offline") system.exampleMarshal).
  right. left. split; reflexivity.
Defined.

(** X5 on an entry with an icon and an entry without. *)
Lemma indexIcons_entries_witness :
  let r := {| system.webSearches :=
                [system.exampleSearch "a" ["https://z.example"; "https://a.example"]
                   system.examplePng;
                 system.exampleSearch "b" ["https://y.example"; "https://b.example"]
                   plugin.zeroImage] |} in
  exists r' calls after,
    system.indexIcons "svg" (fun _ => inr "offline") system.exampleMarshal r
    = Some (r', calls)
    /\ system.webSearches r' !! 1%nat = Some after
    /\ system.Urls after = ["https://b.example"; "https://y.example"]
    /\ system.Title after = "b"
    /\ system.Icon after = system.webSearchIcon "svg".
Proof.
  intros r.
  destruct (system.indexIcons "svg" (fun _ => inr "offline") system.exampleMarshal r)
    as [[r' calls]|] eqn:E; [|discriminate E].
  pose proof (indexIcons_entries "svg" (fun _ => inr "offline") system.exampleMarshal
                r r' calls E) as H.
  destruct (Forall2_lookup_l _ _ _ 1%nat _ H eq_refl) as (after & Hafter & Hone).
  cbn in Hone. destruct Hone as (Hu & _ & Ht & _ & _ & _ & url0 & _ & _ & Hi).
  exists r', calls, after. repeat split; try done.
Defined.

(** X6 on the same entries. *)
Lemma indexIcons_saves_once_witness :
  let r := {| system.webSearches :=
                [system.exampleSearch "a" ["https://z.example"; "https://a.example"]
                   system.examplePng;
                 system.exampleSearch "b" ["https://y.example"; "https://b.example"]
                   plugin.zeroImage] |} in
  exists r' calls,
    system.indexIcons "svg" (fun _ => inr "offline") system.exampleMarshal r
    = Some (r', calls)
    /\ last calls = Some (system.SaveSetting "webSearches" "a,b" false)
    /\ system.indexIcons "svg" (fun _ => inr "offline") system.exampleMarshal r'
       = Some (r', []).
Proof.
  intros r.
  destruct (system.indexIcons "svg" (fun _ => inr "offline") system.exampleMarshal r)
    as [[r' calls]|] eqn:E; [|discriminate E].
  destruct (indexIcons_saves_once "svg" (fun _ => inr "offline") system.exampleMarshal
              r r' calls E) as [_ Hagain].
  exists r', calls. split; [reflexivity|]. split.
  - vm_compute in E. injection E as _ <-. reflexivity.
  - apply Hagain. intros url img. discriminate.
Defined.

(** ** More on the AI-chat plugin *)

Section ChatMore.
Import plugin common chat.
Variable d : Deps.

Local Open Scope Z_scope.

Ltac run :=
  unfold bind, ret, call, getChats, setChats, clearResultChatIdMap,
    storeResultChatId, uuid_NewString; simpl.

#[local] Instance Z_ge_Transitive' : Transitive Z.ge.
Proof. intros x y z. lia. Qed.

(** *** Deleting *)

Lemma deleteChatAction_past_end (i : nat) (rawQuery : string) (s : State) :
  (length (chats s) <= i)%nat -> deleteChatAction d i rawQuery s = None.
Proof.
  intros H. unfold deleteChatAction.
  destruct (Nat.leb_spec (S i) (length (chats s))); [lia | done].
Qed.

Lemma deleteChatAction_deletes (i : nat) (rawQuery : string) (s s' : State) :
  deleteChatAction d i rawQuery s = Some s' -> chats s' = delete i (chats s).
Proof.
  intros H. destruct (chats s !! i) as [chat|] eqn:E.
  - destruct (deleteChatAction_removes d i rawQuery s chat E) as (s2 & E2 & Hc & _).
    congruence.
  - apply lookup_ge_None in E.
    by rewrite (deleteChatAction_past_end i rawQuery s E) in H.
Qed.

(** X7.  The [Delete Chat] closure panics exactly when its index is past
    the end of [r.chats] (so always on an empty list); otherwise the list
    gets one shorter. *)
Theorem deleteChatAction_bounds (i : nat) (rawQuery : string) (s : State) :
  (deleteChatAction d i rawQuery s = None <-> (length (chats s) <= i)%nat)
  /\ forall s', deleteChatAction d i rawQuery s = Some s' ->
                S (length (chats s')) = length (chats s).
Proof.
  unfold deleteChatAction.
  destruct (Nat.leb_spec (S i) (length (chats s))) as [Hle|Hgt].
  - split; [split; [done | lia]|].
    intros s' [= <-]. unfold saveChats. run.
    destruct (Marshal_chats d _); simpl;
      rewrite length_app, length_take, length_drop; lia.
  - split; [split; [lia | done] | done].
Qed.

Lemma StronglySorted_delete {A} (R : relation A) (l : list A) (i : nat) :
  StronglySorted R l -> StronglySorted R (delete i l).
Proof.
  intros H. destruct (l !! i) as [x|] eqn:E.
  - rewrite delete_take_drop. rewrite <- (take_drop_middle l i x E) in H.
    apply StronglySorted_app in H as (H12 & H1 & H2).
    apply StronglySorted_cons in H2 as [_ H2].
    apply StronglySorted_app. split; [|done].
    intros x1 x2 Hx1 Hx2. apply H12; [done | by right].
  - rewrite delete_take_drop, take_ge, drop_ge, app_nil_r;
      [done | | ]; apply lookup_ge_None in E; lia.
Qed.

(** X8.  Deleting keeps [r.chats] newest first and its ids distinct; with
    distinct ids the id of the deleted chat is gone from the list. *)
Theorem deleteChatAction_keeps_order (i : nat) (rawQuery : string) (s s' : State) :
  deleteChatAction d i rawQuery s = Some s' ->
  (newestFirst (chats s) -> newestFirst (chats s'))
  /\ (distinctIds (chats s) ->
      distinctIds (chats s')
      /\ forall chat, chats s !! i = Some chat ->
                      common.Id chat ∉ (common.Id <$> chats s')).
Proof.
  intros H. rewrite (deleteChatAction_deletes i rawQuery s s' H).
  unfold newestFirst, distinctIds. rewrite !list_fmap_delete. split.
  - intros Hs. apply StronglySorted_Sorted, StronglySorted_delete.
    by apply Sorted_StronglySorted; [apply _|].
  - intros Hn. split; [by apply (sublist_NoDup _ _ Hn), sublist_delete|].
    intros chat Hi.
    assert ((common.Id <$> chats s) !! i = Some (common.Id chat)) as Hi'
      by (by rewrite list_lookup_fmap, Hi).
    rewrite (delete_Permutation _ _ _ Hi') in Hn. by apply NoDup_cons in Hn as [? _].
Qed.

(** X9.  The closures index [r.chats] by position.  When two [Delete Chat]
    actions of the same results are run one after the other, for the chats
    at positions [i < j], the second removes the chat that followed the
    [j]-th one, which itself stays; when the [j]-th chat was the last, the
    second action panics. *)
Theorem deleteChatAction_twice (i j : nat) (rawQuery : string) (s s1 : State) :
  (i < j)%nat ->
  (j < length (chats s))%nat ->
  deleteChatAction d i rawQuery s = Some s1 ->
  chats s1 !! j = chats s !! S j
  /\ (S j = length (chats s) -> deleteChatAction d j rawQuery s1 = None)
  /\ forall s2,
       deleteChatAction d j rawQuery s1 = Some s2 ->
       chats s2 = delete j (delete i (chats s))
       /\ chats s2 !! (j - 1)%nat = chats s !! j.
Proof.
  intros Hij Hj H.
  pose proof (deleteChatAction_deletes i rawQuery s s1 H) as Hc1.
  split; [rewrite Hc1; apply list_lookup_delete_ge; lia|]. split.
  - intros Hlast. apply deleteChatAction_past_end.
    rewrite Hc1, length_delete; [lia|]. apply lookup_lt_is_Some. lia.
  - intros s2 H2.
    rewrite (deleteChatAction_deletes j rawQuery s1 s2 H2), Hc1. split; [done|].
    rewrite list_lookup_delete_lt by lia.
    rewrite list_lookup_delete_ge by lia. f_equal. lia.
Qed.


(** *** What [Query] leaves in the plugin *)

Lemma getDefaultModel_state (s : State) :
  exists m logs,
    getDefaultModel d s
    = (m, {| chats := chats s; resultChatIdMap := resultChatIdMap s;
             uuids := uuids s; calls := calls s ++ logs |})
    /\ Forall isErrorLog logs.
Proof.
  unfold getDefaultModel. destruct s as [cs m n c]. run.
  destruct (negb _); [destruct (Unmarshal_model d _)|]; run;
    try destruct cs; simpl; eexists;
    first [ exists []; split; [by rewrite app_nil_r | by constructor]
          | eexists [_]; split; [reflexivity | by repeat constructor; eexists] ].
Qed.

Lemma getNewChatPreviewData_state (s : State) :
  (exists logs,
     calls (snd (getNewChatPreviewData d s)) = calls s ++ logs
     /\ Forall isErrorLog logs)
  /\ ((fst (getNewChatPreviewData d s) = zeroResult
       /\ resultChatIdMap (snd (getNewChatPreviewData d s)) = resultChatIdMap s
       /\ uuids (snd (getNewChatPreviewData d s)) = S (uuids s))
      \/ (fst (getNewChatPreviewData d s) <> zeroResult
          /\ plugin.Id (fst (getNewChatPreviewData d s)) = NewString d (S (uuids s))
          /\ ContextData (fst (getNewChatPreviewData d s)) = NewString d (uuids s)
          /\ resultChatIdMap (snd (getNewChatPreviewData d s))
             = <[NewString d (uuids s) := NewString d (S (uuids s))]> (resultChatIdMap s)
          /\ uuids (snd (getNewChatPreviewData d s)) = S (S (uuids s)))).
Proof.
  unfold getNewChatPreviewData. run.
  match goal with
  | |- context [getDefaultModel d ?s1] =>
      destruct (getDefaultModel_state s1) as (m & logs & -> & Hlogs)
  end.
  simpl. destruct (Marshal_chat d _) as [previewData|err]; run.
  - split; [by exists logs|]. right. by repeat split.
  - split; [|by left].
    eexists (logs ++ [_]). rewrite app_assoc. split; [done|].
    apply Forall_app. split; [done|]. by repeat constructor; eexists.
Qed.

Lemma queryLoop_state (query : plugin.Query) (cs : list AIChatData) :
  forall i results s,
    exists emitted logs,
      fst (queryLoop d query i cs results s) = results ++ emitted
      /\ plugin.Id <$> emitted = NewString d <$> seq (uuids s) (length emitted)
      /\ uuids (snd (queryLoop d query i cs results s)) = (uuids s + length emitted)%nat
      /\ resultChatIdMap (snd (queryLoop d query i cs results s))
         = foldl (fun m r => <[ContextData r := plugin.Id r]> m) (resultChatIdMap s) emitted
      /\ Forall (fun r => r <> zeroResult) emitted
      /\ calls (snd (queryLoop d query i cs results s)) = calls s ++ logs
      /\ Forall isErrorLog logs.
Proof.
  induction cs as [|chat rest IH]; intros i results s; simpl.
  - exists [], []. rewrite !app_nil_r. run. by rewrite Nat.add_0_r.
  - destruct (Marshal_chat d chat) as [previewData|err]; run.
    + destruct (getResultGroup d chat) as [group groupScore] eqn:Eg.
      match goal with
      | |- context [queryLoop d query (S i) rest (results ++ [?r]) ?s'] =>
          destruct (IH (S i) (results ++ [r]) s')
            as (emitted & logs & E & Hid & Hu & Hm & Hz & Hc & Hl);
          exists (r :: emitted), logs
      end.
      simpl in *. rewrite E, Hu, Hm, Hc, <- app_assoc. 
      repeat split; try done; [by f_equal | by constructor].
    + match goal with
      | |- context [queryLoop d query (S i) rest results ?s'] =>
          destruct (IH (S i) results s')
            as (emitted & logs & E & Hid & Hu & Hm & Hz & Hc & Hl)
      end.
      simpl in *. eexists emitted, (_ :: logs). rewrite E, Hu, Hm, Hc, <- app_assoc.
      repeat split; try done. constructor; [by eexists | done].
Qed.


Lemma Query_state (query : plugin.Query) (s : State) :
  exists first emitted logs,
    fst (Query d query s) = first :: emitted
    /\ calls (snd (Query d query s)) = calls s ++ logs
    /\ Forall isErrorLog logs
    /\ Forall (fun r => r <> zeroResult) emitted
    /\ ((first = zeroResult
         /\ plugin.Id <$> emitted
            = NewString d <$> seq (S (uuids s)) (length emitted)
         /\ resultChatIdMap (snd (Query d query s))
            = foldl (fun m r => <[ContextData r := plugin.Id r]> m) ∅ emitted)
        \/ (first <> zeroResult
            /\ plugin.Id <$> first :: emitted
               = NewString d <$> seq (S (uuids s)) (S (length emitted))
            /\ resultChatIdMap (snd (Query d query s))
               = foldl (fun m r => <[ContextData r := plugin.Id r]> m) ∅
                   (first :: emitted)))
    /\ (first = zeroResult ->
        uuids (snd (Query d query s)) = (S (uuids s) + length emitted)%nat)
    /\ (first <> zeroResult ->
        uuids (snd (Query d query s)) = (S (S (uuids s)) + length emitted)%nat).
Proof.
  unfold Query. run.
  set (s1 := {| chats := chats s; resultChatIdMap := ∅;
                uuids := uuids s; calls := calls s |}).
  destruct (getNewChatPreviewData_state s1) as ((logs1 & Hc1 & Hl1) & Hnew).
  destruct (getNewChatPreviewData d s1) as [first s2]. simpl in Hc1, Hnew.
  destruct (queryLoop_state query (chats s2) 0 [first] s2)
    as (emitted & logs2 & E & Hid & Hu & Hm & Hz & Hc2 & Hl2).
  exists first, emitted, (logs1 ++ logs2).
  rewrite E, Hc2, Hc1, Hm, Hu, <- app_assoc.
  split; [done|]. split; [done|]. split; [by apply Forall_app|]. split; [done|].
  destruct Hnew as [(-> & Hm2 & Hu2) | (Hnz & Hi & Hk & Hm2 & Hu2)];
    rewrite Hu2 in Hid; rewrite Hm2, Hu2.
  - split; [by left|]. by split.
  - split; [|by split].
    right. split; [done|]. split; [rewrite Hi; f_equal; exact Hid|].
    by rewrite Hi, Hk.
Qed.

Lemma stored_lookup_other (l : list (QueryResult ChatClosure))
    (m : gmap string string) (k : string) :
  k ∉ ContextData <$> l ->
  foldl (fun m r => <[ContextData r := plugin.Id r]> m) m l !! k = m !! k.
Proof.
  revert m. induction l as [|r l IH]; intros m Hk; [done|]. simpl.
  rewrite fmap_cons, not_elem_of_cons in Hk. destruct Hk as [Hne Hk].
  rewrite IH by done. by rewrite lookup_insert_ne.
Qed.

Lemma stored_lookup (l : list (QueryResult ChatClosure))
    (m : gmap string string) (r : QueryResult ChatClosure) :
  NoDup (ContextData <$> l) -> r ∈ l ->
  foldl (fun m r => <[ContextData r := plugin.Id r]> m) m l !! ContextData r
  = Some (plugin.Id r).
Proof.
  revert m. induction l as [|r0 l IH]; intros m Hn Hr; [by apply elem_of_nil in Hr|].
  rewrite fmap_cons in Hn. apply NoDup_cons in Hn as [Hr0 Hn]. simpl.
  apply elem_of_cons in Hr as [-> | Hr]; [|by apply IH].
  rewrite stored_lookup_other by done. by rewrite lookup_insert_eq.
Qed.

Lemma stored_lookup_inv (l : list (QueryResult ChatClosure))
    (m : gmap string string) (k v : string) :
  foldl (fun m r => <[ContextData r := plugin.Id r]> m) m l !! k = Some v ->
  m !! k = Some v
  \/ exists r, r ∈ l /\ ContextData r = k /\ plugin.Id r = v.
Proof.
  revert m. induction l as [|r0 l IH]; intros m H; [by left|]. simpl in H.
  destruct (IH _ H) as [Hm | (r & Hr & Hk & Hv)].
  - destruct (decide (ContextData r0 = k)) as [Hk | Hk].
    + rewrite <- Hk, lookup_insert_eq in Hm. injection Hm as <-.
      right. exists r0. by rewrite elem_of_cons; auto.
    + rewrite lookup_insert_ne in Hm by done. by left.
  - right. exists r. rewrite elem_of_cons. auto.
Qed.

(** X10.  After [Query], [r.resultChatIdMap] speaks of the results just
    returned and of nothing else: every entry maps the [ContextData] (the
    chat id) of a returned result to that result's [Id], entries of
    earlier queries are gone, and when the returned results have distinct
    [ContextData], every result other than the empty one has its entry. *)
Theorem Query_fills_resultChatIdMap (query : plugin.Query) (s : State) :
  (forall chatId resultId,
     resultChatIdMap (snd (Query d query s)) !! chatId = Some resultId ->
     exists r, r ∈ fst (Query d query s)
               /\ ContextData r = chatId /\ plugin.Id r = resultId)
  /\ (NoDup (ContextData <$> fst (Query d query s)) ->
      forall r, r ∈ fst (Query d query s) -> r <> zeroResult ->
        resultChatIdMap (snd (Query d query s)) !! ContextData r
        = Some (plugin.Id r)).
Proof.
  destruct (Query_state query s)
    as (first & emitted & logs & -> & _ & _ & Hz & Hcases & _).
  destruct Hcases as [(-> & _ & ->) | (Hnz & _ & ->)]; split.
  - intros chatId resultId [H | (r & Hr & H)]%stored_lookup_inv; [done|].
    exists r. by rewrite elem_of_cons; auto.
  - intros Hn r Hr Hne. rewrite fmap_cons in Hn. apply NoDup_cons in Hn as [_ Hn].
    apply elem_of_cons in Hr as [-> | Hr]; [done|]. by apply stored_lookup.
  - intros chatId resultId [H | (r & Hr & H)]%stored_lookup_inv; [done|].
    by exists r.
  - intros Hn r Hr _. by apply stored_lookup.
Qed.

(** X11.  When [uuid.NewString] never repeats itself, the results of one
    [Query] have pairwise distinct ids: all of them when the new-chat result
    is there, all but the empty first one otherwise.  Every such id is a UUID
    drawn during this [Query], after the one drawn first for the id of the
    new chat.  [Query] draws that one and one more per result that carries
    an id. *)
Theorem Query_result_ids_distinct (query : plugin.Query) (s : State) :
  Inj (=) (=) (NewString d) ->
  exists first emitted,
    fst (Query d query s) = first :: emitted
    /\ NoDup (plugin.Id <$> emitted)
    /\ (first <> zeroResult -> NoDup (plugin.Id <$> fst (Query d query s)))
    /\ Forall (fun id => exists n, (uuids s < n < uuids (snd (Query d query s)))%nat
                                   /\ id = NewString d n)
         (plugin.Id <$> emitted)
    /\ (first <> zeroResult ->
        Forall (fun id => exists n, (uuids s < n < uuids (snd (Query d query s)))%nat
                                    /\ id = NewString d n)
          (plugin.Id <$> fst (Query d query s)))
    /\ (first = zeroResult ->
        uuids (snd (Query d query s)) = (uuids s + 1 + length emitted)%nat)
    /\ (first <> zeroResult ->
        uuids (snd (Query d query s))
        = (uuids s + 1 + length (fst (Query d query s)))%nat).
Proof.
  intros Hinj.
  destruct (Query_state query s)
    as (first & emitted & logs & E & _ & _ & Hz & Hcases & Hu0 & Hu1).
  exists first, emitted. split; [done|]. rewrite E.
  assert (forall k n, (uuids s < k)%nat ->
            (k + n <= uuids (snd (Query d query s)))%nat ->
            Forall (fun id => exists n, (uuids s < n < uuids (snd (Query d query s)))%nat
                                        /\ id = NewString d n)
              (NewString d <$> seq k n)) as Hdrawn.
  { intros k n Hk Hn. rewrite Forall_fmap, Forall_forall. intros i Hi. exists i.
    apply elem_of_seq in Hi. split; [lia | done]. }
  destruct Hcases as [(Hzero & Hid & _) | (Hnz & Hid & _)].
  - specialize (Hu0 Hzero). split; [|split; [done|split; [|split; [done|split; [|done]]]]].
    + rewrite Hid. apply NoDup_fmap_2; [done | apply NoDup_seq].
    + rewrite Hid. apply Hdrawn; lia.
    + intros _. lia.
  - specialize (Hu1 Hnz). assert (plugin.Id <$> emitted
            = NewString d <$> seq (S (S (uuids s))) (length emitted)) as Hid'
      by (by injection Hid).
    split; [|split; [|split; [|split; [|split; [done|]]]]].
    + rewrite Hid'. apply NoDup_fmap_2; [done | apply NoDup_seq].
    + intros _. rewrite Hid. apply NoDup_fmap_2; [done | apply NoDup_seq].
    + rewrite Hid'. apply Hdrawn; lia.
    + intros _. rewrite Hid. apply Hdrawn; lia.
    + intros _. simpl. lia.
Qed.

(** X12.  [Query] only reads the chats: [r.chats] is the same afterwards,
    and the only calls it makes on the API are error logs (for a default
    model or a chat that cannot be decoded or marshalled); it never saves a
    setting and never changes the query. *)
Theorem Query_only_reads (query : plugin.Query) :
  keepsChats (Query d query) /\ onlyLogs (Query d query).
Proof.
  split; [apply keepsChats_Query|].
  intros s. destruct (Query_state query s)
    as (first & emitted & logs & _ & Hc & Hl & _). by exists logs.
Qed.


(** *** Storing a chat *)

Lemma replaceChat_found (c : AIChatData) (cs : list AIChatData) (k : nat)
    (old : AIChatData) :
  list_find (fun x => common.Id x = common.Id c) cs = Some (k, old) ->
  replaceChat c cs = Some (<[k := c]> cs).
Proof.
  revert k. induction cs as [|x rest IH]; intros k; [done|]. simpl.
  case_decide as Hx.
  - intros [= <- <-]. apply String.eqb_eq in Hx. by rewrite Hx.
  - apply String.eqb_neq in Hx. rewrite Hx.
    destruct (list_find _ rest) as [[k' old']|]; [|done].
    intros [= <- <-]. by rewrite (IH k').
Qed.

Lemma replaceChat_Some (c : AIChatData) (cs cs' : list AIChatData) :
  replaceChat c cs = Some cs' ->
  common.Id <$> cs' = common.Id <$> cs /\ c ∈ cs' /\ length cs' = length cs.
Proof.
  revert cs'. induction cs as [|x rest IH]; intros cs'; [done|]. simpl.
  destruct (String.eqb_spec (common.Id x) (common.Id c)) as [Hx|Hx].
  - intros [= <-]. rewrite !fmap_cons, Hx. split; [done|]. split; [left | done].
  - destruct (replaceChat c rest) as [rest'|]; [|done]. intros [= <-].
    destruct (IH rest' eq_refl) as (Hids & Hin & Hlen).
    rewrite !fmap_cons, Hids. simpl. split; [done|]. split; [by right | by rewrite Hlen].
Qed.

Lemma replaceChat_None (c : AIChatData) (cs : list AIChatData) :
  replaceChat c cs = None <-> common.Id c ∉ common.Id <$> cs.
Proof.
  induction cs as [|x rest IH]; cbn [replaceChat].
  - split; [intros _ H; by apply elem_of_nil in H | done].
  - rewrite fmap_cons, not_elem_of_cons.
    destruct (String.eqb_spec (common.Id x) (common.Id c)) as [Hx|Hx].
    + split; [done | by intros [? _]].
    + destruct (replaceChat c rest); simpl.
      * split; [done|]. intros [_ H]. by apply IH in H.
      * split; [|done]. intros _. split; [done | by apply IH].
Qed.

Lemma Chat_store_state (aiChatData : AIChatData) (s : State) :
  chats (snd (Chat_store d aiChatData s))
  = match replaceChat (withResponseConversation d (uuids s) aiChatData) (chats s) with
    | Some cs' => cs'
    | None => sort_Slice d (fun ci cj => UpdatedAt cj <? UpdatedAt ci)
                (chats s ++ [withResponseConversation d (uuids s) aiChatData])
    end
  /\ calls (snd (Chat_store d aiChatData s))
     = calls s ++ [saveCall d (chats (snd (Chat_store d aiChatData s)))].
Proof.
  unfold Chat_store, saveChats, saveCall, withResponseConversation. run.
  destruct (replaceChat _ (chats s)) as [l|]; run;
    match goal with
    | |- context [match Marshal_chats d ?l with _ => _ end _] =>
        destruct (Marshal_chats d l) eqn:E
    end; simpl; by rewrite E.
Qed.

(** X13.  [Chat] stores the chat it is given, with an empty answer of the AI
    appended to its conversations.  When [r.chats] has a chat with this id,
    the first such chat is overwritten in place and nothing moves; when it
    has none, the chat is added and the list is sorted again, newest first.
    Either way the chat is in the list afterwards, distinct ids stay
    distinct, and the list is saved once. *)
Theorem Chat_stores_the_chat (aiChatData : AIChatData) (s : State) :
  sorts (sort_Slice d) ->
  (forall k old,
     list_find (fun x => common.Id x = common.Id aiChatData) (chats s) = Some (k, old) ->
     chats (snd (Chat_store d aiChatData s))
     = <[k := withResponseConversation d (uuids s) aiChatData]> (chats s))
  /\ (common.Id aiChatData ∉ common.Id <$> chats s ->
      chats (snd (Chat_store d aiChatData s))
        ≡ₚ withResponseConversation d (uuids s) aiChatData :: chats s
      /\ newestFirst (chats (snd (Chat_store d aiChatData s))))
  /\ withResponseConversation d (uuids s) aiChatData
       ∈ chats (snd (Chat_store d aiChatData s))
  /\ (distinctIds (chats s) -> distinctIds (chats (snd (Chat_store d aiChatData s))))
  /\ calls (snd (Chat_store d aiChatData s))
     = calls s ++ [saveCall d (chats (snd (Chat_store d aiChatData s)))].
Proof.
  intros Hsort. destruct (Chat_store_state aiChatData s) as [Hc Hcalls].
  split; [|split; [|split; [|split; [|done]]]]; rewrite Hc; clear Hc Hcalls.
  - intros k old Hfind. by rewrite (replaceChat_found _ _ k old).
  - intros Hnew.
    rewrite (proj2 (replaceChat_None (withResponseConversation d (uuids s) aiChatData)
                      (chats s))) by done.
    destruct (Hsort (fun ci cj : AIChatData => UpdatedAt cj <? UpdatedAt ci)
                (chats s ++ [withResponseConversation d (uuids s) aiChatData])
                (byUpdatedAt_strictWeakOrder)) as [Hp Hs].
    split; [by rewrite Hp, Permutation_app_comm|].
    unfold newestFirst. eapply Sorted_fmap; [|exact Hs].
    intros a b. unfold notAfter. rewrite Z.ltb_ge. lia.
  - destruct (replaceChat _ (chats s)) as [cs'|] eqn:E.
    + by apply replaceChat_Some in E as (_ & Hin & _).
    + destruct (Hsort (fun ci cj : AIChatData => UpdatedAt cj <? UpdatedAt ci)
                  (chats s ++ [withResponseConversation d (uuids s) aiChatData])
                  (byUpdatedAt_strictWeakOrder)) as [Hp _].
      rewrite Hp, elem_of_app, list_elem_of_singleton. by right.
  - unfold distinctIds. intros Hn.
    destruct (replaceChat _ (chats s)) as [cs'|] eqn:E.
    + apply replaceChat_Some in E as (Hids & _). by rewrite Hids.
    + destruct (Hsort (fun ci cj : AIChatData => UpdatedAt cj <? UpdatedAt ci)
                  (chats s ++ [withResponseConversation d (uuids s) aiChatData])
                  (byUpdatedAt_strictWeakOrder)) as [Hp _].
      rewrite Hp, fmap_app, Permutation_app_comm. simpl.
      apply NoDup_cons. split; [|done]. by apply replaceChat_None in E.
Qed.

End ChatMore.
(** ** Summarizing a chat *)

Section SummarizeFacts.
Import plugin common chat.
Variable d : Deps.
Variable ConversationRoleUser : string.
Variable summaryPrompt : string.
Variable AIChatStream :
  common.Model -> list Conversation -> list (ChatStreamDataType * string).

Ltac run :=
  unfold bind, ret, call, getChats, setChats, clearResultChatIdMap,
    storeResultChatId, uuid_NewString; simpl.

Lemma setTitle_fields (chatId title : string) (cs : list AIChatData) :
  common.Id <$> setTitle chatId title cs = common.Id <$> cs
  /\ UpdatedAt <$> setTitle chatId title cs = UpdatedAt <$> cs.
Proof.
  induction cs as [|c rest [IH1 IH2]]; [done|]. cbn [setTitle].
  destruct (String.eqb _ _); [done|]. by rewrite !fmap_cons, IH1, IH2.
Qed.

Lemma setTitle_setTitle (chatId t1 t2 : string) (cs : list AIChatData) :
  setTitle chatId t2 (setTitle chatId t1 cs) = setTitle chatId t2 cs.
Proof.
  induction cs as [|c rest IH]; [done|]. cbn [setTitle].
  destruct (String.eqb (common.Id c) chatId) eqn:E; cbn [setTitle]; simpl; rewrite E;
    [done | by rewrite IH].
Qed.

Lemma setTitle_found (chatId title : string) (cs : list AIChatData) (k : nat)
    (c : AIChatData) :
  list_find (fun x => common.Id x = chatId) cs = Some (k, c) ->
  setTitle chatId title cs = <[k := withTitle title c]> cs.
Proof.
  revert k. induction cs as [|x rest IH]; intros k; [done|]. simpl.
  case_decide as Hx.
  - intros [= <- <-]. apply String.eqb_eq in Hx. by rewrite Hx.
  - apply String.eqb_neq in Hx. rewrite Hx.
    destruct (list_find _ rest) as [[k' c']|]; [|done].
    intros [= <- <-]. by rewrite (IH k').
Qed.

Lemma setTitle_missing (chatId title : string) (cs : list AIChatData) :
  chatId ∉ common.Id <$> cs -> setTitle chatId title cs = cs.
Proof.
  induction cs as [|x rest IH]; [done|]. rewrite fmap_cons, not_elem_of_cons.
  intros [Hx Hrest]. cbn [setTitle].
  destruct (String.eqb_spec (common.Id x) chatId); [done | by rewrite IH].
Qed.

Lemma titleText_cons (chunk : ChatStreamDataType * string)
    (chunks : list (ChatStreamDataType * string)) :
  titleText (chunk :: chunks)
  = (if isText chunk then snd chunk else "") +:+ titleText chunks.
Proof.
  unfold titleText. simpl. destruct (isText chunk); [done|].
  by rewrite string_app_nil_l.
Qed.

Lemma titleText_app (pre post : list (ChatStreamDataType * string)) :
  titleText (pre ++ post) = titleText pre +:+ titleText post.
Proof.
  induction pre as [|chunk pre IH]; [by rewrite string_app_nil_l|].
  by rewrite <- app_comm_cons, !titleText_cons, IH, string_app_assoc.
Qed.

Lemma runCallbacks_cons (chat : AIChatData) (chunk : ChatStreamDataType * string)
    (chunks : list (ChatStreamDataType * string)) (run0 : SummaryRun) :
  runCallbacks d chat (chunk :: chunks) run0
  = runCallbacks d chat chunks (summarizeCallback d chat run0 (fst chunk) (snd chunk)).
Proof. done. Qed.

Lemma runCallbacks_app (chat : AIChatData)
    (pre post : list (ChatStreamDataType * string)) (run0 : SummaryRun) :
  runCallbacks d chat (pre ++ post) run0
  = runCallbacks d chat post (runCallbacks d chat pre run0).
Proof. apply fold_left_app. Qed.

Lemma summarizeCallback_finished (chat : AIChatData) (run0 : SummaryRun) (data : string) :
  summarizeCallback d chat run0 ChatStreamTypeFinished data
  = {| title := title run0 +:+ data;
       pluginState :=
         {| chats := setTitle (common.Id chat) (title run0 +:+ data)
                       (chats (pluginState run0));
            resultChatIdMap := resultChatIdMap (pluginState run0);
            uuids := uuids (pluginState run0);
            calls := calls (pluginState run0)
                     ++ [ Log LogLevelInfo ("chat stream data: " +:+ data);
                          Log LogLevelInfo
                            ("Summarized chat title: " +:+ (title run0 +:+ data));
                          saveCall d (setTitle (common.Id chat) (title run0 +:+ data)
                                        (chats (pluginState run0))) ] |};
       uiCalls :=
         uiCalls run0
         ++ match resultChatIdMap (pluginState run0) !! common.Id chat with
            | Some resultId => [UpdateResult resultId (title run0 +:+ data)]
            | None => []
            end |}.
Proof.
  unfold summarizeCallback, saveChats, saveCall. run.
  destruct (Marshal_chats d _); simpl; by rewrite <- !app_assoc.
Qed.

Lemma runCallbacks_title (chat : AIChatData) (chunks : list (ChatStreamDataType * string)) :
  forall run0,
    title (runCallbacks d chat chunks run0) = title run0 +:+ titleText chunks.
Proof.
  induction chunks as [|[t data] chunks IH]; intros run0.
  - by rewrite string_app_empty_r.
  - rewrite runCallbacks_cons, IH, titleText_cons.
    destruct t; simpl; by rewrite ?string_app_assoc, ?string_app_nil_l.
Qed.

Lemma runCallbacks_frame (chat : AIChatData) (chunks : list (ChatStreamDataType * string)) :
  forall run0,
    resultChatIdMap (pluginState (runCallbacks d chat chunks run0))
    = resultChatIdMap (pluginState run0)
    /\ uuids (pluginState (runCallbacks d chat chunks run0)) = uuids (pluginState run0)
    /\ (chats (pluginState (runCallbacks d chat chunks run0)) = chats (pluginState run0)
        \/ exists t, chats (pluginState (runCallbacks d chat chunks run0))
                     = setTitle (common.Id chat) t (chats (pluginState run0)))
    /\ (resultChatIdMap (pluginState run0) !! common.Id chat = None ->
        uiCalls (runCallbacks d chat chunks run0) = uiCalls run0).
Proof.
  induction chunks as [|[t data] chunks IH]; intros run0.
  - repeat split; auto.
  - rewrite runCallbacks_cons.
    destruct (IH (summarizeCallback d chat run0 (fst (t, data)) (snd (t, data))))
      as (Hm & Hu & Hc & Hui).
    rewrite Hm, Hu. cbn [fst snd] in *.
    destruct t; try (by repeat split; auto).
    rewrite summarizeCallback_finished in *. cbn [pluginState resultChatIdMap uuids chats uiCalls] in *.
    repeat split.
    + right. destruct Hc as [-> | [t ->]]; [by eexists|].
      rewrite setTitle_setTitle. by eexists.
    + intros Hnone. rewrite (Hui Hnone), Hnone. by rewrite app_nil_r.
Qed.

Lemma runCallbacks_quiet (chat : AIChatData) (chunks : list (ChatStreamDataType * string)) :
  existsb isFinished chunks = false ->
  forall run0,
    chats (pluginState (runCallbacks d chat chunks run0)) = chats (pluginState run0)
    /\ uiCalls (runCallbacks d chat chunks run0) = uiCalls run0
    /\ exists logs,
         calls (pluginState (runCallbacks d chat chunks run0))
         = calls (pluginState run0) ++ logs
         /\ Forall isInfoLog logs.
Proof.
  induction chunks as [|[t data] chunks IH]; intros Hq run0.
  - repeat split. exists []. by rewrite app_nil_r.
  - cbn [existsb] in Hq. apply orb_false_iff in Hq as [Ht Hq].
    rewrite runCallbacks_cons.
    destruct (IH Hq (summarizeCallback d chat run0 (fst (t, data)) (snd (t, data))))
      as (Hc & Hui & logs & Hl & Hinfo).
    rewrite Hc, Hui, Hl.
    destruct t; try discriminate Ht;
      (repeat split; eexists (_ :: logs); simpl; rewrite <- app_assoc;
       (split; [done | constructor; [by eexists | done]])).
Qed.

Lemma summarizeChat_unfold (chat : AIChatData) (s : State) :
  summarizeChat d ConversationRoleUser summaryPrompt AIChatStream chat s
  = runCallbacks d chat
      (AIChatStream (ChatModel chat)
         (summaryRequest d ConversationRoleUser summaryPrompt (uuids s) chat))
      {| title := "";
         pluginState :=
           {| chats := chats s; resultChatIdMap := resultChatIdMap s;
              uuids := S (uuids s);
              calls := calls s
                       ++ [Log LogLevelInfo ("Summarizing chat: " +:+ common.Id chat)] |};
         uiCalls := [] |}.
Proof. done. Qed.

Lemma summarizeChat_finished (chat : AIChatData) (s : State)
    (pre post : list (ChatStreamDataType * string)) (data : string) :
  AIChatStream (ChatModel chat)
    (summaryRequest d ConversationRoleUser summaryPrompt (uuids s) chat)
  = pre ++ (ChatStreamTypeFinished, data) :: post ->
  existsb isFinished post = false ->
  exists before after calledBefore,
    chats (pluginState
             (summarizeChat d ConversationRoleUser summaryPrompt AIChatStream chat s))
    = setTitle (common.Id chat) (titleText pre +:+ data) (chats s)
    /\ calls (pluginState
                (summarizeChat d ConversationRoleUser summaryPrompt AIChatStream chat s))
       = before
         ++ saveCall d (setTitle (common.Id chat) (titleText pre +:+ data) (chats s))
            :: after
    /\ Forall isInfoLog after
    /\ uiCalls (summarizeChat d ConversationRoleUser summaryPrompt AIChatStream chat s)
       = calledBefore
         ++ match resultChatIdMap s !! common.Id chat with
            | Some resultId => [UpdateResult resultId (titleText pre +:+ data)]
            | None => []
            end
    /\ (resultChatIdMap s !! common.Id chat = None -> calledBefore = []).
Proof.
  intros Hstream Hpost.
  rewrite summarizeChat_unfold, Hstream, runCallbacks_app, runCallbacks_cons.
  cbn [fst snd].
  match goal with
  | |- context [runCallbacks d chat pre ?r] => set (run0 := r)
  end.
  pose proof (runCallbacks_title chat pre run0) as Ht.
  destruct (runCallbacks_frame chat pre run0) as (Hm & _ & Hc & Hui).
  set (run1 := runCallbacks d chat pre run0) in *.
  rewrite summarizeCallback_finished.
  match goal with
  | |- context [runCallbacks d chat post ?r] =>
      destruct (runCallbacks_quiet chat post Hpost r) as (Hc2 & Hui2 & logs & Hl2 & Hinfo)
  end.
  rewrite Hc2, Hui2, Hl2. cbn [pluginState chats uiCalls calls].
  rewrite Ht, Hm. cbn [title pluginState resultChatIdMap]. rewrite string_app_nil_l.
  assert (setTitle (common.Id chat) (titleText pre +:+ data) (chats (pluginState run1))
          = setTitle (common.Id chat) (titleText pre +:+ data) (chats s)) as ->.
  { destruct Hc as [-> | [t ->]]; [done | by rewrite setTitle_setTitle]. }
  eexists (calls (pluginState run1) ++ [_; _]), logs, (uiCalls run1).
  split; [done|]. split; [by rewrite <- !app_assoc|]. split; [done|]. split; [done|].
  intros Hnone. by rewrite (Hui Hnone).
Qed.

(** X14.  When the stream of [summarizeChat] ends with a finished chunk, the
    title is the text of the streamed chunks followed by that of the finished
    one.  The first chat of [r.chats] with the id of the summarized chat gets
    this title and nothing else of the list changes (nothing at all when no
    chat has the id); the list is saved; and the UI is told the new title
    exactly when [r.resultChatIdMap] has a result for the chat. *)
Theorem summarizeChat_sets_title (chat : AIChatData) (s : State)
    (pre post : list (ChatStreamDataType * string)) (data : string) :
  AIChatStream (ChatModel chat)
    (summaryRequest d ConversationRoleUser summaryPrompt (uuids s) chat)
  = pre ++ (ChatStreamTypeFinished, data) :: post ->
  existsb isFinished post = false ->
  chats (pluginState (summarizeChat d ConversationRoleUser summaryPrompt AIChatStream chat s))
  = setTitle (common.Id chat) (titleText pre +:+ data) (chats s)
  /\ (forall k c,
        list_find (fun x => common.Id x = common.Id chat) (chats s) = Some (k, c) ->
        chats (pluginState
                 (summarizeChat d ConversationRoleUser summaryPrompt AIChatStream chat s))
        = <[k := withTitle (titleText pre +:+ data) c]> (chats s))
  /\ (common.Id chat ∉ common.Id <$> chats s ->
      chats (pluginState
               (summarizeChat d ConversationRoleUser summaryPrompt AIChatStream chat s))
      = chats s)
  /\ saveCall d (chats (pluginState
        (summarizeChat d ConversationRoleUser summaryPrompt AIChatStream chat s)))
     ∈ calls (pluginState
          (summarizeChat d ConversationRoleUser summaryPrompt AIChatStream chat s))
  /\ (forall resultId,
        resultChatIdMap s !! common.Id chat = Some resultId ->
        last (uiCalls
                (summarizeChat d ConversationRoleUser summaryPrompt AIChatStream chat s))
        = Some (UpdateResult resultId (titleText pre +:+ data)))
  /\ (resultChatIdMap s !! common.Id chat = None ->
      uiCalls (summarizeChat d ConversationRoleUser summaryPrompt AIChatStream chat s)
      = []).
Proof.
  intros Hstream Hpost.
  destruct (summarizeChat_finished chat s pre post data Hstream Hpost)
    as (before & after & calledBefore & Hc & Hcalls & _ & Hui & Hnone).
  rewrite Hc, Hcalls, Hui. split; [done|]. split; [|split; [|split; [|split]]].
  - intros k c Hfind. by apply setTitle_found.
  - apply setTitle_missing.
  - rewrite elem_of_app, elem_of_cons. auto.
  - intros resultId ->. by rewrite last_snoc.
  - intros Hn. by rewrite Hn, (Hnone Hn).
Qed.

(** X15.  When the stream of [summarizeChat] has no finished chunk (it
    failed, or was cut short), nothing is summarized: [r.chats] is as before,
    nothing is saved, the UI is not called, and all the plugin did is write
    information logs and draw one UUID. *)
Theorem summarizeChat_without_finish (chat : AIChatData) (s : State) :
  existsb isFinished
    (AIChatStream (ChatModel chat)
       (summaryRequest d ConversationRoleUser summaryPrompt (uuids s) chat)) = false ->
  chats (pluginState (summarizeChat d ConversationRoleUser summaryPrompt AIChatStream chat s))
  = chats s
  /\ uiCalls (summarizeChat d ConversationRoleUser summaryPrompt AIChatStream chat s) = []
  /\ uuids (pluginState
              (summarizeChat d ConversationRoleUser summaryPrompt AIChatStream chat s))
     = S (uuids s)
  /\ exists logs,
       calls (pluginState
                (summarizeChat d ConversationRoleUser summaryPrompt AIChatStream chat s))
       = calls s ++ logs
       /\ Forall isInfoLog logs.
Proof.
  intros Hq. rewrite summarizeChat_unfold.
  match goal with
  | |- context [runCallbacks d chat ?chunks ?r] =>
      destruct (runCallbacks_quiet chat chunks Hq r) as (Hc & Hui & logs & Hl & Hinfo);
      destruct (runCallbacks_frame chat chunks r) as (_ & Hu & _)
  end.
  rewrite Hc, Hui, Hu, Hl. repeat split.
  eexists (_ :: logs). cbn [pluginState calls]. rewrite <- app_assoc.
  split; [done|]. constructor; [by eexists | done].
Qed.

End SummarizeFacts.

(** *** The further chat properties on runs *)

Lemma deleteChatAction_keeps_order_witness :
  let d := chat.exampleDeps 1700000000000 [] in
  let s := chat.exampleState
             [chat.exampleChat "a" 1699999999000;
              chat.exampleChat "b" 1699999998000;
              chat.exampleChat "c" 1699999997000] in
  exists s',
    chat.deleteChatAction d 1 "chat " s = Some s'
    /\ chat.newestFirst (chat.chats s')
    /\ chat.distinctIds (chat.chats s')
    /\ "b" ∉ common.Id <$> chat.chats s'.
Proof.
  intros d s. eexists. split; [reflexivity|].
  destruct (deleteChatAction_keeps_order d 1 "chat " s _ eq_refl) as [Hs Hd].
  split.
  - apply Hs. unfold chat.newestFirst. simpl. repeat constructor; lia.
  - destruct Hd as [Hd Hgone].
    + unfold chat.distinctIds. simpl.
      apply (bool_decide_unpack _). vm_compute. reflexivity.
    + split; [exact Hd|]. exact (Hgone (chat.exampleChat "b" 1699999998000) eq_refl).
Defined.

Lemma deleteChatAction_twice_witness :
  let d := chat.exampleDeps 1700000000000 [] in
  let s := chat.exampleState
             [chat.exampleChat "a" 1699999999000;
              chat.exampleChat "b" 1699999998000;
              chat.exampleChat "c" 1699999997000;
              chat.exampleChat "d" 1699999996000] in
  exists s1 s2,
    chat.deleteChatAction d 0 "chat " s = Some s1
    /\ chat.deleteChatAction d 1 "chat " s1 = Some s2
    /\ common.Id <$> chat.chats s2 = ["b"; "d"]
    /\ chat.chats s2 !! 0%nat = chat.chats s !! 1%nat.
Proof.
  intros d s. eexists. eexists. split; [reflexivity|]. split; [reflexivity|].
  split; [vm_compute; reflexivity|].
  destruct (deleteChatAction_twice d 0 1 "chat " s _ ltac:(lia) ltac:(simpl; lia) eq_refl)
    as (_ & _ & Hsecond).
  destruct (Hsecond _ eq_refl) as [_ Hstays]. exact Hstays.
Defined.

Lemma NewString_example_inj (now : Z) (stored : list common.AIChatData) :
  Inj (=) (=) (chat.NewString (chat.exampleDeps now stored)).
Proof.
  intros m n H. simpl in H. apply (inj pretty).
  by apply (inj (String.append "uuid-")) in H.
Qed.

Lemma Query_fills_resultChatIdMap_witness :
  let d := chat.exampleDeps 1700000000000 [] in
  let s := chat.exampleState
             [chat.exampleChat "a" 1699999999000;
              chat.exampleChat "b" 1699999998000] in
  chat.resultChatIdMap (snd (chat.Query d {| plugin.RawQuery := "chat " |} s)) !! "b"
  = Some "uuid-3".
Proof.
  intros d s.
  pose (query := {| plugin.RawQuery := "chat " |}).
  pose (result := nth 2 (fst (chat.Query d query s)) (chat.zeroResult)).
  destruct (Query_fills_resultChatIdMap d query s) as [_ Hentry].
  apply (Hentry ltac:(apply (bool_decide_unpack _); vm_compute; reflexivity) result).
  - apply (list_elem_of_lookup_2 _ 2). vm_compute. reflexivity.
  - discriminate.
Defined.

Lemma Query_result_ids_distinct_witness :
  let d := chat.exampleDeps 1700000000000 [] in
  let s := chat.exampleState
             [chat.exampleChat "a" 1699999999000;
              chat.exampleChat "b" 1699999998000] in
  plugin.Id <$> fst (chat.Query d {| plugin.RawQuery := "chat " |} s)
  = ["uuid-1"; "uuid-2"; "uuid-3"]
  /\ NoDup (plugin.Id <$> fst (chat.Query d {| plugin.RawQuery := "chat " |} s))
  /\ chat.uuids (snd (chat.Query d {| plugin.RawQuery := "chat " |} s)) = 4%nat.
Proof.
  intros d s. split; [vm_compute; reflexivity|].
  destruct (Query_result_ids_distinct d {| plugin.RawQuery := "chat " |} s
              (NewString_example_inj _ _))
    as (first & emitted & E & _ & Hall & _ & _ & _ & Hcount).
  assert (first <> chat.zeroResult) as Hnz.
  { intros Hzero. rewrite Hzero in E. vm_compute in E. discriminate E. }
  split; [exact (Hall Hnz)|]. rewrite (Hcount Hnz). vm_compute. reflexivity.
Defined.

Lemma Chat_stores_the_chat_witness :
  let d := chat.exampleDeps 1700000000000 [] in
  let s := chat.exampleState
             [chat.exampleChat "a" 1699999999000;
              chat.exampleChat "b" 1699999998000] in
  common.Id <$> chat.chats (snd (chat.Chat_store d (chat.exampleChat "b" 1700000000000) s))
  = ["a"; "b"]
  /\ common.Id <$> chat.chats (snd (chat.Chat_store d (chat.exampleChat "c" 1700000000000) s))
     = ["c"; "a"; "b"]
  /\ chat.newestFirst
       (chat.chats (snd (chat.Chat_store d (chat.exampleChat "c" 1700000000000) s))).
Proof.
  intros d s.
  assert (chat.sorts (chat.sort_Slice d)) as Hsort by apply merge_sort_sorts.
  destruct (Chat_stores_the_chat d (chat.exampleChat "b" 1700000000000) s Hsort)
    as (Hfound & _).
  destruct (Chat_stores_the_chat d (chat.exampleChat "c" 1700000000000) s Hsort)
    as (_ & Hnew & _).
  split; [|split].
  - rewrite (Hfound 1%nat (chat.exampleChat "b" 1699999998000) eq_refl). reflexivity.
  - vm_compute. reflexivity.
  - apply Hnew. simpl. apply (bool_decide_unpack _). vm_compute. reflexivity.
Defined.

Lemma summarizeChat_sets_title_witness :
  let d := chat.exampleDeps 1700000000000 [] in
  let s := {| chat.chats := [chat.exampleChat "a" 1699999999000;
                             chat.exampleChat "b" 1699999998000];
              chat.resultChatIdMap := {[ "b" := "uuid-3" ]};
              chat.uuids := 4;
              chat.calls := [] |} in
  let stream := fun (_ : common.Model) (_ : list common.Conversation) =>
                  [ (chat.ChatStreamTypeStreaming, "Trip ");
                    (chat.ChatStreamTypeStreaming, "to ");
                    (chat.ChatStreamTypeFinished, "Rome") ] in
  common.Title <$> chat.chats (chat.pluginState
      (chat.summarizeChat d "user" "Please summarize" stream
         (chat.exampleChat "b" 1699999998000) s))
  = ["a"; "Trip to Rome"]
  /\ chat.uiCalls (chat.summarizeChat d "user" "Please summarize" stream
                     (chat.exampleChat "b" 1699999998000) s)
     = [chat.UpdateResult "uuid-3" "Trip to Rome"].
Proof.
  intros d s stream.
  destruct (summarizeChat_sets_title d "user" "Please summarize" stream
              (chat.exampleChat "b" 1699999998000) s
              [ (chat.ChatStreamTypeStreaming, "Trip ");
                (chat.ChatStreamTypeStreaming, "to ") ]
              [] "Rome" eq_refl eq_refl) as (Hchats & _).
  split; [rewrite Hchats|]; vm_compute; reflexivity.
Defined.

Lemma summarizeChat_without_finish_witness :
  let d := chat.exampleDeps 1700000000000 [] in
  let s := chat.exampleState [chat.exampleChat "a" 1699999999000] in
  let stream := fun (_ : common.Model) (_ : list common.Conversation) =>
                  [ (chat.ChatStreamTypeStreaming, "Tri");
                    (chat.ChatStreamTypeError, "connection reset") ] in
  chat.chats (chat.pluginState
      (chat.summarizeChat d "user" "Please summarize" stream
         (chat.exampleChat "a" 1699999999000) s))
  = chat.chats s
  /\ chat.uiCalls (chat.summarizeChat d "user" "Please summarize" stream
                     (chat.exampleChat "a" 1699999999000) s)
     = [].
Proof.
  intros d s stream.
  destruct (summarizeChat_without_finish d "user" "Please summarize" stream
              (chat.exampleChat "a" 1699999999000) s eq_refl) as (Hchats & Hui & _).
  split; [exact Hchats | exact Hui].
Defined.

(** ** More on the router *)

Lemma splitScan_tokens (c : ascii) (s : string) :
  forall t ts,
    strings.splitScan (String c "") 0 s = (t, ts) ->
    strings.hasByte c t = false /\ Forall (fun k => strings.hasByte c k = false) ts.
Proof.
  induction s as [|b s IH]; intros t ts; cbn [strings.splitScan].
  - intros [= <- <-]. by split.
  - change (String.length (String c "") - 1)%nat with 0%nat.
    destruct (strings.splitScan (String c "") 0 s) as [t' ts'].
    destruct (IH t' ts' eq_refl) as [Ht Hts].
    destruct (Ascii.eqb_spec b c) as [-> | Hb].
    + pose proof (HasPrefix_self_app (String c "") s) as Hp.
      change (String c "" +:+ s) with (String c s) in Hp. rewrite Hp.
      intros [= <- <-]. split; [done | by constructor].
    + apply Ascii.eqb_neq in Hb. rewrite HasPrefix_other_byte by done.
      intros [= <- <-]. split; [|done]. cbn [strings.hasByte]. by rewrite Hb.
Qed.

Section RouterMore.
Import plugin ui.
Variable gjson_GetBytes : string -> string -> option string.
Variable SaveSetting_error : Instance -> option string.
Variable Decode_keyValuePair : string -> keyValuePair + string.

Lemma lo_Find_insert {A} (p : A -> bool) (x' : A) (l : list A) :
  forall start k x,
    lo_Find p start l = Some (k, x) ->
    p x' = true ->
    exists j, k = (start + j)%nat /\ lo_Find p start (<[j := x']> l) = Some (k, x').
Proof.
  induction l as [|a l IH]; intros start k x; [done|]. cbn [lo_Find].
  destruct (p a) eqn:Ea.
  - intros [= <- <-] Hp. exists 0%nat. split; [lia|]. simpl. by rewrite Hp.
  - intros H Hp. destruct (IH (S start) k x H Hp) as (j & -> & Hj).
    exists (S j). split; [lia|]. simpl. by rewrite Ea.
Qed.

Lemma handlePluginToggle_found (disable : bool) (body pluginId : string) (w : World)
    (k : nat) (findPlugin : Instance) :
  gjson_GetBytes body "id" = Some pluginId ->
  lo_Find (fun item => String.eqb (Id (InstanceMetadata item)) pluginId) 0 (instances w)
  = Some (k, findPlugin) ->
  snd (handlePluginToggle gjson_GetBytes SaveSetting_error disable body w)
  = {| instances :=
         <[k := withSetting (withDisabled disable (Setting findPlugin)) findPlugin]>
           (instances w);
       calls := calls w
                ++ [Instance_SaveSetting (Id (InstanceMetadata findPlugin))
                      (withDisabled disable (Setting findPlugin))] |}.
Proof.
  intros Hid Hfind.
  destruct disable; unfold handlePluginToggle, handlePluginDisable, handlePluginEnable;
    rewrite Hid, Hfind; cbv zeta; by destruct (SaveSetting_error _).
Qed.

Lemma handlePluginToggle_not_found (disable : bool) (body : string) (w : World) :
  gjson_GetBytes body "id" = None
  \/ (exists pluginId,
        gjson_GetBytes body "id" = Some pluginId
        /\ lo_Find (fun item => String.eqb (Id (InstanceMetadata item)) pluginId) 0
             (instances w) = None) ->
  snd (handlePluginToggle gjson_GetBytes SaveSetting_error disable body w) = w.
Proof.
  intros [Hid | (pluginId & Hid & Hfind)];
    destruct disable; unfold handlePluginToggle, handlePluginDisable, handlePluginEnable;
    rewrite Hid; [done | done | by rewrite Hfind | by rewrite Hfind].
Qed.

(** X16.  Of two calls of the disable and enable endpoints with the same
    body, the later one decides: the instances are as if only the second
    call had been made.  So disabling twice is disabling once and enabling
    after disabling is enabling.  On a plugin that already is in the state
    asked for, the instances do not change at all, yet its setting is saved
    again. *)
Theorem handlePluginToggle_last_wins (first second : bool) (body : string) (w : World) :
  instances (snd (handlePluginToggle gjson_GetBytes SaveSetting_error second body
                    (snd (handlePluginToggle gjson_GetBytes SaveSetting_error first
                            body w))))
  = instances (snd (handlePluginToggle gjson_GetBytes SaveSetting_error second body w))
  /\ forall pluginId k findPlugin,
       gjson_GetBytes body "id" = Some pluginId ->
       firstWithId pluginId k (instances w) ->
       instances w !! k = Some findPlugin ->
       setting.Disabled (Setting findPlugin) = second ->
       instances (snd (handlePluginToggle gjson_GetBytes SaveSetting_error second body w))
       = instances w
       /\ calls (snd (handlePluginToggle gjson_GetBytes SaveSetting_error second body w))
          = calls w ++ [Instance_SaveSetting pluginId (Setting findPlugin)].
Proof.
  split.
  - destruct (gjson_GetBytes body "id") as [pluginId|] eqn:Hid.
    2:{ assert (forall b, snd (handlePluginToggle gjson_GetBytes SaveSetting_error b body w)
                          = w) as Hsame
          by (intros b; apply handlePluginToggle_not_found; by left).
        by rewrite !Hsame. }
    destruct (lo_Find (fun item => String.eqb (Id (InstanceMetadata item)) pluginId) 0
                (instances w)) as [[k p]|] eqn:Hfind.
    2:{ assert (forall b, snd (handlePluginToggle gjson_GetBytes SaveSetting_error b body w)
                          = w) as Hsame
          by (intros b; apply handlePluginToggle_not_found; right; by exists pluginId).
        by rewrite !Hsame. }
    rewrite (handlePluginToggle_found first body pluginId w k p Hid Hfind).
    rewrite (handlePluginToggle_found second body pluginId w k p Hid Hfind).
    pose proof Hfind as Hp. apply lo_Find_Some in Hp as (j & _ & _ & Hp & _).
    destruct (lo_Find_insert _ (withSetting (withDisabled first (Setting p)) p)
                _ 0%nat k p Hfind Hp) as (j' & Hj' & Hfind1).
    simpl in Hj'. subst j'.
    match goal with
    | |- context [handlePluginToggle _ _ second body ?w1] =>
        rewrite (handlePluginToggle_found second body pluginId w1 k _ Hid Hfind1)
    end.
    cbn [instances]. by rewrite list_insert_insert_eq.
  - intros pluginId k findPlugin Hid Hfirst Hk Hstate.
    destruct (lo_Find_firstWithId pluginId (instances w) k Hfirst)
      as (item & Hitem & Hitemid & Hfind).
    assert (item = findPlugin) as -> by congruence.
    rewrite (handlePluginToggle_found second body pluginId w k findPlugin Hid Hfind).
    cbn [instances calls].
    assert (withDisabled second (Setting findPlugin) = Setting findPlugin) as ->.
    { rewrite <- Hstate. by destruct (Setting findPlugin). }
    assert (withSetting (Setting findPlugin) findPlugin = findPlugin) as ->
      by (by destruct findPlugin).
    by rewrite list_insert_id, Hitemid.
Qed.

(** X17.  A plugin-setting update with the key "Disabled" leaves the same
    instances and calls as the disable endpoint (for the value "true") or
    the enable endpoint (for every other value) called for the same plugin
    id.  The responses are the same too when the setting can be saved; when
    it cannot, the update still answers with success. *)
Theorem handleSettingPluginUpdate_Disabled_is_toggle
    (body body' : string) (w : World) (kv : keyValuePair) :
  Decode_keyValuePair body = inl kv ->
  Key kv = "Disabled" ->
  gjson_GetBytes body' "id" = Some (PluginId kv) ->
  snd (handleSettingPluginUpdate Decode_keyValuePair body w)
  = snd (handlePluginToggle gjson_GetBytes SaveSetting_error
           (String.eqb (Value_ kv) "true") body' w)
  /\ ((forall item, SaveSetting_error item = None) ->
      fst (handleSettingPluginUpdate Decode_keyValuePair body w)
      = fst (handlePluginToggle gjson_GetBytes SaveSetting_error
               (String.eqb (Value_ kv) "true") body' w))
  /\ forall msg, fst (handleSettingPluginUpdate Decode_keyValuePair body w) = Error msg ->
                 msg = "can't find plugin".
Proof.
  intros Hdecode Hkey Hid.
  unfold handleSettingPluginUpdate. rewrite Hdecode, Hkey. cbv zeta.
  destruct (lo_Find (fun item => String.eqb (Id (InstanceMetadata item)) (PluginId kv)) 0
              (instances w)) as [[k p]|] eqn:Hfind.
  - rewrite (handlePluginToggle_found _ body' (PluginId kv) w k p Hid Hfind).
    change (String.eqb "Disabled" "Disabled") with true. cbv iota.
    split; [done|]. split; [|done].
    intros Hsave.
    destruct (String.eqb (Value_ kv) "true");
      unfold handlePluginToggle, handlePluginDisable, handlePluginEnable;
      rewrite Hid, Hfind; cbv zeta; by rewrite Hsave.
  - rewrite handlePluginToggle_not_found by eauto.
    split; [done|]. split; [|by intros msg [= <-]].
    intros _.
    destruct (String.eqb (Value_ kv) "true");
      unfold handlePluginToggle, handlePluginDisable, handlePluginEnable;
      by rewrite Hid, Hfind.
Qed.

(** X18.  [handleSettingPluginUpdate] answers with an error exactly when the
    body cannot be decoded or no instance has the plugin id, and then
    touches nothing.  Whatever the body, it never adds, removes or reorders
    instances, never changes their metadata or directory, and makes at most
    one call. *)
Theorem handleSettingPluginUpdate_errors_and_frame (body : string) (w : World) :
  ((exists msg, fst (handleSettingPluginUpdate Decode_keyValuePair body w) = Error msg)
   <-> (exists err, Decode_keyValuePair body = inr err)
       \/ exists kv, Decode_keyValuePair body = inl kv
                     /\ Forall (fun item => Id (InstanceMetadata item) <> PluginId kv)
                          (instances w))
  /\ ((exists msg, fst (handleSettingPluginUpdate Decode_keyValuePair body w) = Error msg) ->
      snd (handleSettingPluginUpdate Decode_keyValuePair body w) = w)
  /\ InstanceMetadata <$> instances (snd (handleSettingPluginUpdate Decode_keyValuePair body w))
     = InstanceMetadata <$> instances w
  /\ PluginDirectory <$> instances (snd (handleSettingPluginUpdate Decode_keyValuePair body w))
     = PluginDirectory <$> instances w
  /\ exists made,
       calls (snd (handleSettingPluginUpdate Decode_keyValuePair body w)) = calls w ++ made
       /\ (length made <= 1)%nat.
Proof.
  unfold handleSettingPluginUpdate.
  destruct (Decode_keyValuePair body) as [kv|err] eqn:Hdecode.
  2:{ simpl. split; [split; [intros _; left; by exists err | intros _; by exists err]|].
      split; [done|]. split; [done|].
      split; [done|]. exists []. split; [by rewrite app_nil_r | simpl; lia]. }
  destruct (lo_Find (fun item => String.eqb (Id (InstanceMetadata item)) (PluginId kv)) 0
              (instances w)) as [[k p]|] eqn:Hfind.
  - assert (instances w !! k = Some p) as Hk.
    { apply lo_Find_Some in Hfind as (j & -> & Hj & _). exact Hj. }
    assert (forall s, InstanceMetadata <$> <[k := withSetting s p]> (instances w)
                      = InstanceMetadata <$> instances w) as Hmeta.
    { intros s. rewrite list_fmap_insert. apply list_insert_id.
      by rewrite list_lookup_fmap, Hk. }
    assert (forall s, PluginDirectory <$> <[k := withSetting s p]> (instances w)
                      = PluginDirectory <$> instances w) as Hdir.
    { intros s. rewrite list_fmap_insert. apply list_insert_id.
      by rewrite list_lookup_fmap, Hk. }
    cbv zeta.
    assert (~ Forall (fun item => Id (InstanceMetadata item) <> PluginId kv) (instances w))
      as Hsome.
    { intros Hall. by rewrite (lo_Find_no_id _ _ Hall) in Hfind. }
    destruct (String.eqb (Key kv) "Disabled"); [|destruct (String.eqb (Key kv) "TriggerKeywords")];
      cbn [fst snd instances calls];
      (split; [split; [by intros [msg [=]]
                      | intros [[err [=]] | (kv' & [= <-] & Hall)]; by destruct Hsome]|]);
      (split; [by intros [msg [=]]|]);
      (split; [by rewrite ?Hmeta|]); (split; [by rewrite ?Hdir|]);
      eexists [_]; (split; [done | simpl; lia]).
  - split; [split; [intros _; right; exists kv; split; [done|] | by eauto]|].
    + apply lo_Find_None in Hfind. eapply Forall_impl; [exact Hfind|].
      intros item Hitem. by apply String.eqb_neq.
    + split; [done|]. split; [done|]. split; [done|]. exists []. split; [by rewrite app_nil_r | simpl; lia].
Qed.

(** X19.  After an update of "TriggerKeywords" the plugin has at least one
    trigger keyword, no keyword has a comma, and the keywords joined by
    commas are the value sent.  An empty value leaves the one keyword that
    is empty. *)
Theorem handleSettingPluginUpdate_TriggerKeywords
    (body : string) (w : World) (kv : keyValuePair) (k : nat) :
  Decode_keyValuePair body = inl kv ->
  Key kv = "TriggerKeywords" ->
  firstWithId (PluginId kv) k (instances w) ->
  exists pluginInstance,
    instances (snd (handleSettingPluginUpdate Decode_keyValuePair body w)) !! k
    = Some pluginInstance
    /\ setting.TriggerKeywords (Setting pluginInstance) <> []
    /\ Forall (fun keyword => strings.hasByte "," keyword = false)
         (setting.TriggerKeywords (Setting pluginInstance))
    /\ strings.Join (setting.TriggerKeywords (Setting pluginInstance)) "," = Value_ kv
    /\ (Value_ kv = "" -> setting.TriggerKeywords (Setting pluginInstance) = [""]).
Proof.
  intros Hdecode Hkey Hfirst.
  destruct (lo_Find_firstWithId _ _ _ Hfirst) as (p & Hk & _ & Hfind).
  unfold handleSettingPluginUpdate. rewrite Hdecode, Hfind, Hkey. cbv zeta.
  change (String.eqb "TriggerKeywords" "Disabled") with false.
  change (String.eqb "TriggerKeywords" "TriggerKeywords") with true.
  cbv iota. cbn [snd instances].
  eexists. split; [apply list_lookup_insert_eq; by eapply lookup_lt_Some|].
  cbn [withSetting Setting withTriggerKeywords setting.TriggerKeywords].
  split; [by apply Split_not_nil|]. split; [|split; [by apply Split_Join|]].
  - unfold strings.Split.
    destruct (strings.splitScan "," 0 (Value_ kv)) as [t ts] eqn:E.
    apply splitScan_tokens in E as [Ht Hts]. by constructor.
  - by intros ->.
Qed.

End RouterMore.

(** *** Handlers over lists *)

Section ListHandlerFacts.
Import plugin ui.
Variable DoctorCheckResult : Type.
Variable Status : DoctorCheckResult -> bool.
Variable Provider : Type.
Variable NewProvider : AIProvider -> Provider + string.
Variable Models : Provider -> list common.Model + string.
Variable PluginDto : Type.
Variable convertPluginInstanceToDto : Instance -> PluginDto + string.

Lemma allPassedLoop_forallb (results : list DoctorCheckResult) :
  allPassedLoop DoctorCheckResult Status results = forallb Status results.
Proof.
  induction results as [|result rest IH]; [done|]. simpl.
  by destruct (Status result).
Qed.

(** X20.  [handleDoctorCheck] always answers with success; the data is
    [true] exactly when every check passed (so also when there is no check
    at all) and [false] exactly when some check failed. *)
Theorem handleDoctorCheck_all_passed (results : list DoctorCheckResult) :
  (handleDoctorCheck DoctorCheckResult Status results = Ok true
   <-> Forall (fun result => Status result = true) results)
  /\ (handleDoctorCheck DoctorCheckResult Status results = Ok false
      <-> Exists (fun result => Status result = false) results)
  /\ forall msg, handleDoctorCheck DoctorCheckResult Status results <> Fail msg.
Proof.
  unfold handleDoctorCheck. rewrite allPassedLoop_forallb.
  split; [|split; [|done]].
  - induction results as [|result rest IH]; simpl.
    + by split.
    + rewrite Forall_cons. destruct (Status result); simpl.
      * rewrite IH. split; [by split | by intros [_ ?]].
      * split; [done | by intros [? _]].
  - induction results as [|result rest IH]; simpl.
    + split; [done | by intros ?%Exists_nil].
    + rewrite Exists_cons. destruct (Status result); simpl.
      * rewrite IH. split; [by right | by intros [? | ?]].
      * split; [by left | done].
Qed.

Lemma fold_left_snoc {A} (l acc : list A) :
  fold_left (fun rs m => rs ++ [m]) l acc = acc ++ l.
Proof.
  revert acc. induction l as [|x l IH]; intros acc; simpl; [by rewrite app_nil_r|].
  by rewrite IH, <- app_assoc.
Qed.

Lemma aiModelsLoop_collects (providers : list AIProvider) :
  forall results,
    fst (aiModelsLoop Provider NewProvider Models providers results)
    = results ++ concat (omap (modelsOf NewProvider Models) providers)
    /\ snd (aiModelsLoop Provider NewProvider Models providers results)
       = snd (aiModelsLoop Provider NewProvider Models providers [])
    /\ Forall isLoggedError (snd (aiModelsLoop Provider NewProvider Models providers results))
    /\ length providers
       = (length (omap (modelsOf NewProvider Models) providers)
          + length (snd (aiModelsLoop Provider NewProvider Models providers results)))%nat.
Proof.
  induction providers as [|providerSetting rest IH]; intros results.
  - simpl. by rewrite app_nil_r.
  - cbn [aiModelsLoop omap list_omap]. unfold modelsOf in *.
    destruct (NewProvider providerSetting) as [provider|err].
    + destruct (Models provider) as [models|modelsErr].
      * destruct (IH (fold_left (fun rs m => rs ++ [m]) models results))
          as (Hres & Hcalls & Hlog & Hlen).
        destruct (IH (fold_left (fun rs m => rs ++ [m]) models []))
          as (_ & Hcalls' & _).
        rewrite Hres, Hcalls, Hcalls', fold_left_snoc. simpl.
        rewrite <- app_assoc. rewrite Hcalls in Hlog, Hlen.
        repeat split; [done | lia].
      * destruct (IH results) as (Hres & Hcalls & Hlog & Hlen).
        destruct (aiModelsLoop Provider NewProvider Models rest results) as [rs cs].
        destruct (aiModelsLoop Provider NewProvider Models rest []) as [rs' cs'].
        simpl in *. subst cs'.
        repeat split; [done | constructor; [by eexists | done] | lia].
    + destruct (IH results) as (Hres & Hcalls & Hlog & Hlen).
      destruct (aiModelsLoop Provider NewProvider Models rest results) as [rs cs].
      destruct (aiModelsLoop Provider NewProvider Models rest []) as [rs' cs'].
      simpl in *. subst cs'.
      repeat split; [done | constructor; [by eexists | done] | lia].
Qed.

(** X21.  [handleAIModels] always answers with success.  The data is the
    models of the providers that could be made and could list their models,
    provider after provider in the order of the settings; every other
    provider is skipped with one logged error, and nothing else is
    logged. *)
Theorem handleAIModels_collects (providers : list AIProvider) :
  fst (handleAIModels Provider NewProvider Models providers)
  = Ok (concat (omap (modelsOf NewProvider Models) providers))
  /\ Forall isLoggedError (snd (handleAIModels Provider NewProvider Models providers))
  /\ length providers
     = (length (omap (modelsOf NewProvider Models) providers)
        + length (snd (handleAIModels Provider NewProvider Models providers)))%nat.
Proof.
  unfold handleAIModels.
  destruct (aiModelsLoop_collects providers []) as (Hres & _ & Hlog & Hlen).
  destruct (aiModelsLoop Provider NewProvider Models providers []) as [results logged].
  simpl in *. by rewrite Hres.
Qed.

Lemma pluginInstalledLoop_Ok (l : list Instance) :
  forall plugins dtos,
    pluginInstalledLoop PluginDto convertPluginInstanceToDto l plugins = Ok dtos
    <-> exists new,
          dtos = plugins ++ new
          /\ Forall2 (fun pluginInstance dto =>
                        convertPluginInstanceToDto pluginInstance = inl dto) l new.
Proof.
  induction l as [|pluginInstance rest IH]; intros plugins dtos; simpl.
  - split.
    + intros [= <-]. exists []. by rewrite app_nil_r.
    + intros (new & -> & ->%Forall2_nil_inv_l). by rewrite app_nil_r.
  - destruct (convertPluginInstanceToDto pluginInstance) as [dto|err] eqn:E.
    + rewrite IH. split.
      * intros (new & -> & Hall). exists (dto :: new).
        rewrite <- app_assoc. split; [done | by constructor].
      * intros (new & -> & Hall).
        apply Forall2_cons_inv_l in Hall as (dto' & new' & Hdto & Hall & ->).
        exists new'. rewrite <- app_assoc.
        assert (dto' = dto) as -> by congruence. by split.
    + split; [done|]. intros (new & _ & Hall).
      apply Forall2_cons_inv_l in Hall as (dto' & new' & Hdto & _). congruence.
Qed.

Lemma pluginInstalledLoop_Fail (l : list Instance) :
  forall plugins err,
    pluginInstalledLoop PluginDto convertPluginInstanceToDto l plugins = Fail err
    <-> exists pre pluginInstance post,
          l = pre ++ pluginInstance :: post
          /\ Forall (fun other => exists dto, convertPluginInstanceToDto other = inl dto) pre
          /\ convertPluginInstanceToDto pluginInstance = inr err.
Proof.
  induction l as [|pluginInstance rest IH]; intros plugins err; simpl.
  - split; [done|]. intros (pre & x & post & H & _). by destruct pre.
  - destruct (convertPluginInstanceToDto pluginInstance) as [dto|err'] eqn:E.
    + rewrite IH. split.
      * intros (pre & x & post & -> & Hpre & Hx).
        exists (pluginInstance :: pre), x, post.
        split; [done|]. split; [constructor; [by eexists | done] | done].
      * intros (pre & x & post & Hl & Hpre & Hx). destruct pre as [|y pre].
        -- injection Hl as <- <-. congruence.
        -- injection Hl as <- ->. apply Forall_cons in Hpre as [_ Hpre].
           by exists pre, x, post.
    + split.
      * intros [= <-]. exists [], pluginInstance, rest. by repeat split.
      * intros (pre & x & post & Hl & Hpre & Hx). destruct pre as [|y pre].
        -- injection Hl as <- <-. congruence.
        -- injection Hl as <- ->. apply Forall_cons in Hpre as [[dto Hy] _]. congruence.
Qed.

(** X22.  [handlePluginInstalled] is all or nothing: it answers with the
    converted instances, one per instance and in their order, exactly when
    every conversion succeeds; otherwise it answers with the error of the
    first instance that cannot be converted, and with no plugin at all. *)
Theorem handlePluginInstalled_all_or_nothing (w : World) :
  (forall dtos,
     handlePluginInstalled PluginDto convertPluginInstanceToDto w = Ok dtos
     <-> Forall2 (fun pluginInstance dto =>
                    convertPluginInstanceToDto pluginInstance = inl dto)
           (instances w) dtos)
  /\ (forall err,
        handlePluginInstalled PluginDto convertPluginInstanceToDto w = Fail err
        <-> exists pre pluginInstance post,
              instances w = pre ++ pluginInstance :: post
              /\ Forall (fun other => exists dto,
                           convertPluginInstanceToDto other = inl dto) pre
              /\ convertPluginInstanceToDto pluginInstance = inr err).
Proof.
  unfold handlePluginInstalled. split.
  - intros dtos. rewrite pluginInstalledLoop_Ok. simpl. split.
    + by intros (new & -> & Hall).
    + intros Hall. by exists dtos.
  - intros err. apply pluginInstalledLoop_Fail.
Qed.

End ListHandlerFacts.

(** *** The further router properties on runs *)

Lemma handlePluginToggle_last_wins_witness :
  let enable := ui.handlePluginToggle ui.exampleGetBytes (fun _ => None) false in
  let disable := ui.handlePluginToggle ui.exampleGetBytes (fun _ => None) true in
  ui.instances (snd (enable "p1" (snd (disable "p1" ui.exampleWorld))))
  = ui.instances ui.exampleWorld
  /\ ui.calls (snd (enable "p1" ui.exampleWorld))
     = [ui.Instance_SaveSetting "p1" (ui.Setting (ui.exampleInstance "p1" false))].
Proof.
  intros enable disable.
  destruct (handlePluginToggle_last_wins ui.exampleGetBytes (fun _ => None)
              true false "p1" ui.exampleWorld) as [Hlast Hsame].
  destruct (Hsame "p1" 0%nat (ui.exampleInstance "p1" false)) as [Hinstances Hcalls].
  - reflexivity.
  - split; [eexists; split; reflexivity | intros j other Hlt; lia].
  - reflexivity.
  - reflexivity.
  - split; [exact (eq_trans Hlast Hinstances) | exact Hcalls].
Defined.

Lemma handleSettingPluginUpdate_Disabled_is_toggle_witness :
  snd (ui.handleSettingPluginUpdate ui.exampleDecode "p1,Disabled,true" ui.exampleWorld)
  = snd (ui.handlePluginDisable ui.exampleGetBytes (fun _ => Some "disk full") "p1"
           ui.exampleWorld)
  /\ snd (ui.handleSettingPluginUpdate ui.exampleDecode "p2,Disabled,yes" ui.exampleWorld)
     = snd (ui.handlePluginEnable ui.exampleGetBytes (fun _ => Some "disk full") "p2"
              ui.exampleWorld)
  /\ fst (ui.handleSettingPluginUpdate ui.exampleDecode "p1,Disabled,true" ui.exampleWorld)
     = ui.Success (ui.DataString "")
  /\ fst (ui.handlePluginDisable ui.exampleGetBytes (fun _ => Some "disk full") "p1"
            ui.exampleWorld)
     = ui.Error "can't disable plugin: disk full".
Proof.
  destruct (handleSettingPluginUpdate_Disabled_is_toggle ui.exampleGetBytes
              (fun _ => Some "disk full") ui.exampleDecode
              "p1,Disabled,true" "p1" ui.exampleWorld
              {| ui.PluginId := "p1"; ui.Key := "Disabled"; ui.Value_ := "true" |}
              eq_refl eq_refl eq_refl) as (Hdisable & _).
  destruct (handleSettingPluginUpdate_Disabled_is_toggle ui.exampleGetBytes
              (fun _ => Some "disk full") ui.exampleDecode
              "p2,Disabled,yes" "p2" ui.exampleWorld
              {| ui.PluginId := "p2"; ui.Key := "Disabled"; ui.Value_ := "yes" |}
              eq_refl eq_refl eq_refl) as (Henable & _).
  split; [exact Hdisable|]. split; [exact Henable|]. split; reflexivity.
Defined.

Lemma handleSettingPluginUpdate_TriggerKeywords_witness :
  (setting.TriggerKeywords <$>
     (ui.Setting <$>
        ui.instances (snd (ui.handleSettingPluginUpdate
                             (fun _ => inl {| ui.PluginId := "p2";
                                              ui.Key := "TriggerKeywords";
                                              ui.Value_ := "wiki,w" |})
                             "" ui.exampleWorld)) !! 1%nat))
  = Some ["wiki"; "w"]
  /\ (setting.TriggerKeywords <$>
        (ui.Setting <$>
           ui.instances (snd (ui.handleSettingPluginUpdate
                                (fun _ => inl {| ui.PluginId := "p2";
                                                 ui.Key := "TriggerKeywords";
                                                 ui.Value_ := "" |})
                                "" ui.exampleWorld)) !! 1%nat))
     = Some [""].
Proof.
  destruct (handleSettingPluginUpdate_TriggerKeywords
              (fun _ => inl {| ui.PluginId := "p2"; ui.Key := "TriggerKeywords";
                               ui.Value_ := "" |})
              "" ui.exampleWorld
              {| ui.PluginId := "p2"; ui.Key := "TriggerKeywords"; ui.Value_ := "" |}
              1%nat eq_refl eq_refl)
    as (pluginInstance & Hk & _ & _ & _ & Hempty).
  - split; [eexists; split; reflexivity|].
    intros [|j] other Hlt; [intros [= <-]; discriminate | lia].
  - split; [reflexivity|]. rewrite Hk. simpl. by rewrite (Hempty eq_refl).
Defined.
